(** * The streaming MMD estimation engine

    A shallow embedding of [src/shogun/statistical_testing/MMD.cpp]
    (class [CMMD] and its private helper [CMMD::Self]) together with the
    properties of its accumulators, error paths and configuration surface.

    Layout:
    - scalars ([float64_t] behind an interface, exact rationals as one
      instance), [index_t] counters with 32-bit wrap-around;
    - the collaborators the engine consumes (features, kernels, jobs, the
      data manager, the kernel manager, the computation manager);
    - the engine operations, named as in the source;
    - the theorems. *)

From Stdlib Require String.
Import String.StringSyntax.
Delimit Scope string_scope with string.
From Stdlib Require FloatOps SpecFloat Uint63 Qcabs.
From Stdlib Require Import PrimFloat.
From Stdlib Require Import ZArith QArith Qcanon Lia List Permutation.
From stdpp Require Import base list numbers.
Import ListNotations.

Set Default Proof Using "Type".

(* ================================================================== *)
(** ** Scalars *)

(** [float64_t] and the arithmetic the engine performs on it.  Job results
    are [float32_t]; every single-precision value is exactly a
    double-precision one, so a job result is carried as the [F] it widens
    to.  The only arithmetic done in single precision is the product of
    differences in the covariance loop ([fsub32], [fmul32]).  [of_index]
    is the implicit conversion of an [index_t] counter in [delta/counter].
    The one law asked of the arithmetic is that the single-precision
    product commutes, which holds of IEEE arithmetic as of exact
    arithmetic. *)
Class Scalar (F : Type) := {
  fzero : F;
  fadd : F -> F -> F;
  fsub : F -> F -> F;
  fmul : F -> F -> F;
  fdiv : F -> F -> F;
  fsub32 : F -> F -> F;
  fmul32 : F -> F -> F;
  of_index : Z -> F;
  fmul32_comm : forall x y, fmul32 x y = fmul32 y x
}.

Declare Scope F_scope.
Delimit Scope F_scope with F.
Infix "+" := fadd : F_scope.
Infix "-" := fsub : F_scope.
Infix "*" := fmul : F_scope.
Infix "/" := fdiv : F_scope.

#[global] Instance scalar_inhabited {F} `{Scalar F} : Inhabited F :=
  populate fzero.

(** Exact arithmetic: canonical rationals. *)
#[global] Instance Qc_scalar : Scalar Qc := {
  fzero := Q2Qc 0;
  fadd := Qcplus;
  fsub := Qcminus;
  fmul := Qcmult;
  fdiv := Qcdiv;
  fsub32 := Qcminus;
  fmul32 := Qcmult;
  of_index := Qc_of_Z;
  fmul32_comm := Qcmult_comm
}.

(** Machine arithmetic: IEEE binary64 for [float64_t]; the two
    single-precision operations round the exact result to binary32. *)
Definition float_of_index (z : Z) : float :=
  if (z <? 0)%Z
  then PrimFloat.opp (PrimFloat.of_uint63 (Uint63.of_Z (- z)))
  else PrimFloat.of_uint63 (Uint63.of_Z z).

Definition float_sub32 (a b : float) : float :=
  FloatOps.SF2Prim
    (SpecFloat.SFsub 24 128 (FloatOps.Prim2SF a) (FloatOps.Prim2SF b)).

Definition float_mul32 (a b : float) : float :=
  FloatOps.SF2Prim
    (SpecFloat.SFmul 24 128 (FloatOps.Prim2SF a) (FloatOps.Prim2SF b)).

#[global, refine] Instance float_scalar : Scalar float := {
  fzero := 0%float;
  fadd := PrimFloat.add;
  fsub := PrimFloat.sub;
  fmul := PrimFloat.mul;
  fdiv := PrimFloat.div;
  fsub32 := float_sub32;
  fmul32 := float_mul32;
  of_index := float_of_index;
  fmul32_comm := _
}.
Proof.
  intros x y. unfold float_mul32. f_equal.
  destruct (FloatOps.Prim2SF x) as [sx|sx| |sx mx ex],
           (FloatOps.Prim2SF y) as [sy|sy| |sy my ey];
    cbn; rewrite ?(Bool.xorb_comm sx sy); try reflexivity.
  rewrite (Pos.mul_comm mx my), (Z.add_comm ex ey). reflexivity.
Defined.

(** [index_t] is a signed 32-bit integer; [c++] is modelled with two's
    complement wrap-around. *)
Abbreviation index_t := Z (only parsing).

Definition index_wrap (z : Z) : index_t :=
  ((z + 2 ^ 31) mod 2 ^ 32 - 2 ^ 31)%Z.

Definition index_succ (c : index_t) : index_t := index_wrap (c + 1).

(** [for (size_t i=0; i<n; ++i) body(i)] over a loop state. *)
Definition for_index {St : Type} (n : nat) (body : nat -> St -> St) (s : St)
  : St :=
  fold_left (fun acc i => body i acc) (seq 0 n) s.

(* ================================================================== *)
(** ** Configuration enumerations *)

(** Modelled from the spec: the enumerations of the configuration surface
    are declared in the class header; their enumerators are the ones the
    source names and the spec lists (statistic type: unbiased-full,
    unbiased-incomplete, biased-full; variance estimation: direct,
    permutation). *)
Inductive EStatisticType :=
| ST_UNBIASED_FULL
| ST_UNBIASED_INCOMPLETE
| ST_BIASED_FULL.

Inductive EVarianceEstimationMethod :=
| VEM_DIRECT
| VEM_PERMUTATION.

Inductive ENullApproximationMethod :=
| NAM_PERMUTATION
| NAM_MMD1_GAUSSIAN
| NAM_MMD2_SPECTRUM
| NAM_MMD2_GAMMA.

(** The four methods [select_kernel] dispatches on; [KSM_OTHER] stands for
    any enumerator that reaches the [default] branch of its switch. *)
Inductive EKernelSelectionMethod :=
| KSM_MEDIAN_HEURISTIC
| KSM_MAXIMIZE_XVALIDATION
| KSM_MAXIMIZE_MMD
| KSM_MAXIMIZE_POWER
| KSM_OTHER.

(* ================================================================== *)
(** ** Errors *)

(** The fatal conditions raised through [REQUIRE], [SG_ERROR], [SG_SERROR]
    and [ASSERT], one constructor per message of the source; a constructor
    argument is the value the message is formatted with.  The last
    constructor is the length error the vector constructors raise when they
    are handed a negative length. *)
Inductive ShogunException :=
| Kernel_is_not_set
    (* "Kernel is not set!" *)
| No_kernels_specified
    (* "No kernels specified for kernel learning! Please add kernels using
       add_kernel() method!" *)
| Number_of_blocks_not_even (num_blocks : nat)
    (* "The number of blocks per burst (%d this burst) has to be even!" *)
| Underlying_kernel_custom
    (* "Underlying kernel cannot be custom!" *)
| Try_less_blocks_per_burst (what : String.string)
    (* "%s, Try using less number of blocks per burst!" *)
| Weighted_not_possible (kmethod : EKernelSelectionMethod)
    (* "Weighted kernel selection is not possible with ...!" *)
| Unsupported_selection_method
    (* "Unsupported kernel selection method specified! ..." *)
| Could_not_fetch_samples
    (* "Could not fetch samples!" *)
| Data_is_too_large (what : String.string)
    (* "%s, Data is too large! Computing distance matrix was not possible!" *)
| Raised_by_policy (what : String.string)
    (* whatever a selection policy throws *)
| Length_error (length : Z).
    (* a vector cannot be built with this (negative) length *)

Inductive Result (A : Type) :=
| Ok (a : A)
| Throw (e : ShogunException).
Arguments Ok {A} a.
Arguments Throw {A} e.

Definition result_map {A B} (f : A -> B) (r : Result A) : Result B :=
  match r with
  | Ok a => Ok (f a)
  | Throw e => Throw e
  end.

(* ================================================================== *)
(** ** Collaborators *)

(** What the engine consumes from the rest of the toolbox and does not
    define itself: feature blocks and their merge, kernels and their Gram
    matrices, the job functors, the executor that evaluates one job on one
    kernel matrix, and the owner's normalisation rules.  The permutation
    job draws from a random generator, so evaluating a job threads the
    generator state [Rng]. *)
Class Collaborators (F : Type) := {
  Features : Type;
  Kernel : Type;
  KMatrix : Type;
  Distance : Type;
  Rng : Type;
  Job : Type;
  (* FeaturesUtil::create_merged_copy *)
  create_merged_copy : Features -> Features -> Features;
  (* kernel->get_kernel_type()==K_CUSTOM *)
  is_custom : Kernel -> bool;
  (* clone, init(block, block), get_kernel_matrix<float32_t>(); [inl what]
     when a ShogunException is thrown on the way *)
  get_kernel_matrix : Kernel -> Features -> String.string + KMatrix;
  (* mmd::UnbiasedFull(Bx) and its siblings *)
  UnbiasedFull : index_t -> Job;
  UnbiasedIncomplete : index_t -> Job;
  BiasedFull : index_t -> Job;
  WithinBlockPermutation : index_t -> index_t -> EStatisticType -> Job;
  (* owner.get_direct_estimation_method() *)
  get_direct_estimation_method : Job;
  (* one job on one kernel matrix, on the CPU ([false]) or GPU ([true]) *)
  run_job : bool -> Job -> KMatrix -> Rng -> F * Rng;
  (* owner.normalize_statistic, owner.normalize_variance *)
  normalize_statistic : F -> F;
  normalize_variance : F -> F;
  (* CEuclideanDistance on the merged samples: [inr None] when init fails,
     [inl what] when an exception is thrown *)
  euclidean_distance : Features -> String.string + option Distance
}.

(* ================================================================== *)
(** ** Matrices *)

(** Modelled from the spec: a matrix indexed by pairs [(i,j)]
    ([SGMatrix], declared by the toolbox), [num_rows * num_cols] entries
    stored column by column, [m(i,j)] at offset [j*num_rows+i]. *)
Record SGMatrix (A : Type) := {
  num_rows : nat;
  num_cols : nat;
  matrix : list A
}.
Arguments num_rows {A} _.
Arguments num_cols {A} _.
Arguments matrix {A} _.

Definition mat_fill {A} (rows cols : nat) (v : A) : SGMatrix A :=
  {| num_rows := rows; num_cols := cols; matrix := replicate (rows * cols) v |}.

Definition mat_get {A} `{Inhabited A} (m : SGMatrix A) (i j : nat) : A :=
  matrix m !!! (j * num_rows m + i)%nat.

Definition mat_set {A} (m : SGMatrix A) (i j : nat) (v : A) : SGMatrix A :=
  {| num_rows := num_rows m; num_cols := num_cols m;
     matrix := <[(j * num_rows m + i)%nat := v]> (matrix m) |}.

(** A square matrix of order [n] with its storage in place. *)
Definition mat_wf {A} (n : nat) (m : SGMatrix A) : Prop :=
  num_rows m = n /\ length (matrix m) = (n * n)%nat.

(* ================================================================== *)
(** ** The data model *)

Section Engine.
Context {F : Type} `{SF : Scalar F} `{CF : Collaborators F}.

(** Modelled from the spec: a burst ([NextSamples]) is the blocks of both
    distributions fetched together, block [i] of P next to block [i] of Q;
    [num_blocks] is their common count and a burst is empty when it holds
    no block. *)
Definition Burst : Type := list (Features * Features).

Definition num_blocks (next_burst : Burst) : nat := length next_burst.

Definition burst_empty (next_burst : Burst) : bool :=
  match next_burst with [] => true | _ => false end.

(** Modelled from the spec: the streaming source ([DataManager]).
    [dm_source] is what a pass over the data delivers, [dm_pending] what
    the current pass has still to deliver; [next] hands out the bursts of
    [dm_pending] in order and the empty burst once there is none left.
    [start] and [end] bracket a pass, [reset] rewinds it.  The three
    setters only record their argument. *)
Record DataManager := {
  dm_source : list Burst;
  dm_pending : list Burst;
  dm_started : bool;
  dm_train_mode : bool;
  dm_train_test_ratio : F;
  dm_blockwise : bool;
  dm_blocksize : nat -> index_t
}.

Definition dm_start (dm : DataManager) : DataManager :=
  {| dm_source := dm_source dm; dm_pending := dm_pending dm;
     dm_started := true;
     dm_train_mode := dm_train_mode dm;
     dm_train_test_ratio := dm_train_test_ratio dm;
     dm_blockwise := dm_blockwise dm; dm_blocksize := dm_blocksize dm |}.

Definition dm_end (dm : DataManager) : DataManager :=
  {| dm_source := dm_source dm; dm_pending := dm_pending dm;
     dm_started := false;
     dm_train_mode := dm_train_mode dm;
     dm_train_test_ratio := dm_train_test_ratio dm;
     dm_blockwise := dm_blockwise dm; dm_blocksize := dm_blocksize dm |}.

Definition dm_with_pending (dm : DataManager) (p : list Burst) : DataManager :=
  {| dm_source := dm_source dm; dm_pending := p;
     dm_started := dm_started dm;
     dm_train_mode := dm_train_mode dm;
     dm_train_test_ratio := dm_train_test_ratio dm;
     dm_blockwise := dm_blockwise dm; dm_blocksize := dm_blocksize dm |}.

Definition dm_next (dm : DataManager) : Burst * DataManager :=
  match dm_pending dm with
  | [] => ([], dm)
  | b :: rest => (b, dm_with_pending dm rest)
  end.

Definition dm_reset (dm : DataManager) : DataManager :=
  dm_with_pending dm (dm_source dm).

Definition dm_set_train_test_ratio (dm : DataManager) (r : F) : DataManager :=
  {| dm_source := dm_source dm; dm_pending := dm_pending dm;
     dm_started := dm_started dm;
     dm_train_mode := dm_train_mode dm;
     dm_train_test_ratio := r;
     dm_blockwise := dm_blockwise dm; dm_blocksize := dm_blocksize dm |}.

Definition dm_set_train_mode (dm : DataManager) (b : bool) : DataManager :=
  {| dm_source := dm_source dm; dm_pending := dm_pending dm;
     dm_started := dm_started dm;
     dm_train_mode := b;
     dm_train_test_ratio := dm_train_test_ratio dm;
     dm_blockwise := dm_blockwise dm; dm_blocksize := dm_blocksize dm |}.

Definition dm_set_blockwise (dm : DataManager) (b : bool) : DataManager :=
  {| dm_source := dm_source dm; dm_pending := dm_pending dm;
     dm_started := dm_started dm;
     dm_train_mode := dm_train_mode dm;
     dm_train_test_ratio := dm_train_test_ratio dm;
     dm_blockwise := b; dm_blocksize := dm_blocksize dm |}.

(** Modelled from the spec: the kernel registry ([KernelManager]), a
    sequence of slots, each null or holding a kernel.  No operation of this
    file installs a temporary override, so [restore_kernel_at] leaves the
    slots as they are. *)
Definition KernelManager : Type := list (option Kernel).

Definition kernel_at (km : KernelManager) (i : nat) : option Kernel :=
  match km !! i with Some slot => slot | None => None end.

Definition set_kernel_at (km : KernelManager) (i : nat) (k : Kernel)
  : KernelManager := <[i := Some k]> km.

Definition restore_kernel_at (km : KernelManager) (i : nat) : KernelManager :=
  km.

(** Modelled from the spec: the parallel job executor
    ([ComputationManager]).  [compute_data_parallel_jobs] evaluates every
    enqueued job on every kernel matrix; the result of job [j] on matrix
    [i] lands in slot [i] of [result j].  The data-parallel loop is
    sequentialised in block order, jobs in queue order within a block. *)
Record ComputationManager := {
  cm_gpu : bool;
  job_array : list Job;
  data_array : list KMatrix;
  (* one row per kernel matrix, one column per job *)
  result_rows : list (list F)
}.

Definition new_cm : ComputationManager :=
  {| cm_gpu := false; job_array := []; data_array := []; result_rows := [] |}.

Definition enqueue_job (cm : ComputationManager) (job : Job)
  : ComputationManager :=
  {| cm_gpu := cm_gpu cm; job_array := job_array cm ++ [job];
     data_array := data_array cm; result_rows := result_rows cm |}.

Definition cm_set_data (cm : ComputationManager) (d : list KMatrix)
  : ComputationManager :=
  {| cm_gpu := cm_gpu cm; job_array := job_array cm;
     data_array := d; result_rows := result_rows cm |}.

Definition cm_use (cm : ComputationManager) (gpu : bool) : ComputationManager :=
  {| cm_gpu := gpu; job_array := job_array cm;
     data_array := data_array cm; result_rows := result_rows cm |}.

Fixpoint run_jobs (gpu : bool) (jobs : list Job) (d : KMatrix) (g : Rng)
  : list F * Rng :=
  match jobs with
  | [] => ([], g)
  | job :: rest =>
      let '(x, g1) := run_job gpu job d g in
      let '(xs, g2) := run_jobs gpu rest d g1 in
      (x :: xs, g2)
  end.

Fixpoint run_blocks (gpu : bool) (jobs : list Job) (data : list KMatrix)
  (g : Rng) : list (list F) * Rng :=
  match data with
  | [] => ([], g)
  | d :: rest =>
      let '(row, g1) := run_jobs gpu jobs d g in
      let '(rows, g2) := run_blocks gpu jobs rest g1 in
      (row :: rows, g2)
  end.

Definition compute_data_parallel_jobs (cm : ComputationManager) (g : Rng)
  : ComputationManager * Rng :=
  let '(rows, g') := run_blocks (cm_gpu cm) (job_array cm) (data_array cm) g in
  ({| cm_gpu := cm_gpu cm; job_array := job_array cm;
      data_array := data_array cm; result_rows := rows |}, g').

Definition result (cm : ComputationManager) (j : nat) : list F :=
  map (fun row => row !!! j) (result_rows cm).

(* ================================================================== *)
(** ** Engine state *)

(** [CMMD::Self].  The three job members are written by
    [create_statistic_job] and [create_variance_job] at the start of every
    operation before they are read, so they are carried as the values those
    functions return ([Jobs]) rather than as fields. *)
Record Self := {
  use_gpu : bool;
  num_null_samples : index_t;
  statistic_type : EStatisticType;
  variance_estimation_method : EVarianceEstimationMethod;
  null_approximation_method : ENullApproximationMethod;
  kernel_selection_mgr : list Kernel
}.

(** [CMMD::Self::Self] *)
Definition Self_new : Self :=
  {| use_gpu := false;
     num_null_samples := 250%Z;
     statistic_type := ST_UNBIASED_FULL;
     variance_estimation_method := VEM_DIRECT;
     null_approximation_method := NAM_PERMUTATION;
     kernel_selection_mgr := [] |}.

(** The engine: [self], the owner's data and kernel managers, and the state
    of the random generator the permutation job draws from. *)
Record CMMD := {
  self : Self;
  data_manager : DataManager;
  kernel_manager : KernelManager;
  sg_rand : Rng
}.

(** [CMMD::CMMD], on the managers the base class provides. *)
Definition CMMD_new (dm : DataManager) (km : KernelManager) (g : Rng) : CMMD :=
  {| self := Self_new; data_manager := dm; kernel_manager := km; sg_rand := g |}.

Definition with_self (m : CMMD) (s : Self) : CMMD :=
  {| self := s; data_manager := data_manager m;
     kernel_manager := kernel_manager m; sg_rand := sg_rand m |}.

Definition with_data_manager (m : CMMD) (dm : DataManager) : CMMD :=
  {| self := self m; data_manager := dm;
     kernel_manager := kernel_manager m; sg_rand := sg_rand m |}.

Definition with_kernel_manager (m : CMMD) (km : KernelManager) : CMMD :=
  {| self := self m; data_manager := data_manager m;
     kernel_manager := km; sg_rand := sg_rand m |}.

(* ================================================================== *)
(** ** Computations that may throw and draw random numbers *)

Definition M (A : Type) : Type := Rng -> Result A * Rng.

Definition ret {A} (a : A) : M A := fun g => (Ok a, g).

Definition throw {A} (e : ShogunException) : M A := fun g => (Throw e, g).

Definition bind {A B} (c : M A) (k : A -> M B) : M B :=
  fun g => match c g with
           | (Ok a, g1) => k a g1
           | (Throw e, g1) => (Throw e, g1)
           end.

Definition lift {A} (r : Result A) : M A := fun g => (r, g).

Definition draw {A} (c : Rng -> A * Rng) : M A :=
  fun g => let '(a, g1) := c g in (Ok a, g1).

Notation "'do' x <~ c 'in' k" := (bind c (fun x => k))
  (at level 10, x name, c at level 200, k at level 200, only parsing).

(** [for (size_t k=0; k<xs.size(); ++k) body(k, xs[k])] where the body may
    throw. *)
Fixpoint for_each_indexed {A St} (body : nat -> A -> St -> M St) (k : nat)
  (xs : list A) (s : St) : M St :=
  match xs with
  | [] => ret s
  | x :: rest => do s1 <~ body k x s in for_each_indexed body (S k) rest s1
  end.

(** [auto next_burst=dm.next(); while (!next_burst.empty()) { body;
    next_burst=dm.next(); }] over the bursts the data manager has pending.
    Returns what is left pending next to the outcome. *)
Fixpoint while_next {St} (body : Burst -> St -> M St) (pending : list Burst)
  (s : St) (g : Rng) : Result St * list Burst * Rng :=
  match pending with
  | [] => (Ok s, [], g)
  | next_burst :: rest =>
      if burst_empty next_burst then (Ok s, rest, g)
      else match body next_burst s g with
           | (Ok s1, g1) => while_next body rest s1 g1
           | (Throw e, g1) => (Throw e, rest, g1)
           end
  end.

(* ================================================================== *)
(** ** Jobs, merging, kernel matrices *)

Record Jobs := {
  statistic_job : Job;
  permutation_job : Job;
  variance_job : Job
}.

(** [create_statistic_job]: the statistic job and the permutation job. *)
Definition create_statistic_job (s : Self) (dm : DataManager) : Job * Job :=
  let Bx := dm_blocksize dm 0%nat in
  let By := dm_blocksize dm 1%nat in
  (match statistic_type s with
   | ST_UNBIASED_FULL => UnbiasedFull Bx
   | ST_UNBIASED_INCOMPLETE => UnbiasedIncomplete Bx
   | ST_BIASED_FULL => BiasedFull Bx
   end,
   WithinBlockPermutation Bx By (statistic_type s)).

Definition create_variance_job (s : Self) (permutation_job : Job) : Job :=
  match variance_estimation_method s with
  | VEM_DIRECT => get_direct_estimation_method
  | VEM_PERMUTATION => permutation_job
  end.

Definition create_computation_jobs (s : Self) (dm : DataManager) : Jobs :=
  let '(sj, pj) := create_statistic_job s dm in
  {| statistic_job := sj; permutation_job := pj;
     variance_job := create_variance_job s pj |}.

Definition merge_samples (next_burst : Burst) : list Features :=
  map (fun pq => create_merged_copy (fst pq) (snd pq)) next_burst.

Fixpoint kernel_matrices (kernel : Kernel) (blocks : list Features)
  : String.string + list KMatrix :=
  match blocks with
  | [] => inr []
  | block :: rest =>
      match get_kernel_matrix kernel block with
      | inl what => inl what
      | inr km =>
          match kernel_matrices kernel rest with
          | inl what => inl what
          | inr kms => inr (km :: kms)
          end
      end
  end.

Definition compute_kernel (cm : ComputationManager) (blocks : list Features)
  (kernel : Kernel) : Result ComputationManager :=
  if is_custom kernel then Throw Underlying_kernel_custom
  else match kernel_matrices kernel blocks with
       | inl what => Throw (Try_less_blocks_per_burst what)
       | inr kms => Ok (cm_set_data cm kms)
       end.

Definition compute_jobs (s : Self) (cm : ComputationManager) (g : Rng)
  : ComputationManager * Rng :=
  compute_data_parallel_jobs (cm_use cm (use_gpu s)) g.

(* ================================================================== *)
(** ** [CMMD::Self::compute_statistic_variance] *)

(** The five locals the burst loop updates. *)
Record SVAcc := {
  sv_statistic : F;
  sv_permuted_samples_statistic : F;
  sv_variance : F;
  sv_statistic_term_counter : index_t;
  sv_variance_term_counter : index_t
}.

Definition sv_init : SVAcc :=
  {| sv_statistic := fzero;
     sv_permuted_samples_statistic := fzero;
     sv_variance := fzero;
     sv_statistic_term_counter := 1%Z;
     sv_variance_term_counter := 1%Z |}.

(** [for (i<mmds.size()) { delta=mmds[i]-statistic;
    statistic+=delta/statistic_term_counter; statistic_term_counter++; }] *)
Definition sv_fold_statistic (mmds : list F) (a : SVAcc) : SVAcc :=
  for_index (length mmds) (fun i a =>
    let delta := (mmds !!! i - sv_statistic a)%F in
    {| sv_statistic :=
         (sv_statistic a + delta / of_index (sv_statistic_term_counter a))%F;
       sv_permuted_samples_statistic := sv_permuted_samples_statistic a;
       sv_variance := sv_variance a;
       sv_statistic_term_counter := index_succ (sv_statistic_term_counter a);
       sv_variance_term_counter := sv_variance_term_counter a |}) a.

(** The [VEM_DIRECT] branch; its bound is [mmds.size()]. *)
Definition sv_fold_variance_direct (mmds vars : list F) (a : SVAcc) : SVAcc :=
  for_index (length mmds) (fun i a =>
    let delta := (vars !!! i - sv_variance a)%F in
    {| sv_statistic := sv_statistic a;
       sv_permuted_samples_statistic := sv_permuted_samples_statistic a;
       sv_variance :=
         (sv_variance a + delta / of_index (sv_variance_term_counter a))%F;
       sv_statistic_term_counter := sv_statistic_term_counter a;
       sv_variance_term_counter := index_succ (sv_variance_term_counter a) |}) a.

(** The permutation branch:
    [delta=vars[i]-permuted_samples_statistic;
     permuted_samples_statistic+=delta/variance_term_counter;
     variance+=delta*(vars[i]-permuted_samples_statistic);
     variance_term_counter++;] *)
Definition sv_fold_variance_permutation (vars : list F) (a : SVAcc) : SVAcc :=
  for_index (length vars) (fun i a =>
    let delta := (vars !!! i - sv_permuted_samples_statistic a)%F in
    let permuted_samples_statistic :=
      (sv_permuted_samples_statistic a
       + delta / of_index (sv_variance_term_counter a))%F in
    {| sv_statistic := sv_statistic a;
       sv_permuted_samples_statistic := permuted_samples_statistic;
       sv_variance :=
         (sv_variance a + delta * (vars !!! i - permuted_samples_statistic))%F;
       sv_statistic_term_counter := sv_statistic_term_counter a;
       sv_variance_term_counter := index_succ (sv_variance_term_counter a) |}) a.

(** The body of the burst loop.  [cm] holds the two enqueued jobs; the
    data and result arrays are overwritten in full on every burst. *)
Definition sv_burst (s : Self) (cm : ComputationManager) (kernel : Kernel)
  (next_burst : Burst) (a : SVAcc) : M SVAcc :=
  let blocks := merge_samples next_burst in
  do cm1 <~ lift (compute_kernel cm blocks kernel) in
  do cm2 <~ draw (compute_jobs s cm1) in
  let mmds := result cm2 0 in
  let vars := result cm2 1 in
  let a1 := sv_fold_statistic mmds a in
  ret (match variance_estimation_method s with
       | VEM_DIRECT => sv_fold_variance_direct mmds vars a1
       | VEM_PERMUTATION => sv_fold_variance_permutation vars a1
       end).

Definition compute_statistic_variance (m : CMMD) : Result (F * F) * CMMD :=
  match kernel_at (kernel_manager m) 0 with
  | None => (Throw Kernel_is_not_set, m)
  | Some kernel =>
      let s := self m in
      let jobs := create_computation_jobs s (data_manager m) in
      let cm := enqueue_job (enqueue_job new_cm (statistic_job jobs))
                  (variance_job jobs) in
      let dm := dm_start (data_manager m) in
      let '(r, pending, g) :=
        while_next (sv_burst s cm kernel) (dm_pending dm) sv_init (sg_rand m) in
      let dm1 := dm_with_pending dm pending in
      match r with
      | Throw e =>
          (Throw e,
           {| self := s; data_manager := dm1;
              kernel_manager := kernel_manager m; sg_rand := g |})
      | Ok a =>
          let statistic := normalize_statistic (sv_statistic a) in
          let variance :=
            match variance_estimation_method s with
            | VEM_PERMUTATION => normalize_variance (sv_variance a)
            | VEM_DIRECT => sv_variance a
            end in
          (Ok (statistic, variance),
           {| self := s; data_manager := dm_end dm1;
              kernel_manager := kernel_manager m; sg_rand := g |})
      end
  end.

(* ================================================================== *)
(** ** [CMMD::Self::compute_statistic_and_Q] *)

Record QAcc := {
  sq_statistic : list F;
  sq_Q : SGMatrix F;
  sq_term_counters_statistic : list index_t;
  sq_term_counters_Q : SGMatrix index_t;
  sq_mmds : list (list F)
}.

Definition sq_init (num_kernels : nat) : QAcc :=
  {| sq_statistic := replicate num_kernels fzero;
     sq_Q := mat_fill num_kernels num_kernels fzero;
     sq_term_counters_statistic := replicate num_kernels 1%Z;
     sq_term_counters_Q := mat_fill num_kernels num_kernels 1%Z;
     sq_mmds := replicate num_kernels [] |}.

(** [for (i<num_blocks) { delta=mmds[k][i]-statistic[k];
    statistic[k]+=delta/term_counters_statistic[k]++; }] *)
Definition sq_fold_statistic (k num_blocks : nat) (a : QAcc) : QAcc :=
  for_index num_blocks (fun i a =>
    let delta := ((sq_mmds a !!! k) !!! i - sq_statistic a !!! k)%F in
    let counter := sq_term_counters_statistic a !!! k in
    {| sq_statistic :=
         <[k := (sq_statistic a !!! k + delta / of_index counter)%F]>
           (sq_statistic a);
       sq_Q := sq_Q a;
       sq_term_counters_statistic :=
         <[k := index_succ counter]> (sq_term_counters_statistic a);
       sq_term_counters_Q := sq_term_counters_Q a;
       sq_mmds := sq_mmds a |}) a.

(** The body of [for (k<num_kernels)]. *)
Definition sq_kernel (s : Self) (cm : ComputationManager)
  (blocks : list Features) (num_blocks : nat) (k : nat) (kernel : Kernel)
  (a : QAcc) : M QAcc :=
  do cm1 <~ lift (compute_kernel cm blocks kernel) in
  do cm2 <~ draw (compute_jobs s cm1) in
  let a1 :=
    {| sq_statistic := sq_statistic a; sq_Q := sq_Q a;
       sq_term_counters_statistic := sq_term_counters_statistic a;
       sq_term_counters_Q := sq_term_counters_Q a;
       sq_mmds := <[k := result cm2 0]> (sq_mmds a) |} in
  ret (sq_fold_statistic k num_blocks a1).

(** The values [k] takes in [for (size_t k=0; k<num_blocks-1; k+=2)].  The
    loop is only reached with [num_blocks > 0], where the unsigned
    [num_blocks-1] does not wrap. *)
Definition pair_starts (num_blocks : nat) : list nat :=
  filter (fun k => Nat.even k = true) (seq 0 (num_blocks - 1)).

(** [term=(mmds[i][k]-mmds[i][k+1])*(mmds[j][k]-mmds[j][k+1]);
    Q(i,j)+=(term-Q(i,j))/term_counters_Q(i,j)++;] *)
Definition sq_pair (i j k : nat) (a : QAcc) : QAcc :=
  let term :=
    fmul32 (fsub32 ((sq_mmds a !!! i) !!! k) ((sq_mmds a !!! i) !!! (k + 1)%nat))
           (fsub32 ((sq_mmds a !!! j) !!! k) ((sq_mmds a !!! j) !!! (k + 1)%nat)) in
  let q := mat_get (sq_Q a) i j in
  let counter := mat_get (sq_term_counters_Q a) i j in
  {| sq_statistic := sq_statistic a;
     sq_Q := mat_set (sq_Q a) i j (q + (term - q) / of_index counter)%F;
     sq_term_counters_statistic := sq_term_counters_statistic a;
     sq_term_counters_Q :=
       mat_set (sq_term_counters_Q a) i j (index_succ counter);
     sq_mmds := sq_mmds a |}.

(** The body of [for (j<=i)]: the pair loop, then [Q(j,i)=Q(i,j)]. *)
Definition sq_cell (num_blocks i j : nat) (a : QAcc) : QAcc :=
  let a1 := fold_left (fun a k => sq_pair i j k a) (pair_starts num_blocks) a in
  {| sq_statistic := sq_statistic a1;
     sq_Q := mat_set (sq_Q a1) j i (mat_get (sq_Q a1) i j);
     sq_term_counters_statistic := sq_term_counters_statistic a1;
     sq_term_counters_Q := sq_term_counters_Q a1;
     sq_mmds := sq_mmds a1 |}.

Definition sq_fold_Q (num_kernels num_blocks : nat) (a : QAcc) : QAcc :=
  for_index num_kernels (fun i a =>
    for_index (S i) (fun j a => sq_cell num_blocks i j a) a) a.

Definition sq_burst (s : Self) (cm : ComputationManager) (next_burst : Burst)
  (a : QAcc) : M QAcc :=
  let num_kernels := length (kernel_selection_mgr s) in
  let num_blocks := num_blocks next_burst in
  if negb (Nat.even num_blocks)
  then throw (Number_of_blocks_not_even num_blocks)
  else
    let blocks := merge_samples next_burst in
    do a1 <~ for_each_indexed (sq_kernel s cm blocks num_blocks) 0
               (kernel_selection_mgr s) a in
    ret (sq_fold_Q num_kernels num_blocks a1).

(** [std::for_each(first, last, f)] with [f] taking its argument by value:
    [f] runs on a copy of every element and the range is left as it was. *)
Definition for_each_by_value {A} (f : A -> A) (v : list A) : list A :=
  fold_left (fun range x => let val := f x in range) v v.

(** The same with [f] taking a reference: every element is overwritten. *)
Definition for_each_by_reference {A} (f : A -> A) (v : list A) : list A :=
  for_index (length v) (fun i range =>
    match range !! i with
    | Some x => <[i := f x]> range
    | None => range
    end) v.

Definition compute_statistic_and_Q (m : CMMD)
  : Result (list F * SGMatrix F) * CMMD :=
  let s := self m in
  if (length (kernel_selection_mgr s) =? 0)%nat
  then (Throw No_kernels_specified, m)
  else
    let num_kernels := length (kernel_selection_mgr s) in
    let jobs := create_computation_jobs s (data_manager m) in
    let cm := enqueue_job new_cm (statistic_job jobs) in
    let dm := dm_start (data_manager m) in
    let '(r, pending, g) :=
      while_next (sq_burst s cm) (dm_pending dm) (sq_init num_kernels)
        (sg_rand m) in
    let dm1 := dm_with_pending dm pending in
    match r with
    | Throw e =>
        (Throw e,
         {| self := s; data_manager := dm1;
            kernel_manager := kernel_manager m; sg_rand := g |})
    | Ok a =>
        let statistic :=
          for_each_by_value normalize_statistic (sq_statistic a) in
        (Ok (statistic, sq_Q a),
         {| self := s; data_manager := dm_end dm1;
            kernel_manager := kernel_manager m; sg_rand := g |})
    end.

(* ================================================================== *)
(** ** [CMMD::Self::sample_null] *)

Record SNAcc := {
  sn_statistic : list F;
  sn_term_counters : list index_t
}.

(** The two vectors after the [std::fill]s: zeros and ones. *)
Definition sn_filled (length : nat) : SNAcc :=
  {| sn_statistic := replicate length fzero;
     sn_term_counters := replicate length 1%Z |}.

(** [SGVector<float64_t> statistic(num_null_samples);
    std::vector<index_t> term_counters(num_null_samples);] and the two
    [std::fill]s.  The setter stores the count unchecked; a negative count
    cannot size the vectors and building them raises a length error. *)
Definition sn_init (num_null_samples : index_t) : Result SNAcc :=
  if (num_null_samples <? 0)%Z then Throw (Length_error num_null_samples)
  else Ok (sn_filled (Z.to_nat num_null_samples)).

(** [for (i<mmds.size()) { delta=mmds[i]-statistic[j];
    statistic[j]+=delta/term_counters[j]; term_counters[j]++; }] *)
Definition sn_fold (j : nat) (mmds : list F) (a : SNAcc) : SNAcc :=
  for_index (length mmds) (fun i a =>
    let delta := (mmds !!! i - sn_statistic a !!! j)%F in
    {| sn_statistic :=
         <[j := (sn_statistic a !!! j
                 + delta / of_index (sn_term_counters a !!! j))%F]>
           (sn_statistic a);
       sn_term_counters :=
         <[j := index_succ (sn_term_counters a !!! j)]> (sn_term_counters a) |}) a.

(** [for (auto j=0; j<num_null_samples; ++j) { compute_jobs(cm);
    mmds=cm.result(0); ... }] *)
Definition sn_replicates (s : Self) (cm : ComputationManager) (a : SNAcc)
  (g : Rng) : SNAcc * Rng :=
  for_index (Z.to_nat (num_null_samples s)) (fun j st =>
    let '(cm2, g1) := compute_jobs s cm (snd st) in
    (sn_fold j (result cm2 0) (fst st), g1)) (a, g).

Definition sn_burst (s : Self) (cm : ComputationManager) (kernel : Kernel)
  (next_burst : Burst) (a : SNAcc) : M SNAcc :=
  let blocks := merge_samples next_burst in
  do cm1 <~ lift (compute_kernel cm blocks kernel) in
  draw (sn_replicates s cm1 a).

Definition sample_null (m : CMMD) : Result (list F) * CMMD :=
  match kernel_at (kernel_manager m) 0 with
  | None => (Throw Kernel_is_not_set, m)
  | Some kernel =>
      let s := self m in
      match sn_init (num_null_samples s) with
      | Throw e => (Throw e, m)
      | Ok a0 =>
          let '(_, permutation_job) :=
            create_statistic_job s (data_manager m) in
          let cm := enqueue_job new_cm permutation_job in
          let dm := dm_start (data_manager m) in
          let '(r, pending, g) :=
            while_next (sn_burst s cm kernel) (dm_pending dm) a0 (sg_rand m) in
          let dm1 := dm_with_pending dm pending in
          match r with
          | Throw e =>
              (Throw e,
               {| self := s; data_manager := dm1;
                  kernel_manager := kernel_manager m; sg_rand := g |})
          | Ok a =>
              (Ok (for_each_by_reference normalize_statistic (sn_statistic a)),
               {| self := s; data_manager := dm_end dm1;
                  kernel_manager := kernel_manager m; sg_rand := g |})
          end
      end
  end.

(* ================================================================== *)
(** ** [CMMD::Self::compute_distance] and [CMMD::select_kernel] *)

(** The message of the error raised when [init] fails. *)
Definition Computing_distance_matrix_not_possible : String.string :=
  "Computing distance matrix was not possible! Please contact Shogun developers."%string.

(** An error raised inside the [try] block, the failed [init] included, is
    caught and raised again as "Data is too large"; on every error path the
    final [set_blockwise(blockwise)] is skipped. *)
Definition compute_distance (m : CMMD) : Result Distance * CMMD :=
  let dm := data_manager m in
  let blockwise := dm_blockwise dm in
  let dm1 := dm_start (dm_set_blockwise dm false) in
  let '(samples, dm2) := dm_next dm1 in
  match samples with
  | (samples_p, samples_q) :: _ =>
      let dm3 := dm_end dm2 in
      match euclidean_distance (create_merged_copy samples_p samples_q) with
      | inr (Some distance) =>
          (Ok distance, with_data_manager m (dm_set_blockwise dm3 blockwise))
      | inr None =>
          (Throw (Data_is_too_large Computing_distance_matrix_not_possible),
           with_data_manager m dm3)
      | inl what =>
          (Throw (Data_is_too_large what), with_data_manager m dm3)
      end
  | [] => (Throw Could_not_fetch_samples, with_data_manager m (dm_end dm2))
  end.

(** The selection policies, by the arguments their constructors copy; the
    kernel set and the estimator they are handed by reference are the
    engine state their [select_kernel] runs on. *)
Inductive KernelSelection :=
| MedianHeuristic (distance : Distance)
| MaxXValidation (num_run : index_t) (alpha : F)
| WeightedMaxMeasure
| MaxMeasure
| WeightedMaxTestPower
| MaxTestPower.

Section Selection.
(** [policy->select_kernel()]: defined by the policy classes. *)
Variable policy_select_kernel : KernelSelection -> CMMD -> Result Kernel * CMMD.

Definition select_kernel (kmethod : EKernelSelectionMethod)
  (weighted_kernel : bool) (train_test_ratio : F) (num_run : index_t)
  (alpha : F) (m : CMMD) : Result unit * CMMD :=
  let dm := dm_set_train_mode
              (dm_set_train_test_ratio (data_manager m) train_test_ratio)
              true in
  let m1 := with_data_manager m dm in
  let '(policy, m2) :=
    match kmethod with
    | KSM_MEDIAN_HEURISTIC =>
        if weighted_kernel
        then (Throw (Weighted_not_possible KSM_MEDIAN_HEURISTIC), m1)
        else match compute_distance m1 with
             | (Throw e, m') => (Throw e, m')
             | (Ok distance, m') =>
                 (Ok (MedianHeuristic distance),
                  with_data_manager m'
                    (dm_reset
                       (dm_set_train_test_ratio (data_manager m') fzero)))
             end
    | KSM_MAXIMIZE_XVALIDATION =>
        if weighted_kernel
        then (Throw (Weighted_not_possible KSM_MAXIMIZE_XVALIDATION), m1)
        else (Ok (MaxXValidation num_run alpha), m1)
    | KSM_MAXIMIZE_MMD =>
        (Ok (if weighted_kernel then WeightedMaxMeasure else MaxMeasure), m1)
    | KSM_MAXIMIZE_POWER =>
        (Ok (if weighted_kernel then WeightedMaxTestPower else MaxTestPower),
         m1)
    | KSM_OTHER => (Throw Unsupported_selection_method, m1)
    end in
  (* every branch that gets here has built a policy: ASSERT(policy!=nullptr)
     holds *)
  match policy with
  | Throw e => (Throw e, m2)
  | Ok policy =>
      match policy_select_kernel policy m2 with
      | (Throw e, m3) => (Throw e, m3)
      | (Ok kernel, m3) =>
          let km := restore_kernel_at
                      (set_kernel_at (kernel_manager m3) 0 kernel) 0 in
          (Ok tt,
           with_data_manager (with_kernel_manager m3 km)
             (dm_set_train_mode (data_manager m3) false))
      end
  end.

End Selection.

(* ================================================================== *)
(** ** The public methods of [CMMD] *)

Definition add_kernel (m : CMMD) (kernel : Kernel) : CMMD :=
  let s := self m in
  with_self m
    {| use_gpu := use_gpu s; num_null_samples := num_null_samples s;
       statistic_type := statistic_type s;
       variance_estimation_method := variance_estimation_method s;
       null_approximation_method := null_approximation_method s;
       kernel_selection_mgr := kernel_selection_mgr s ++ [kernel] |}.

Definition compute_statistic (m : CMMD) : Result F * CMMD :=
  match compute_statistic_variance m with
  | (Ok p, m') => (Ok (fst p), m')
  | (Throw e, m') => (Throw e, m')
  end.

Definition compute_variance (m : CMMD) : Result F * CMMD :=
  match compute_statistic_variance m with
  | (Ok p, m') => (Ok (snd p), m')
  | (Throw e, m') => (Throw e, m')
  end.

Definition set_num_null_samples (m : CMMD) (null_samples : index_t) : CMMD :=
  let s := self m in
  with_self m
    {| use_gpu := use_gpu s; num_null_samples := null_samples;
       statistic_type := statistic_type s;
       variance_estimation_method := variance_estimation_method s;
       null_approximation_method := null_approximation_method s;
       kernel_selection_mgr := kernel_selection_mgr s |}.

Definition get_num_null_samples (m : CMMD) : index_t :=
  num_null_samples (self m).

(** [void CMMD::use_gpu(bool)] and [bool CMMD::use_gpu() const] *)
Definition set_use_gpu (m : CMMD) (gpu : bool) : CMMD :=
  let s := self m in
  with_self m
    {| use_gpu := gpu; num_null_samples := num_null_samples s;
       statistic_type := statistic_type s;
       variance_estimation_method := variance_estimation_method s;
       null_approximation_method := null_approximation_method s;
       kernel_selection_mgr := kernel_selection_mgr s |}.

Definition get_use_gpu (m : CMMD) : bool := use_gpu (self m).

Definition set_statistic_type (m : CMMD) (stype : EStatisticType) : CMMD :=
  let s := self m in
  with_self m
    {| use_gpu := use_gpu s; num_null_samples := num_null_samples s;
       statistic_type := stype;
       variance_estimation_method := variance_estimation_method s;
       null_approximation_method := null_approximation_method s;
       kernel_selection_mgr := kernel_selection_mgr s |}.

Definition get_statistic_type (m : CMMD) : EStatisticType :=
  statistic_type (self m).

Definition set_variance_estimation_method (m : CMMD)
  (vmethod : EVarianceEstimationMethod) : CMMD :=
  let s := self m in
  with_self m
    {| use_gpu := use_gpu s; num_null_samples := num_null_samples s;
       statistic_type := statistic_type s;
       variance_estimation_method := vmethod;
       null_approximation_method := null_approximation_method s;
       kernel_selection_mgr := kernel_selection_mgr s |}.

Definition get_variance_estimation_method (m : CMMD)
  : EVarianceEstimationMethod := variance_estimation_method (self m).

Definition set_null_approximation_method (m : CMMD)
  (nmethod : ENullApproximationMethod) : CMMD :=
  let s := self m in
  with_self m
    {| use_gpu := use_gpu s; num_null_samples := num_null_samples s;
       statistic_type := statistic_type s;
       variance_estimation_method := variance_estimation_method s;
       null_approximation_method := nmethod;
       kernel_selection_mgr := kernel_selection_mgr s |}.

Definition get_null_approximation_method (m : CMMD)
  : ENullApproximationMethod := null_approximation_method (self m).

(** [for (i<num_kernels) restore_kernel_at(i)] *)
Definition cleanup (m : CMMD) : CMMD :=
  with_kernel_manager m
    (for_index (length (kernel_manager m))
       (fun i km => restore_kernel_at km i) (kernel_manager m)).

Definition get_name : String.string := "MMD"%string.

(** A call of one of the five setters. *)
Inductive SetterCall :=
| Call_set_num_null_samples (null_samples : index_t)
| Call_use_gpu (gpu : bool)
| Call_set_statistic_type (stype : EStatisticType)
| Call_set_variance_estimation_method (vmethod : EVarianceEstimationMethod)
| Call_set_null_approximation_method (nmethod : ENullApproximationMethod).

Definition call_setter (m : CMMD) (c : SetterCall) : CMMD :=
  match c with
  | Call_set_num_null_samples n => set_num_null_samples m n
  | Call_use_gpu b => set_use_gpu m b
  | Call_set_statistic_type t => set_statistic_type m t
  | Call_set_variance_estimation_method v => set_variance_estimation_method m v
  | Call_set_null_approximation_method n => set_null_approximation_method m n
  end.

End Engine.

(* ================================================================== *)
(** ** The specification side *)

Section Specification.
Context {F : Type} `{SF : Scalar F} `{CF : Collaborators F}.

(** The Online Accumulator as the specification words it:
    [mean_n = mean_{n-1} + (value - mean_{n-1})/n], the counter starting at
    1 and incremented after each update. *)
Definition online_update (acc : F * Z) (value : F) : F * Z :=
  ((fst acc + (value - fst acc) / of_index (snd acc))%F, (snd acc + 1)%Z).

Definition online_mean (values : list F) : F :=
  fst (fold_left online_update values (fzero, 1%Z)).

(** The one-pass streaming variance as the specification words it: the
    mean of the value is updated first, then the accumulator grows by
    [(v - old_mean) * (v - updated_mean)]. *)
Definition one_pass_update (acc : F * F * Z) (v : F) : F * F * Z :=
  let '(mean, variance, n) := acc in
  let updated_mean := (mean + (v - mean) / of_index n)%F in
  (updated_mean, (variance + (v - mean) * (v - updated_mean))%F, (n + 1)%Z).

Definition one_pass_variance (values : list F) : F :=
  snd (fst (fold_left one_pass_update values (fzero, fzero, 1%Z))).

(** The accumulator as the source has it: the counter is an [index_t]. *)
Definition wrap_update (acc : F * index_t) (value : F) : F * index_t :=
  ((fst acc + (value - fst acc) / of_index (snd acc))%F, index_succ (snd acc)).

Definition one_pass_wrap_update (acc : F * F * index_t) (v : F)
  : F * F * index_t :=
  let '(mean, variance, n) := acc in
  let updated_mean := (mean + (v - mean) / of_index n)%F in
  (updated_mean, (variance + (v - mean) * (v - updated_mean))%F, index_succ n).

(** The largest [index_t]. *)
Definition index_max : Z := (2 ^ 31 - 1)%Z.

(** The bursts a burst loop gets to see: those before the first empty one,
    and what the data manager is left with afterwards. *)
Fixpoint delivered (pending : list Burst) : list Burst :=
  match pending with
  | [] => []
  | b :: rest => if burst_empty b then [] else b :: delivered rest
  end.

Fixpoint undelivered (pending : list Burst) : list Burst :=
  match pending with
  | [] => []
  | b :: rest => if burst_empty b then rest else undelivered rest
  end.

(** All merged blocks of a pass, in stream order. *)
Definition stream_blocks (pending : list Burst) : list Features :=
  concat (map merge_samples (delivered pending)).

(** [gram] computes the kernel matrix of every block of the pass. *)
Definition kernel_computes (kernel : Kernel) (gram : Features -> KMatrix)
  (pending : list Burst) : Prop :=
  Forall (fun block => get_kernel_matrix kernel block = inr (gram block))
    (stream_blocks pending).

(** Every kernel of a set is a genuine kernel whose matrices [gram]
    computes on every block of the pass. *)
Definition kernels_compute (kernels : list Kernel)
  (gram : Kernel -> Features -> KMatrix) (pending : list Burst) : Prop :=
  Forall (fun kernel =>
            is_custom kernel = false
            /\ kernel_computes kernel (gram kernel) pending) kernels.

(** Every burst of the pass has an even number of blocks. *)
Definition even_bursts (pending : list Burst) : Prop :=
  Forall (fun b => Nat.even (num_blocks b) = true) (delivered pending).

(** What a burst loop is handed burst after burst, when [produce] is what
    the executor returns on one burst. *)
Fixpoint per_burst {R} (produce : Burst -> Rng -> R * Rng)
  (bursts : list Burst) (g : Rng) : list R * Rng :=
  match bursts with
  | [] => ([], g)
  | b :: rest =>
      let '(r, g1) := produce b g in
      let '(more, g2) := per_burst produce rest g1 in
      (r :: more, g2)
  end.

(** With [jobs] enqueued: per burst, per block, one scalar per job. *)
Definition burst_results (gpu : bool) (jobs : list Job)
  (gram : Features -> KMatrix) (bursts : list Burst) (g : Rng)
  : list (list (list F)) * Rng :=
  per_burst (fun b => run_blocks gpu jobs (map gram (merge_samples b)))
    bursts g.

(** The scalars job [j] produced over the whole pass, in stream order. *)
Definition job_scalars (j : nat) (results : list (list (list F))) : list F :=
  concat (map (map (fun row : list F => row !!! j)) results).

(** The same when one job is evaluated for every kernel of a set, kernel
    after kernel within a burst: per burst, per kernel, one scalar per
    block. *)
Fixpoint kernels_results (gpu : bool) (job : Job)
  (gram : Kernel -> Features -> KMatrix) (kernels : list Kernel)
  (blocks : list Features) (g : Rng) : list (list F) * Rng :=
  match kernels with
  | [] => ([], g)
  | kernel :: rest =>
      let '(rows, g1) := run_blocks gpu [job] (map (gram kernel) blocks) g in
      let '(more, g2) := kernels_results gpu job gram rest blocks g1 in
      (map (fun row : list F => row !!! 0%nat) rows :: more, g2)
  end.

Definition multi_kernel_results (gpu : bool) (job : Job)
  (gram : Kernel -> Features -> KMatrix) (kernels : list Kernel)
  (bursts : list Burst) (g : Rng) : list (list (list F)) * Rng :=
  per_burst (fun b => kernels_results gpu job gram kernels (merge_samples b))
    bursts g.

(** The scalars of kernel [k] over the whole pass. *)
Definition kernel_scalars (k : nat) (results : list (list (list F))) : list F :=
  concat (map (fun mmds : list (list F) => mmds !!! k) results).

(** Adjacent block pairs (2k, 2k+1) and their differences. *)
Fixpoint adjacent_pairs {A} (xs : list A) : list (A * A) :=
  match xs with
  | x :: y :: rest => (x, y) :: adjacent_pairs rest
  | _ => []
  end.

Definition pair_differences (mmd : list F) : list F :=
  map (fun xy => fsub32 (fst xy) (snd xy)) (adjacent_pairs mmd).

(** The products [(mmd_i[2k]-mmd_i[2k+1]) * (mmd_j[2k]-mmd_j[2k+1])] over
    all adjacent block pairs of all bursts. *)
Definition Q_terms (i j : nat) (results : list (list (list F))) : list F :=
  concat (map (fun mmds : list (list F) =>
                 zip_with fmul32 (pair_differences (mmds !!! i))
                                 (pair_differences (mmds !!! j)))
              results).

(** The same when one job is evaluated [replicates] times on the blocks of
    every burst: per burst, per replicate, one scalar per block. *)
Fixpoint replicate_results (gpu : bool) (job : Job) (data : list KMatrix)
  (replicates : nat) (g : Rng) : list (list F) * Rng :=
  match replicates with
  | O => ([], g)
  | S n =>
      let '(rows, g1) := run_blocks gpu [job] data g in
      let '(more, g2) := replicate_results gpu job data n g1 in
      (map (fun row : list F => row !!! 0%nat) rows :: more, g2)
  end.

Definition null_results (gpu : bool) (job : Job) (gram : Features -> KMatrix)
  (replicates : nat) (bursts : list Burst) (g : Rng)
  : list (list (list F)) * Rng :=
  per_burst
    (fun b => replicate_results gpu job (map gram (merge_samples b)) replicates)
    bursts g.

(** The scalars of replicate [j] over the whole pass. *)
Definition replicate_scalars (j : nat) (results : list (list (list F)))
  : list F :=
  concat (map (fun mmds : list (list F) => mmds !!! j) results).

(** What the two jobs of [compute_statistic_variance] return over the pass
    the engine [m] is about to make. *)
Definition sv_results (m : CMMD) (gram : Features -> KMatrix)
  : list (list (list F)) :=
  let s := self m in
  let jobs := create_computation_jobs s (data_manager m) in
  fst (burst_results (use_gpu s) [statistic_job jobs; variance_job jobs] gram
         (delivered (dm_pending (data_manager m))) (sg_rand m)).

Definition statistic_scalars (m : CMMD) (gram : Features -> KMatrix) : list F :=
  job_scalars 0 (sv_results m gram).

Definition variance_scalars (m : CMMD) (gram : Features -> KMatrix) : list F :=
  job_scalars 1 (sv_results m gram).

(** The pure counterpart of [for_each_indexed]. *)
Fixpoint fold_indexed {A St} (f : nat -> A -> St -> St) (k : nat)
  (xs : list A) (s : St) : St :=
  match xs with
  | [] => s
  | x :: rest => fold_indexed f (S k) rest (f k x s)
  end.

(** One accumulator of a vector of accumulators, updated in place. *)
Definition vec_update (j : nat) (v : list F * list index_t) (x : F)
  : list F * list index_t :=
  let r := wrap_update (fst v !!! j, snd v !!! j) x in
  (<[j := fst r]> (fst v), <[j := snd r]> (snd v)).

(** The accumulators of [compute_statistic_and_Q] are sized for
    [n] kernels. *)
Definition sq_wf (n : nat) (a : QAcc (F:=F)) : Prop :=
  length (sq_statistic a) = n
  /\ length (sq_term_counters_statistic a) = n
  /\ length (sq_mmds a) = n
  /\ mat_wf n (sq_Q a)
  /\ mat_wf n (sq_term_counters_Q a).

Definition sq_with_vectors (a : QAcc) (v : list F * list index_t) : QAcc :=
  {| sq_statistic := fst v; sq_Q := sq_Q a;
     sq_term_counters_statistic := snd v;
     sq_term_counters_Q := sq_term_counters_Q a;
     sq_mmds := sq_mmds a |}.

(** What kernel [k] contributes in one burst, from the scalars [mmd] the
    statistic job returned for it. *)
Definition sq_consume_kernel (num_blocks k : nat) (mmd : list F) (a : QAcc)
  : QAcc :=
  sq_fold_statistic k num_blocks
    {| sq_statistic := sq_statistic a; sq_Q := sq_Q a;
       sq_term_counters_statistic := sq_term_counters_statistic a;
       sq_term_counters_Q := sq_term_counters_Q a;
       sq_mmds := <[k := mmd]> (sq_mmds a) |}.

(** The accumulator update of one burst in [compute_statistic_and_Q], from
    the scalars of every kernel; the block count is the length of any of
    them. *)
Definition sq_step (num_kernels : nat) (mmds : list (list F)) (a : QAcc)
  : QAcc :=
  let num_blocks := length (mmds !!! 0%nat) in
  sq_fold_Q num_kernels num_blocks
    (fold_indexed (sq_consume_kernel num_blocks) 0 mmds a).

(** The scalars of one burst: one sequence per kernel, all of the same
    even length. *)
Definition burst_wf (n : nat) (mmds : list (list F)) : Prop :=
  length mmds = n
  /\ Nat.even (length (mmds !!! 0%nat)) = true
  /\ Forall (fun mmd : list F => length mmd = length (mmds !!! 0%nat)) mmds.

(** The product terms of cell [(i,j)] in one burst as the pair loop reads
    them. *)
Definition pair_terms_at (mmds : list (list F)) (num_blocks i j : nat)
  : list F :=
  map (fun k =>
         fmul32 (fsub32 ((mmds !!! i) !!! k) ((mmds !!! i) !!! (k + 1)%nat))
                (fsub32 ((mmds !!! j) !!! k) ((mmds !!! j) !!! (k + 1)%nat)))
      (pair_starts num_blocks).

(** The accumulator of cell [(i,j)] after the pair loop of one burst. *)
Definition sq_cell_result (a : QAcc) (num_blocks i j : nat) : F * index_t :=
  fold_left wrap_update (pair_terms_at (sq_mmds a) num_blocks i j)
    (mat_get (sq_Q a) i j, mat_get (sq_term_counters_Q a) i j).

(** What the statistic job returns for every kernel over the pass the
    engine [m] is about to make. *)
Definition mk_results (m : CMMD) (gram : Kernel -> Features -> KMatrix)
  : list (list (list F)) :=
  let s := self m in
  let jobs := create_computation_jobs s (data_manager m) in
  fst (multi_kernel_results (use_gpu s) (statistic_job jobs) gram
         (kernel_selection_mgr s)
         (delivered (dm_pending (data_manager m))) (sg_rand m)).

(** What the permutation job returns, replicate after replicate, over the
    pass the engine [m] is about to make in [sample_null]. *)
Definition sn_results (m : CMMD) (gram : Features -> KMatrix)
  : list (list (list F)) :=
  let s := self m in
  fst (null_results (use_gpu s) (snd (create_statistic_job s (data_manager m)))
         gram (Z.to_nat (num_null_samples s))
         (delivered (dm_pending (data_manager m))) (sg_rand m)).

(** The block pairs of a pass as the data manager hands them out, burst
    after burst, and their number: the sum of the bursts' [num_blocks]. *)
Definition stream_pairs (pending : list Burst) : list (Features * Features) :=
  concat (delivered pending).

Definition total_blocks (pending : list Burst) : nat :=
  list_sum (map num_blocks (delivered pending)).

(** The kernel matrix of a pair of blocks: that of the merged copy of the
    two, as [gram] gives it. *)
Definition pair_matrix (gram : Features -> KMatrix)
  (pq : Features * Features) : KMatrix :=
  gram (create_merged_copy (fst pq) (snd pq)).

(** What the permutation job returns during [sample_null], read off the
    bursts: per burst, per replicate, one scalar per block pair of the
    burst.  The generator runs through the blocks of a replicate, then the
    replicates of a burst, then the bursts. *)
Definition permutation_results (m : CMMD) (gram : Features -> KMatrix)
  : list (list (list F)) :=
  let s := self m in
  let dm := data_manager m in
  let job := WithinBlockPermutation (dm_blocksize dm 0%nat)
               (dm_blocksize dm 1%nat) (statistic_type s) in
  fst (per_burst
         (fun b => replicate_results (use_gpu s) job (map (pair_matrix gram) b)
                     (Z.to_nat (num_null_samples s)))
         (delivered (dm_pending dm)) (sg_rand m)).

(** The accumulator update of one burst in [sample_null], from the scalars
    of every replicate. *)
Definition sn_step (mmds : list (list F)) (a : SNAcc) : SNAcc :=
  fold_indexed sn_fold 0 mmds a.

Definition sn_wf (replicates : nat) (a : SNAcc (F:=F)) : Prop :=
  length (sn_statistic a) = replicates
  /\ length (sn_term_counters a) = replicates.

(** The accumulator update of one burst in [compute_statistic_variance],
    from the rows the executor returned. *)
Definition sv_step (s : Self) (rows : list (list F)) (a : SVAcc) : SVAcc :=
  let mmds := map (fun row : list F => row !!! 0%nat) rows in
  let vars := map (fun row : list F => row !!! 1%nat) rows in
  let a1 := sv_fold_statistic mmds a in
  match variance_estimation_method s with
  | VEM_DIRECT => sv_fold_variance_direct mmds vars a1
  | VEM_PERMUTATION => sv_fold_variance_permutation vars a1
  end.

(** The engine [m'] differs from [m] at most in the position and the
    started flag of its stream and in the state of its generator. *)
Definition same_configuration (m m' : CMMD) : Prop :=
  self m' = self m
  /\ kernel_manager m' = kernel_manager m
  /\ dm_source (data_manager m') = dm_source (data_manager m)
  /\ dm_train_mode (data_manager m') = dm_train_mode (data_manager m)
  /\ dm_train_test_ratio (data_manager m')
     = dm_train_test_ratio (data_manager m)
  /\ dm_blockwise (data_manager m') = dm_blockwise (data_manager m)
  /\ dm_blocksize (data_manager m') = dm_blocksize (data_manager m).

(** How a pass over the stream of [m] that returned [r] left the stream:
    ended and past the first empty burst when it returned a value, still
    started and past the burst it failed on when it raised. *)
Definition pass_outcome {A} (m : CMMD) (r : Result A * CMMD) : Prop :=
  match fst r with
  | Ok _ =>
      dm_started (data_manager (snd r)) = false
      /\ dm_pending (data_manager (snd r))
         = undelivered (dm_pending (data_manager m))
  | Throw _ =>
      dm_started (data_manager (snd r)) = true
      /\ exists consumed b,
           burst_empty b = false
           /\ Forall (fun b' => burst_empty b' = false) consumed
           /\ dm_pending (data_manager m)
              = consumed ++ b :: dm_pending (data_manager (snd r))
  end.

(** Which setter a call is, and with what argument. *)
Definition pick_num_null_samples (c : SetterCall) : option index_t :=
  match c with Call_set_num_null_samples n => Some n | _ => None end.

Definition pick_use_gpu (c : SetterCall) : option bool :=
  match c with Call_use_gpu b => Some b | _ => None end.

Definition pick_statistic_type (c : SetterCall) : option EStatisticType :=
  match c with Call_set_statistic_type t => Some t | _ => None end.

Definition pick_variance_estimation_method (c : SetterCall)
  : option EVarianceEstimationMethod :=
  match c with Call_set_variance_estimation_method v => Some v | _ => None end.

Definition pick_null_approximation_method (c : SetterCall)
  : option ENullApproximationMethod :=
  match c with Call_set_null_approximation_method n => Some n | _ => None end.

(** [last_set pick calls d]: the argument of the last call [pick] selects,
    [d] when there is none. *)
Definition last_set {A} (pick : SetterCall -> option A)
  (calls : list SetterCall) (d : A) : A :=
  List.last (omap pick calls) d.

End Specification.

(** The arithmetic mean of a sequence of exact rationals. *)
Definition Qc_sum (values : list Qc) : Qc := fold_right Qcplus 0%Qc values.

Definition arithmetic_mean (values : list Qc) : Qc :=
  (Qc_sum values / Qc_of_Z (Z.of_nat (length values)))%Qc.

(** The sum of the squared deviations from the arithmetic mean: the
    numerator of the two-pass variance. *)
Definition squared_deviations (values : list Qc) : Qc :=
  Qc_sum (map (fun v => ((v - arithmetic_mean values)
                         * (v - arithmetic_mean values))%Qc) values).

(** The rational a finite binary64 number stands for; infinities and NaN
    stand for none and are given zero. *)
Definition float_value (x : float) : Qc :=
  match FloatOps.Prim2SF x with
  | SpecFloat.S754_finite s m e =>
      Q2Qc (inject_Z (if s then Z.neg m else Z.pos m) * Qpower (inject_Z 2) e)
  | _ => Q2Qc 0
  end.

(** [computed] is within the relative tolerance [tolerance] of [exact]. *)
Definition within_tolerance (tolerance computed exact : Qc) : Prop :=
  (Qcabs.Qcabs (computed - exact) <= tolerance * Qcabs.Qcabs exact)%Qc.

(** The sum of [f i j] over all [i], [j] below [n], and the quadratic form
    of a matrix on the weights [w]: the objective the weighted selection
    policies minimise over [Q]. *)
Definition double_sum (n : nat) (f : nat -> nat -> Qc) : Qc :=
  Qc_sum (map (fun i => Qc_sum (map (f i) (seq 0 n))) (seq 0 n)).

Definition quadratic_form (n : nat) (w : nat -> Qc) (Q : SGMatrix Qc) : Qc :=
  double_sum n (fun i j => (w i * w j * mat_get Q i j)%Qc).

(** The statistic accumulator of [compute_statistic_variance] after the
    bursts of scalars [bursts], from its initial value. *)
Definition sv_mean_of_bursts {F} `{Scalar F} (bursts : list (list F)) : F :=
  sv_statistic (fold_left (fun a mmds => sv_fold_statistic mmds a) bursts sv_init).

(* ================================================================== *)
(** ** A small concrete toolbox *)

(** Collaborators over binary64 on which the engine can be run: a feature
    block is one number, merging subtracts, a Gaussian kernel of width [w]
    scales the merged block, the generator state is a number the
    permutation job mixes into its result and advances. *)
Module Toy.

Inductive ToyKernel :=
| Gaussian (width : float)
| Custom.

Inductive ToyJob :=
| Statistic (Bx : index_t)
| Permutation (Bx By : index_t) (stype : EStatisticType)
| Direct.

Definition toy_run_job (gpu : bool) (job : ToyJob) (d : float) (g : float)
  : float * float :=
  match job with
  | Statistic _ => (d, g)
  | Permutation _ _ _ => ((d * g)%float, (g + 1)%float)
  | Direct => ((d * d)%float, g)
  end.

Definition toy_gram (kernel : ToyKernel) (block : float) : float :=
  match kernel with
  | Gaussian width => (width * block)%float
  | Custom => block
  end.

#[global] Instance toolbox : Collaborators float := {
  Features := float;
  Kernel := ToyKernel;
  KMatrix := float;
  Distance := float;
  Rng := float;
  Job := ToyJob;
  create_merged_copy := PrimFloat.sub;
  is_custom := fun kernel =>
    match kernel with Custom => true | Gaussian _ => false end;
  get_kernel_matrix := fun kernel block => inr (toy_gram kernel block);
  UnbiasedFull := Statistic;
  UnbiasedIncomplete := Statistic;
  BiasedFull := Statistic;
  WithinBlockPermutation := Permutation;
  get_direct_estimation_method := Direct;
  run_job := toy_run_job;
  normalize_statistic := fun x => (2 * x)%float;
  normalize_variance := fun x => (4 * x)%float;
  euclidean_distance := fun samples => inr (Some samples)
}.

(** A policy that picks the first kernel of the selection set and leaves
    the engine as it found it. *)
Definition first_kernel (policy : KernelSelection) (m : CMMD)
  : Result Kernel * CMMD :=
  match kernel_selection_mgr (self m) with
  | kernel :: _ => (Ok kernel, m)
  | [] => (Throw (Raised_by_policy "no kernel to select from"%string), m)
  end.

(** Two bursts of two blocks each. *)
Definition stream : list Burst :=
  [[(3, 1); (7, 1)]; [(5, 2); (13, 2)]]%float.

Definition data (pending : list Burst) : DataManager :=
  {| dm_source := pending; dm_pending := pending; dm_started := false;
     dm_train_mode := false; dm_train_test_ratio := 0%float;
     dm_blockwise := true; dm_blocksize := fun _ => 1%Z |}.

(** A fresh engine on [pending] with [kernel] bound and added to the
    selection set. *)
Definition engine (pending : list Burst) (kernel : ToyKernel) : CMMD :=
  add_kernel (CMMD_new (data pending) [Some kernel] 1%float) kernel.

End Toy.



(** Collaborators over the exact rationals, with the failures the toolbox
    can report: a merged block above [capacity] cannot be turned into a
    kernel matrix or a distance matrix, and the distance of a zero block
    cannot be initialised. *)
Module Exact.

Inductive ExactKernel :=
| Linear (scale : Qc)
| Precomputed.

Inductive ExactJob :=
| Statistic (Bx : index_t)
| Permutation (Bx By : index_t) (stype : EStatisticType)
| Direct.

Definition exact_run_job (gpu : bool) (job : ExactJob) (d : Qc) (g : Qc)
  : Qc * Qc :=
  match job with
  | Statistic _ => (d, g)
  | Permutation _ _ _ => (Qcmult d g, Qcplus g (Qc_of_Z 1))
  | Direct => (Qcmult d d, g)
  end.

Definition capacity : Qc := Qc_of_Z 100.

Definition exact_gram (kernel : ExactKernel) (block : Qc) : Qc :=
  match kernel with
  | Linear scale => Qcmult scale block
  | Precomputed => block
  end.

Definition exact_kernel_matrix (kernel : ExactKernel) (block : Qc)
  : String.string + Qc :=
  if Qle_bool block capacity then inr (exact_gram kernel block)
  else inl "out of memory"%string.

Definition exact_distance (samples : Qc) : String.string + option Qc :=
  if Qle_bool samples capacity
  then inr (if Qeq_bool samples (Qc_of_Z 0) then None else Some samples)
  else inl "out of memory"%string.

#[global] Instance toolbox : Collaborators Qc | 100 := {
  Features := Qc;
  Kernel := ExactKernel;
  KMatrix := Qc;
  Distance := Qc;
  Rng := Qc;
  Job := ExactJob;
  create_merged_copy := Qcminus;
  is_custom := fun kernel =>
    match kernel with Precomputed => true | Linear _ => false end;
  get_kernel_matrix := exact_kernel_matrix;
  UnbiasedFull := Statistic;
  UnbiasedIncomplete := Statistic;
  BiasedFull := Statistic;
  WithinBlockPermutation := Permutation;
  get_direct_estimation_method := Direct;
  run_job := exact_run_job;
  normalize_statistic := fun x => Qcmult (Qc_of_Z 2) x;
  normalize_variance := fun x => Qcmult (Qc_of_Z 4) x;
  euclidean_distance := exact_distance
}.

(** A block whose two samples are the integers [p] and [q]. *)
Definition block (p q : Z) : Qc * Qc := (Qc_of_Z p, Qc_of_Z q).

(** Two bursts of two blocks each. *)
Definition stream : list (Burst (CF:=toolbox)) :=
  [[block 3 1; block 7 1]; [block 5 2; block 13 2]].

(** A stream whose second burst holds a block above [capacity]. *)
Definition oversized : list (Burst (CF:=toolbox)) :=
  [[block 3 1; block 7 1]; [block 500 2; block 13 2]].

Definition data (pending : list (Burst (CF:=toolbox)))
  : DataManager (CF:=toolbox) :=
  {| dm_source := pending; dm_pending := pending; dm_started := false;
     dm_train_mode := false; dm_train_test_ratio := Qc_of_Z 0;
     dm_blockwise := true; dm_blocksize := fun _ => 1%Z |}.

(** A fresh engine on [pending] with [kernel] bound and added to the
    selection set. *)
Definition engine (pending : list (Burst (CF:=toolbox)))
  (kernel : ExactKernel) : CMMD (CF:=toolbox) :=
  add_kernel (CMMD_new (data pending) [Some kernel] (Qc_of_Z 1)) kernel.

(** A policy that picks the first kernel of the selection set and leaves
    the engine as it found it. *)
Definition first_kernel (policy : KernelSelection (CF:=toolbox))
  (m : CMMD (CF:=toolbox)) : Result ExactKernel * CMMD (CF:=toolbox) :=
  match kernel_selection_mgr (self m) with
  | kernel :: _ => (Ok kernel, m)
  | [] => (Throw (Raised_by_policy "no kernel to select from"%string), m)
  end.

End Exact.
(* ================================================================== *)
(** ** Loops and counters *)

Section Loops.
Context {A St : Type} `{Inhabited A}.

Lemma lookup_total_middle (pre : list A) (x : A) (post : list A) :
  (pre ++ x :: post) !!! length pre = x.
Proof.
  rewrite list_lookup_total_alt, list_lookup_middle; reflexivity.
Qed.

Lemma fold_seq_lookup (f : A -> St -> St) (l pre : list A) (s : St) :
  fold_left (fun a i => f ((pre ++ l) !!! i) a) (seq (length pre) (length l)) s
  = fold_left (fun a x => f x a) l s.
Proof.
  revert pre s. induction l as [|x l IH]; intros pre s; simpl.
  - reflexivity.
  - rewrite lookup_total_middle.
    specialize (IH (pre ++ [x]) (f x s)).
    rewrite length_app in IH. simpl in IH.
    rewrite Nat.add_1_r, <- app_assoc in IH. exact IH.
Qed.

(** An index loop that reads [l[i]] is the fold over [l]. *)
Lemma for_index_lookup (f : A -> St -> St) (l : list A) (s : St) :
  for_index (length l) (fun i a => f (l !!! i) a) s
  = fold_left (fun a x => f x a) l s.
Proof. exact (fold_seq_lookup f l [] s). Qed.

End Loops.

Lemma index_succ_in_range (c : Z) :
  (0 <= c < index_max)%Z -> index_succ c = (c + 1)%Z.
Proof.
  unfold index_succ, index_wrap, index_max. intros Hc.
  rewrite Z.mod_small; lia.
Qed.

Section Accumulators.
Context {F : Type} `{SF : Scalar F}.

Lemma wrap_update_fold (values : list F) (x : F) (c : Z) :
  (0 <= c)%Z -> (c + Z.of_nat (length values) <= index_max)%Z ->
  fold_left wrap_update values (x, c) = fold_left online_update values (x, c).
Proof.
  revert x c. induction values as [|v values IH]; intros x c Hc Hlen.
  - reflexivity.
  - simpl in *. unfold wrap_update at 2, online_update at 2. simpl.
    rewrite index_succ_in_range by lia. apply IH; lia.
Qed.

Lemma one_pass_wrap_update_fold (values : list F) (x y : F) (c : Z) :
  (0 <= c)%Z -> (c + Z.of_nat (length values) <= index_max)%Z ->
  fold_left one_pass_wrap_update values (x, y, c)
  = fold_left one_pass_update values (x, y, c).
Proof.
  revert x y c. induction values as [|v values IH]; intros x y c Hc Hlen.
  - reflexivity.
  - simpl in *. rewrite index_succ_in_range by lia. apply IH; lia.
Qed.

Lemma online_update_fold_snd (values : list F) (x : F) (c : Z) :
  snd (fold_left online_update values (x, c)) = (c + Z.of_nat (length values))%Z.
Proof.
  revert x c. induction values as [|v values IH]; intros x c; simpl.
  - lia.
  - unfold online_update at 2. simpl. rewrite IH. lia.
Qed.

End Accumulators.

(* ================================================================== *)
(** ** The burst loop *)

Section BurstLoop.
Context {F : Type} `{SF : Scalar F} `{CF : Collaborators F}.

(** The loop over the pending bursts is the loop of the source: fetch the
    next burst, stop if it is empty, otherwise run the body and go on. *)
Lemma while_next_dm_next {St} (body : Burst -> St -> M St) (dm : DataManager)
  (s : St) (g : Rng) :
  while_next body (dm_pending dm) s g
  = let '(next_burst, dm1) := dm_next dm in
    if burst_empty next_burst then (Ok s, dm_pending dm1, g)
    else match body next_burst s g with
         | (Ok s1, g1) => while_next body (dm_pending dm1) s1 g1
         | (Throw e, g1) => (Throw e, dm_pending dm1, g1)
         end.
Proof.
  unfold dm_next. destruct (dm_pending dm) as [|b rest] eqn:Hp; cbn.
  - rewrite Hp. reflexivity.
  - reflexivity.
Qed.

(** A loop whose body never throws on a delivered burst folds what the
    executor produced, burst after burst. *)
Lemma while_next_per_burst {R St} (body : Burst -> St -> M St)
  (produce : Burst -> Rng -> R * Rng) (consume : R -> St -> St)
  (pending : list Burst) (s : St) (g : Rng) :
  (forall b, In b (delivered pending) -> forall s g,
      body b s g = (Ok (consume (fst (produce b g)) s), snd (produce b g))) ->
  while_next body pending s g
  = (Ok (fold_left (fun s r => consume r s)
           (fst (per_burst produce (delivered pending) g)) s),
     undelivered pending,
     snd (per_burst produce (delivered pending) g)).
Proof.
  revert s g. induction pending as [|b rest IH]; intros s g Hbody.
  - reflexivity.
  - simpl in *. destruct (burst_empty b) eqn:Hb.
    + reflexivity.
    + rewrite (Hbody b (or_introl eq_refl)). simpl.
      destruct (produce b g) as [r g1]. cbn [fst snd].
      rewrite IH by (intros b' Hin; apply Hbody; right; exact Hin).
      destruct (per_burst produce (delivered rest) g1) as [more g2].
      reflexivity.
Qed.

Lemma delivered_not_empty (pending : list Burst) (b : Burst) :
  In b (delivered pending) -> burst_empty b = false.
Proof.
  induction pending as [|b' rest IH]; simpl; [tauto|].
  destruct (burst_empty b') eqn:Hb; simpl; [tauto|].
  intros [-> | Hin]; auto.
Qed.

Lemma kernel_matrices_gram (kernel : Kernel) (gram : Features -> KMatrix)
  (blocks : list Features) :
  Forall (fun block => get_kernel_matrix kernel block = inr (gram block)) blocks ->
  kernel_matrices kernel blocks = inr (map gram blocks).
Proof.
  induction 1 as [|block blocks Hb _ IH]; simpl.
  - reflexivity.
  - rewrite Hb, IH. reflexivity.
Qed.

Lemma compute_kernel_gram (cm : ComputationManager) (kernel : Kernel)
  (gram : Features -> KMatrix) (blocks : list Features) :
  is_custom kernel = false ->
  Forall (fun block => get_kernel_matrix kernel block = inr (gram block)) blocks ->
  compute_kernel cm blocks kernel = Ok (cm_set_data cm (map gram blocks)).
Proof.
  intros Hc Hg. unfold compute_kernel.
  rewrite Hc, (kernel_matrices_gram _ _ _ Hg). reflexivity.
Qed.

Lemma kernel_computes_burst (kernel : Kernel) (gram : Features -> KMatrix)
  (pending : list Burst) (b : Burst) :
  kernel_computes kernel gram pending -> In b (delivered pending) ->
  Forall (fun block => get_kernel_matrix kernel block = inr (gram block))
    (merge_samples b).
Proof.
  unfold kernel_computes, stream_blocks. intros Hall Hin.
  rewrite List.Forall_forall in *. intros block Hblock. apply Hall.
  apply in_concat. exists (merge_samples b). split; [|exact Hblock].
  apply in_map. exact Hin.
Qed.

Lemma run_blocks_length (gpu : bool) (jobs : list Job) (data : list KMatrix)
  (g : Rng) :
  length (fst (run_blocks gpu jobs data g)) = length data.
Proof.
  revert g. induction data as [|d data IH]; intros g; simpl.
  - reflexivity.
  - destruct (run_jobs gpu jobs d g) as [row g1].
    specialize (IH g1).
    destruct (run_blocks gpu jobs data g1) as [rows g2]. simpl in *.
    rewrite IH. reflexivity.
Qed.

End BurstLoop.

(* ================================================================== *)
(** ** [compute_statistic_variance]: the accumulators *)

Section StatisticVariance.
Context {F : Type} `{SF : Scalar F} `{CF : Collaborators F}.

Lemma sv_fold_statistic_spec (mmds : list F) (a : SVAcc) :
  sv_fold_statistic mmds a
  = let r := fold_left wrap_update mmds
               (sv_statistic a, sv_statistic_term_counter a) in
    {| sv_statistic := fst r;
       sv_permuted_samples_statistic := sv_permuted_samples_statistic a;
       sv_variance := sv_variance a;
       sv_statistic_term_counter := snd r;
       sv_variance_term_counter := sv_variance_term_counter a |}.
Proof.
  unfold sv_fold_statistic.
  rewrite (for_index_lookup (fun x a =>
    {| sv_statistic :=
         (sv_statistic a
          + (x - sv_statistic a) / of_index (sv_statistic_term_counter a))%F;
       sv_permuted_samples_statistic := sv_permuted_samples_statistic a;
       sv_variance := sv_variance a;
       sv_statistic_term_counter := index_succ (sv_statistic_term_counter a);
       sv_variance_term_counter := sv_variance_term_counter a |})).
  revert a. induction mmds as [|x mmds IH]; intros a.
  - destruct a; reflexivity.
  - simpl. rewrite IH. reflexivity.
Qed.

Lemma sv_fold_variance_direct_spec (mmds vars : list F) (a : SVAcc) :
  length mmds = length vars ->
  sv_fold_variance_direct mmds vars a
  = let r := fold_left wrap_update vars
               (sv_variance a, sv_variance_term_counter a) in
    {| sv_statistic := sv_statistic a;
       sv_permuted_samples_statistic := sv_permuted_samples_statistic a;
       sv_variance := fst r;
       sv_statistic_term_counter := sv_statistic_term_counter a;
       sv_variance_term_counter := snd r |}.
Proof.
  intros Hlen. unfold sv_fold_variance_direct. rewrite Hlen.
  rewrite (for_index_lookup (fun x a =>
    {| sv_statistic := sv_statistic a;
       sv_permuted_samples_statistic := sv_permuted_samples_statistic a;
       sv_variance :=
         (sv_variance a
          + (x - sv_variance a) / of_index (sv_variance_term_counter a))%F;
       sv_statistic_term_counter := sv_statistic_term_counter a;
       sv_variance_term_counter := index_succ (sv_variance_term_counter a) |})).
  clear Hlen. revert a. induction vars as [|x vars IH]; intros a.
  - destruct a; reflexivity.
  - simpl. rewrite IH. reflexivity.
Qed.

Lemma sv_fold_variance_permutation_spec (vars : list F) (a : SVAcc) :
  sv_fold_variance_permutation vars a
  = let r := fold_left one_pass_wrap_update vars
               (sv_permuted_samples_statistic a, sv_variance a,
                sv_variance_term_counter a) in
    {| sv_statistic := sv_statistic a;
       sv_permuted_samples_statistic := fst (fst r);
       sv_variance := snd (fst r);
       sv_statistic_term_counter := sv_statistic_term_counter a;
       sv_variance_term_counter := snd r |}.
Proof.
  unfold sv_fold_variance_permutation.
  rewrite (for_index_lookup (fun x a =>
    {| sv_statistic := sv_statistic a;
       sv_permuted_samples_statistic :=
         (sv_permuted_samples_statistic a
          + (x - sv_permuted_samples_statistic a)
            / of_index (sv_variance_term_counter a))%F;
       sv_variance :=
         (sv_variance a
          + (x - sv_permuted_samples_statistic a)
            * (x - (sv_permuted_samples_statistic a
                    + (x - sv_permuted_samples_statistic a)
                      / of_index (sv_variance_term_counter a))))%F;
       sv_statistic_term_counter := sv_statistic_term_counter a;
       sv_variance_term_counter := index_succ (sv_variance_term_counter a) |})).
  revert a. induction vars as [|x vars IH]; intros a.
  - destruct a; reflexivity.
  - simpl. rewrite IH. reflexivity.
Qed.

Lemma sv_step_statistic (s : Self) (rows : list (list F)) (a : SVAcc) :
  (sv_statistic (sv_step s rows a), sv_statistic_term_counter (sv_step s rows a))
  = fold_left wrap_update (map (fun row : list F => row !!! 0%nat) rows)
      (sv_statistic a, sv_statistic_term_counter a).
Proof.
  unfold sv_step. destruct (variance_estimation_method s).
  - rewrite sv_fold_variance_direct_spec by (rewrite !length_map; reflexivity).
    rewrite sv_fold_statistic_spec. cbn [sv_statistic sv_statistic_term_counter].
    symmetry. apply surjective_pairing.
  - rewrite sv_fold_variance_permutation_spec, sv_fold_statistic_spec.
    cbn [sv_statistic sv_statistic_term_counter].
    symmetry. apply surjective_pairing.
Qed.

Lemma sv_step_variance_direct (s : Self) (rows : list (list F)) (a : SVAcc) :
  variance_estimation_method s = VEM_DIRECT ->
  (sv_variance (sv_step s rows a), sv_variance_term_counter (sv_step s rows a))
  = fold_left wrap_update (map (fun row : list F => row !!! 1%nat) rows)
      (sv_variance a, sv_variance_term_counter a).
Proof.
  intros Hv. unfold sv_step. rewrite Hv.
  rewrite sv_fold_variance_direct_spec by (rewrite !length_map; reflexivity).
  rewrite sv_fold_statistic_spec. cbn [sv_variance sv_variance_term_counter].
  symmetry. apply surjective_pairing.
Qed.

Lemma sv_step_variance_permutation (s : Self) (rows : list (list F))
  (a : SVAcc) :
  variance_estimation_method s = VEM_PERMUTATION ->
  (sv_permuted_samples_statistic (sv_step s rows a),
   sv_variance (sv_step s rows a),
   sv_variance_term_counter (sv_step s rows a))
  = fold_left one_pass_wrap_update
      (map (fun row : list F => row !!! 1%nat) rows)
      (sv_permuted_samples_statistic a, sv_variance a,
       sv_variance_term_counter a).
Proof.
  intros Hv. unfold sv_step. rewrite Hv.
  rewrite sv_fold_variance_permutation_spec, sv_fold_statistic_spec.
  cbn [sv_permuted_samples_statistic sv_variance sv_variance_term_counter].
  match goal with |- _ = ?r => destruct r as [[x y] c] end. reflexivity.
Qed.

(** Over the bursts of a pass each accumulator folds the scalars of its
    job in stream order. *)
Lemma sv_steps_statistic (s : Self) (results : list (list (list F)))
  (a : SVAcc) :
  let a' := fold_left (fun a rows => sv_step s rows a) results a in
  (sv_statistic a', sv_statistic_term_counter a')
  = fold_left wrap_update (job_scalars 0 results)
      (sv_statistic a, sv_statistic_term_counter a).
Proof.
  revert a. induction results as [|rows results IH]; intros a.
  - reflexivity.
  - cbn zeta in *. unfold job_scalars in *. simpl.
    rewrite fold_left_app, <- (sv_step_statistic s rows a). apply IH.
Qed.

Lemma sv_steps_variance_direct (s : Self) (results : list (list (list F)))
  (a : SVAcc) :
  variance_estimation_method s = VEM_DIRECT ->
  let a' := fold_left (fun a rows => sv_step s rows a) results a in
  (sv_variance a', sv_variance_term_counter a')
  = fold_left wrap_update (job_scalars 1 results)
      (sv_variance a, sv_variance_term_counter a).
Proof.
  intros Hv. revert a. induction results as [|rows results IH]; intros a.
  - reflexivity.
  - cbn zeta in *. unfold job_scalars in *. simpl.
    rewrite fold_left_app, <- (sv_step_variance_direct s rows a Hv). apply IH.
Qed.

Lemma sv_steps_variance_permutation (s : Self)
  (results : list (list (list F))) (a : SVAcc) :
  variance_estimation_method s = VEM_PERMUTATION ->
  let a' := fold_left (fun a rows => sv_step s rows a) results a in
  (sv_permuted_samples_statistic a', sv_variance a', sv_variance_term_counter a')
  = fold_left one_pass_wrap_update (job_scalars 1 results)
      (sv_permuted_samples_statistic a, sv_variance a,
       sv_variance_term_counter a).
Proof.
  intros Hv. revert a. induction results as [|rows results IH]; intros a.
  - reflexivity.
  - cbn zeta in *. unfold job_scalars in *. simpl.
    rewrite fold_left_app, <- (sv_step_variance_permutation s rows a Hv).
    apply IH.
Qed.

Lemma sv_burst_gram (s : Self) (cm : ComputationManager) (kernel : Kernel)
  (gram : Features -> KMatrix) (b : Burst) (a : SVAcc) (g : Rng) :
  is_custom kernel = false ->
  Forall (fun block => get_kernel_matrix kernel block = inr (gram block))
    (merge_samples b) ->
  let produce b :=
    run_blocks (use_gpu s) (job_array cm) (map gram (merge_samples b)) in
  sv_burst s cm kernel b a g
  = (Ok (sv_step s (fst (produce b g)) a), snd (produce b g)).
Proof.
  intros Hc Hg produce. unfold sv_burst, bind, lift, draw, ret.
  rewrite (compute_kernel_gram _ _ _ _ Hc Hg).
  unfold compute_jobs, compute_data_parallel_jobs. simpl.
  subst produce. cbv beta.
  destruct (run_blocks (use_gpu s) (job_array cm)
              (map gram (merge_samples b)) g) as [rows g1].
  reflexivity.
Qed.

Lemma job_scalars_length (gpu : bool) (jobs : list Job)
  (gram : Features -> KMatrix) (j : nat) (bursts : list Burst) (g : Rng) :
  length (job_scalars j (fst (burst_results gpu jobs gram bursts g)))
  = length (concat (map merge_samples bursts)).
Proof.
  unfold job_scalars, burst_results. revert g.
  induction bursts as [|b bursts IH]; intros g; simpl.
  - reflexivity.
  - pose proof (run_blocks_length gpu jobs (map gram (merge_samples b)) g) as Hr.
    destruct (run_blocks gpu jobs (map gram (merge_samples b)) g) as [rows g1].
    specialize (IH g1).
    destruct (per_burst _ bursts g1) as [more g2]. simpl in *.
    rewrite !length_app, IH, !length_map, Hr, length_map. reflexivity.
Qed.

(** The run of [compute_statistic_variance] when no kernel matrix fails. *)
Lemma compute_statistic_variance_run (m : CMMD) (kernel : Kernel)
  (gram : Features -> KMatrix) :
  kernel_at (kernel_manager m) 0 = Some kernel ->
  is_custom kernel = false ->
  kernel_computes kernel gram (dm_pending (data_manager m)) ->
  let a := fold_left (fun a rows => sv_step (self m) rows a)
             (sv_results m gram) sv_init in
  fst (compute_statistic_variance m)
  = Ok (normalize_statistic (sv_statistic a),
        match variance_estimation_method (self m) with
        | VEM_PERMUTATION => normalize_variance (sv_variance a)
        | VEM_DIRECT => sv_variance a
        end).
Proof.
  intros Hk Hc Hg. unfold compute_statistic_variance. rewrite Hk.
  cbv zeta.
  rewrite (while_next_per_burst _
             (fun b => run_blocks (use_gpu (self m))
                         [statistic_job (create_computation_jobs (self m)
                                           (data_manager m));
                          variance_job (create_computation_jobs (self m)
                                          (data_manager m))]
                         (map gram (merge_samples b)))
             (sv_step (self m))).
  - reflexivity.
  - intros b Hin a g. simpl in Hin.
    match goal with
    | |- sv_burst _ ?cm _ _ _ _ = _ =>
        exact (sv_burst_gram (self m) cm kernel gram b a g Hc
                 (kernel_computes_burst _ _ _ _ Hg Hin))
    end.
Qed.

(** The same with the accumulators read off the specification's rules,
    for a pass whose block count keeps the counters within [index_t]. *)
Lemma compute_statistic_variance_ok (m : CMMD) (kernel : Kernel)
  (gram : Features -> KMatrix) :
  kernel_at (kernel_manager m) 0 = Some kernel ->
  is_custom kernel = false ->
  kernel_computes kernel gram (dm_pending (data_manager m)) ->
  (Z.of_nat (length (stream_blocks (dm_pending (data_manager m)))) < index_max)%Z ->
  fst (compute_statistic_variance m)
  = Ok (normalize_statistic (online_mean (statistic_scalars m gram)),
        match variance_estimation_method (self m) with
        | VEM_PERMUTATION =>
            normalize_variance (one_pass_variance (variance_scalars m gram))
        | VEM_DIRECT => online_mean (variance_scalars m gram)
        end).
Proof.
  intros Hk Hc Hg Hlen.
  rewrite (compute_statistic_variance_run m kernel gram Hk Hc Hg). cbv zeta.
  assert (Hlen' : forall j, (1 + Z.of_nat (length (job_scalars j (sv_results m gram)))
                             <= index_max)%Z).
  { intros j. unfold sv_results. rewrite job_scalars_length.
    unfold stream_blocks in Hlen. lia. }
  pose proof (sv_steps_statistic (self m) (sv_results m gram) sv_init) as Hs.
  cbv zeta in Hs. cbn [sv_init sv_statistic sv_statistic_term_counter] in Hs.
  rewrite wrap_update_fold in Hs by (try apply Hlen'; lia).
  apply (f_equal fst) in Hs. cbn [fst] in Hs. rewrite Hs.
  destruct (variance_estimation_method (self m)) eqn:Hv.
  - pose proof (sv_steps_variance_direct (self m) (sv_results m gram) sv_init Hv)
      as Hd.
    cbv zeta in Hd. cbn [sv_init sv_variance sv_variance_term_counter] in Hd.
    rewrite wrap_update_fold in Hd by (try apply Hlen'; lia).
    apply (f_equal fst) in Hd. cbn [fst] in Hd. rewrite Hd. reflexivity.
  - pose proof (sv_steps_variance_permutation (self m) (sv_results m gram)
                  sv_init Hv) as Hp.
    cbv zeta in Hp.
    cbn [sv_init sv_variance sv_variance_term_counter
         sv_permuted_samples_statistic] in Hp.
    rewrite one_pass_wrap_update_fold in Hp by (try apply Hlen'; lia).
    apply (f_equal (fun r => snd (fst r))) in Hp. cbn [fst snd] in Hp.
    rewrite Hp. reflexivity.
Qed.

End StatisticVariance.

(* ================================================================== *)
(** ** The online mean in exact arithmetic *)

Section ExactArithmetic.
Local Open Scope Qc_scope.

Lemma Qc_of_Z_succ (c : Z) : Qc_of_Z (c + 1) = Qc_of_Z c + 1.
Proof. rewrite Z2Qc_inj_add, Z2Qc_inj_1. reflexivity. Qed.

Lemma Qc_of_Z_pos_neq_0 (c : Z) : (0 < c)%Z -> Qc_of_Z c <> 0.
Proof.
  intros Hc Heq. rewrite <- Z2Qc_inj_0 in Heq.
  apply Z2Qc_inj in Heq. lia.
Qed.

(** After [c-1] values of mean [x], folding [values] gives the mean of all
    of them: the invariant of the update rule, without division. *)
Lemma online_update_fold_exact (values : list Qc) (x : Qc) (c : Z) :
  (1 <= c)%Z ->
  fst (fold_left online_update values (x, c))
  * Qc_of_Z (c - 1 + Z.of_nat (length values))
  = Qc_of_Z (c - 1) * x + Qc_sum values.
Proof.
  revert x c. induction values as [|v values IH]; intros x c Hc.
  - simpl. rewrite Z.add_0_r. ring.
  - cbn [fold_left length Qc_sum fold_right].
    unfold online_update at 2. cbn [fst snd].
    specialize (IH (fadd x (fdiv (fsub v x) (of_index c))) (c + 1)%Z).
    replace (c - 1 + Z.of_nat (S (length values)))%Z
      with (c + 1 - 1 + Z.of_nat (length values))%Z by lia.
    rewrite IH by lia. fold (Qc_sum values).
    replace (c + 1 - 1)%Z with (c - 1 + 1)%Z by lia.
    rewrite Qc_of_Z_succ.
    assert (Hne : Qc_of_Z c <> 0) by (apply Qc_of_Z_pos_neq_0; lia).
    assert (Hc1 : Qc_of_Z c = Qc_of_Z (c - 1) + 1).
    { rewrite <- Qc_of_Z_succ. f_equal. lia. }
    cbv [fadd fdiv fsub of_index Qc_scalar].
    rewrite Hc1 in *. field. exact Hne.
Qed.

Lemma online_mean_exact (values : list Qc) :
  online_mean values = arithmetic_mean values.
Proof.
  unfold online_mean, arithmetic_mean.
  pose proof (online_update_fold_exact values fzero 1 ltac:(lia)) as Hinv.
  replace (1 - 1 + Z.of_nat (length values))%Z
    with (Z.of_nat (length values)) in Hinv by lia.
  change (1 - 1)%Z with 0%Z in Hinv.
  rewrite Z2Qc_inj_0, Qcmult_0_l, Qcplus_0_l in Hinv.
  destruct values as [|v values].
  - reflexivity.
  - rewrite <- Hinv. field.
    apply Qc_of_Z_pos_neq_0. simpl length. lia.
Qed.

Lemma Qc_sum_Permutation (values values' : list Qc) :
  Permutation values values' -> Qc_sum values = Qc_sum values'.
Proof.
  induction 1 as [|x l l' _ IH|x y l|l l' l'' _ IH1 _ IH2]; simpl.
  - reflexivity.
  - rewrite IH. reflexivity.
  - ring.
  - rewrite IH1. exact IH2.
Qed.

Lemma arithmetic_mean_Permutation (values values' : list Qc) :
  Permutation values values' ->
  arithmetic_mean values = arithmetic_mean values'.
Proof.
  intros Hp. unfold arithmetic_mean.
  rewrite (Qc_sum_Permutation _ _ Hp), (Permutation_length Hp). reflexivity.
Qed.

(** The invariant of the one-pass rule, without division: after [c-1]
    values of sum [s] and sum of squares [q], the mean times the count is
    the sum and the accumulator is [q - count * mean^2]. *)
Lemma one_pass_update_fold_exact (values : list Qc) (mean m2 : Qc) (c : Z)
  (s q : Qc) :
  (1 <= c)%Z ->
  Qc_of_Z (c - 1) * mean = s ->
  m2 = q - Qc_of_Z (c - 1) * mean * mean ->
  let r := fold_left one_pass_update values (mean, m2, c) in
  let count := Qc_of_Z (c - 1 + Z.of_nat (length values)) in
  count * fst (fst r) = s + Qc_sum values
  /\ snd (fst r)
     = q + Qc_sum (map (fun v => v * v) values)
       - count * fst (fst r) * fst (fst r).
Proof.
  revert mean m2 c s q.
  induction values as [|v values IH]; intros mean m2 c s q Hc Hs Hq; cbv zeta.
  - cbn [fold_left length map Qc_sum fold_right fst snd Z.of_nat].
    rewrite Z.add_0_r. split; [rewrite Hs|rewrite Hq]; ring.
  - cbn [fold_left length map Qc_sum fold_right]. cbn [one_pass_update].
    cbv [fadd fdiv fsub fmul of_index Qc_scalar].
    assert (Hne : Qc_of_Z c <> 0) by (apply Qc_of_Z_pos_neq_0; lia).
    assert (Hc1 : Qc_of_Z (c - 1) = Qc_of_Z c - 1).
    { replace c with (c - 1 + 1)%Z at 2 by lia. rewrite Qc_of_Z_succ. ring. }
    replace (c - 1 + Z.of_nat (S (length values)))%Z
      with (c + 1 - 1 + Z.of_nat (length values))%Z by lia.
    destruct (IH (mean + (v - mean) / Qc_of_Z c)
                 (m2 + (v - mean) * (v - (mean + (v - mean) / Qc_of_Z c)))
                 (c + 1)%Z (s + v) (q + v * v) ltac:(lia)) as [IHs IHq].
    + replace (c + 1 - 1)%Z with c by lia. rewrite <- Hs, Hc1. field.
      exact Hne.
    + replace (c + 1 - 1)%Z with c by lia. rewrite Hq, Hc1. field.
      exact Hne.
    + cbv zeta in IHs, IHq.
      cbv [fadd fdiv fsub fmul of_index Qc_scalar] in IHs, IHq.
      fold (Qc_sum values). fold (Qc_sum (map (fun v => v * v) values)).
      split; [rewrite IHs; ring|rewrite IHq; ring].
Qed.

Lemma Qc_sum_squared_deviations (values : list Qc) (m : Qc) :
  Qc_sum (map (fun v => (v - m) * (v - m)) values)
  = Qc_sum (map (fun v => v * v) values)
    - (1 + 1) * m * Qc_sum values
    + Qc_of_Z (Z.of_nat (length values)) * m * m.
Proof.
  induction values as [|v values IH].
  - change (Qc_of_Z (Z.of_nat (length (@nil Qc)))) with (Qc_of_Z 0).
    rewrite Z2Qc_inj_0. cbn [map Qc_sum fold_right]. ring.
  - cbn [map Qc_sum fold_right length].
    fold (Qc_sum (map (fun v => (v - m) * (v - m)) values)).
    fold (Qc_sum (map (fun v => v * v) values)). fold (Qc_sum values).
    rewrite IH, Nat2Z.inj_succ, <- Z.add_1_r, Qc_of_Z_succ. ring.
Qed.

(** In exact arithmetic the accumulator of the one-pass rule is the sum of
    the squared deviations from the mean: the rule and the two-pass formula
    differ in how they round, not in what they compute, and neither
    divides by the count. *)
Lemma one_pass_variance_exact (values : list Qc) :
  one_pass_variance values = squared_deviations values.
Proof.
  unfold one_pass_variance, squared_deviations.
  destruct (one_pass_update_fold_exact values fzero fzero 1 0 0 ltac:(lia))
    as [Hs Hq]; [cbn; ring|cbn; ring|].
  cbv zeta in Hs, Hq.
  replace (1 - 1 + Z.of_nat (length values))%Z
    with (Z.of_nat (length values)) in Hs, Hq by lia.
  rewrite Qcplus_0_l in Hs, Hq.
  rewrite Hq, Qc_sum_squared_deviations.
  set (count := Qc_of_Z (Z.of_nat (length values))) in *.
  set (mean := fst (fst (fold_left one_pass_update values (fzero, fzero, 1%Z))))
    in *.
  assert (Hmean : arithmetic_mean values = mean).
  { unfold arithmetic_mean. fold count. destruct values as [|v values].
    - reflexivity.
    - rewrite <- Hs. field. subst count.
      apply Qc_of_Z_pos_neq_0. simpl length. lia. }
  rewrite Hmean, <- Hs. ring.
Qed.

End ExactArithmetic.

(** In binary64 the same scalars fed in another order leave another
    mean: 2^53, 1, -2^53, 1 gives one quarter, and one half with the two
    large values fed last. *)
Lemma online_mean_binary64_feed_order :
  sv_mean_of_bursts [[9007199254740992; 1; -9007199254740992; 1]]%float
  = 0.25%float
  /\ sv_mean_of_bursts [[1; 1; 9007199254740992; -9007199254740992]]%float
     = 0.5%float.
Proof. split; vm_compute; reflexivity. Qed.

Section MeanOfBursts.
Context {F : Type} `{SF : Scalar F}.

(** However the scalars are split into bursts, the statistic accumulator
    folds their concatenation. *)
Lemma sv_mean_of_bursts_fold (bursts : list (list F)) (a : SVAcc) :
  let a' := fold_left (fun a mmds => sv_fold_statistic mmds a) bursts a in
  (sv_statistic a', sv_statistic_term_counter a')
  = fold_left wrap_update (concat bursts)
      (sv_statistic a, sv_statistic_term_counter a).
Proof.
  revert a. induction bursts as [|mmds bursts IH]; intros a.
  - reflexivity.
  - cbn zeta in *. simpl. rewrite fold_left_app.
    rewrite IH, sv_fold_statistic_spec. cbn zeta.
    cbn [sv_statistic sv_statistic_term_counter].
    rewrite <- surjective_pairing. reflexivity.
Qed.

Lemma sv_mean_of_bursts_online (bursts : list (list F)) :
  (Z.of_nat (length (concat bursts)) < index_max)%Z ->
  sv_mean_of_bursts bursts = online_mean (concat bursts).
Proof.
  intros Hlen. unfold sv_mean_of_bursts, online_mean.
  pose proof (sv_mean_of_bursts_fold bursts sv_init) as Hf. cbv zeta in Hf.
  cbn [sv_init sv_statistic sv_statistic_term_counter] in Hf.
  rewrite wrap_update_fold in Hf by lia.
  apply (f_equal fst) in Hf. exact Hf.
Qed.

End MeanOfBursts.

(* ================================================================== *)
(** ** Vectors and matrices of accumulators *)

Section IndexLoops.
Context {St : Type}.

Lemma for_index_S (n : nat) (body : nat -> St -> St) (s : St) :
  for_index (S n) body s = body n (for_index n body s).
Proof.
  unfold for_index. rewrite seq_S, fold_left_app. reflexivity.
Qed.

(** Two bodies that agree wherever an invariant of the first holds give
    the same loop. *)
Lemma for_index_invariant (P : St -> Prop) (n : nat)
  (body body' : nat -> St -> St) (s : St) :
  P s ->
  (forall i s, (i < n)%nat -> P s -> body i s = body' i s /\ P (body i s)) ->
  for_index n body s = for_index n body' s /\ P (for_index n body s).
Proof.
  intros Hs Hstep. induction n as [|n IH].
  - split; [reflexivity|exact Hs].
  - rewrite !for_index_S.
    destruct IH as [Heq HP]; [intros i s' Hi; apply Hstep; lia|].
    destruct (Hstep n (for_index n body s) ltac:(lia) HP) as [Hb HP'].
    split; [rewrite Hb, Heq; reflexivity|exact HP'].
Qed.

End IndexLoops.

Section Matrices.
Context {A : Type} `{Inhabited A}.

Lemma mat_offset_lt (n i j : nat) :
  (i < n)%nat -> (j < n)%nat -> (j * n + i < n * n)%nat.
Proof.
  intros Hi Hj.
  pose proof (Nat.mul_le_mono_r (S j) n n ltac:(lia)) as Hle. simpl in Hle.
  lia.
Qed.

Lemma mat_offset_inj (n i j p q : nat) :
  (i < n)%nat -> (p < n)%nat ->
  (q * n + p = j * n + i)%nat -> p = i /\ q = j.
Proof.
  intros Hi Hp Heq.
  assert (Hq : q = j).
  { pose proof (Nat.div_add_l q n p ltac:(lia)) as H1.
    pose proof (Nat.div_add_l j n i ltac:(lia)) as H2.
    rewrite (Nat.div_small p n) in H1 by assumption.
    rewrite (Nat.div_small i n) in H2 by assumption.
    rewrite Heq in H1. lia. }
  subst q. split; [lia|reflexivity].
Qed.

Lemma mat_set_wf (n : nat) (m : SGMatrix A) (i j : nat) (v : A) :
  mat_wf n m -> mat_wf n (mat_set m i j v).
Proof.
  intros [Hr Hl]. split; simpl; [exact Hr|].
  rewrite length_insert. exact Hl.
Qed.

Lemma mat_fill_wf (n : nat) (v : A) : mat_wf n (mat_fill n n v).
Proof. split; simpl; [reflexivity|apply length_replicate]. Qed.

Lemma mat_get_fill (n i j : nat) (v : A) :
  (i < n)%nat -> (j < n)%nat -> mat_get (mat_fill n n v) i j = v.
Proof.
  intros Hi Hj. unfold mat_get, mat_fill. simpl.
  apply lookup_total_replicate_2. apply mat_offset_lt; assumption.
Qed.

Lemma mat_get_set_eq (n : nat) (m : SGMatrix A) (i j : nat) (v : A) :
  mat_wf n m -> (i < n)%nat -> (j < n)%nat ->
  mat_get (mat_set m i j v) i j = v.
Proof.
  intros [Hr Hl] Hi Hj. unfold mat_get, mat_set. simpl.
  apply list_lookup_total_insert_eq. rewrite Hl, Hr.
  apply mat_offset_lt; assumption.
Qed.

Lemma mat_get_set_ne (n : nat) (m : SGMatrix A) (i j p q : nat) (v : A) :
  mat_wf n m -> (i < n)%nat -> (p < n)%nat ->
  ~ (p = i /\ q = j) ->
  mat_get (mat_set m i j v) p q = mat_get m p q.
Proof.
  intros [Hr Hl] Hi Hp Hne. unfold mat_get, mat_set. simpl.
  apply list_lookup_total_insert_ne. rewrite Hr. intros Heq.
  apply Hne. apply (mat_offset_inj n); auto.
Qed.

Lemma mat_set_get_id (n : nat) (m : SGMatrix A) (i j : nat) :
  mat_wf n m -> (i < n)%nat -> (j < n)%nat ->
  mat_set m i j (mat_get m i j) = m.
Proof.
  intros [Hr Hl] Hi Hj. unfold mat_get, mat_set. destruct m as [r c l].
  simpl in *. f_equal. apply list_insert_id.
  apply list_lookup_lookup_total_lt. rewrite Hl, Hr.
  apply mat_offset_lt; assumption.
Qed.

Lemma mat_set_set (m : SGMatrix A) (i j : nat) (v w : A) :
  mat_set (mat_set m i j v) i j w = mat_set m i j w.
Proof.
  unfold mat_set. simpl. rewrite list_insert_insert_eq. reflexivity.
Qed.

End Matrices.

Section VectorAccumulators.
Context {F : Type} `{SF : Scalar F}.

Lemma vec_update_fold (j : nat) (values : list F) (v : list F * list index_t) :
  (j < length (fst v))%nat -> (j < length (snd v))%nat ->
  fold_left (vec_update j) values v
  = let r := fold_left wrap_update values (fst v !!! j, snd v !!! j) in
    (<[j := fst r]> (fst v), <[j := snd r]> (snd v)).
Proof.
  revert v. induction values as [|x values IH]; intros [xs cs] Hx Hc.
  - simpl in *. rewrite !list_insert_id
      by (apply list_lookup_lookup_total_lt; assumption).
    reflexivity.
  - cbn [fold_left]. rewrite IH
      by (unfold vec_update; simpl; rewrite length_insert; assumption).
    unfold vec_update at 1 2 3 4. cbn [fst snd] in *. cbv zeta.
    rewrite !list_lookup_total_insert_eq by assumption.
    rewrite !list_insert_insert_eq.
    rewrite <- surjective_pairing. reflexivity.
Qed.

End VectorAccumulators.

(* ================================================================== *)
(** ** [compute_statistic_and_Q]: the per-kernel statistic *)

Section MultiKernelStatistic.
Context {F : Type} `{SF : Scalar F}.

Lemma sq_fold_statistic_spec (n k num_blocks : nat) (a : QAcc) :
  sq_wf n a -> (k < n)%nat ->
  length (sq_mmds a !!! k) = num_blocks ->
  sq_fold_statistic k num_blocks a
  = let r := fold_left wrap_update (sq_mmds a !!! k)
               (sq_statistic a !!! k, sq_term_counters_statistic a !!! k) in
    sq_with_vectors a
      (<[k := fst r]> (sq_statistic a),
       <[k := snd r]> (sq_term_counters_statistic a)).
Proof.
  intros (Hs & Hc & _) Hk Hlen. unfold sq_fold_statistic. subst num_blocks.
  set (mmd := sq_mmds a !!! k).
  set (upd := fun (x : F) (a : QAcc) =>
    sq_with_vectors a
      (vec_update k (sq_statistic a, sq_term_counters_statistic a) x)).
  match goal with
  | |- for_index _ ?body _ = _ =>
      destruct (for_index_invariant (fun a' => sq_mmds a' = sq_mmds a)
                  (length mmd) body (fun i a => upd (mmd !!! i) a) a)
        as [Heq _]
  end.
  - reflexivity.
  - intros i a' _ Hinv. split; [|exact Hinv].
    unfold upd, sq_with_vectors, vec_update, wrap_update. cbn [fst snd].
    rewrite Hinv. reflexivity.
  - rewrite Heq, (for_index_lookup upd mmd a).
    pose proof (vec_update_fold k mmd
                  (sq_statistic a, sq_term_counters_statistic a)) as Hv.
    cbv zeta in *. cbn [fst snd] in Hv. rewrite <- Hv by lia.
    clear Heq Hs Hc Hv. generalize mmd as xs. clear mmd.
    intros xs. revert a. induction xs as [|x xs IH]; intros a.
    + destruct a; reflexivity.
    + cbn [fold_left]. rewrite IH. unfold upd at 2. reflexivity.
Qed.

Lemma sq_consume_kernel_spec (n num_blocks k : nat) (mmd : list F) (a : QAcc) :
  sq_wf n a -> (k < n)%nat -> length mmd = num_blocks ->
  sq_consume_kernel num_blocks k mmd a
  = let r := fold_left wrap_update mmd
               (sq_statistic a !!! k, sq_term_counters_statistic a !!! k) in
    {| sq_statistic := <[k := fst r]> (sq_statistic a);
       sq_Q := sq_Q a;
       sq_term_counters_statistic :=
         <[k := snd r]> (sq_term_counters_statistic a);
       sq_term_counters_Q := sq_term_counters_Q a;
       sq_mmds := <[k := mmd]> (sq_mmds a) |}.
Proof.
  intros Hwf Hk Hlen. unfold sq_consume_kernel.
  destruct Hwf as (Hs & Hc & Hm & HQ & HC).
  rewrite (sq_fold_statistic_spec n).
  - cbn [sq_mmds sq_statistic sq_term_counters_statistic].
    rewrite list_lookup_total_insert_eq by lia. reflexivity.
  - repeat split; cbn; try rewrite length_insert; try assumption;
      try apply HQ; apply HC.
  - exact Hk.
  - cbn [sq_mmds]. rewrite list_lookup_total_insert_eq by lia. exact Hlen.
Qed.

Lemma sq_consume_kernel_wf (n num_blocks k : nat) (mmd : list F) (a : QAcc) :
  sq_wf n a -> (k < n)%nat -> length mmd = num_blocks ->
  sq_wf n (sq_consume_kernel num_blocks k mmd a).
Proof.
  intros Hwf Hk Hlen. rewrite (sq_consume_kernel_spec n) by assumption.
  destruct Hwf as (Hs & Hc & Hm & HQ & HC).
  repeat split; cbn; try rewrite length_insert; try assumption;
    try apply HQ; apply HC.
Qed.

(** The kernel loop of one burst: every kernel in range folds its own
    scalars into its own accumulator and leaves the others alone. *)
Lemma sq_kernels_spec (n num_blocks : nat) (mmds : list (list F)) (k0 : nat)
  (a : QAcc) :
  sq_wf n a -> (k0 + length mmds <= n)%nat ->
  Forall (fun mmd : list F => length mmd = num_blocks) mmds ->
  let a' := fold_indexed (sq_consume_kernel num_blocks) k0 mmds a in
  sq_wf n a'
  /\ sq_Q a' = sq_Q a
  /\ sq_term_counters_Q a' = sq_term_counters_Q a
  /\ (forall k, (k < n)%nat ->
        sq_mmds a' !!! k
        = if decide (k0 <= k < k0 + length mmds)%nat
          then mmds !!! (k - k0)%nat else sq_mmds a !!! k)
  /\ (forall k, (k < n)%nat ->
        (sq_statistic a' !!! k, sq_term_counters_statistic a' !!! k)
        = let v := (sq_statistic a !!! k, sq_term_counters_statistic a !!! k) in
          if decide (k0 <= k < k0 + length mmds)%nat
          then fold_left wrap_update (mmds !!! (k - k0)%nat) v else v).
Proof.
  intros Hwf Hk0 Hlen. revert k0 a Hwf Hk0.
  induction Hlen as [|mmd mmds Hm _ IH]; intros k0 a Hwf Hk0; cbn zeta.
  - simpl. repeat split; try apply Hwf.
    + intros k Hk. destruct (decide _); [lia|reflexivity].
    + intros k Hk. destruct (decide _); [lia|reflexivity].
  - simpl in Hk0. cbn [fold_indexed].
    assert (Hk0n : (k0 < n)%nat) by lia.
    assert (Hk0' : (S k0 + length mmds <= n)%nat) by lia.
    pose proof (sq_consume_kernel_spec n num_blocks k0 mmd a Hwf Hk0n Hm)
      as Hspec.
    pose proof (sq_consume_kernel_wf n _ _ _ _ Hwf Hk0n Hm) as Hwf1.
    cbv zeta in Hspec.
    set (a1 := sq_consume_kernel num_blocks k0 mmd a) in *.
    specialize (IH (S k0) a1 Hwf1 Hk0'). cbn zeta in IH.
    destruct IH as (Hwf' & HQ & HC & Hmm & Hst).
    destruct Hwf as (Hs & Hc & Hmd & _).
    split; [exact Hwf'|].
    split; [rewrite HQ, Hspec; reflexivity|].
    split; [rewrite HC, Hspec; reflexivity|]. split.
    + intros k Hk. rewrite (Hmm k Hk), Hspec. cbn [sq_mmds length].
      destruct (decide (S k0 <= k < S k0 + length mmds)%nat) as [Hin|Hout].
      * destruct (decide _); [|lia].
        replace (k - k0)%nat with (S (k - S k0)) by lia. reflexivity.
      * destruct (decide (k = k0)) as [->|Hne].
        -- destruct (decide _); [|lia].
           rewrite Nat.sub_diag, list_lookup_total_insert_eq by lia.
           reflexivity.
        -- destruct (decide _); [lia|].
           rewrite list_lookup_total_insert_ne by lia. reflexivity.
    + intros k Hk. rewrite (Hst k Hk), Hspec.
      cbn [sq_statistic sq_term_counters_statistic length].
      destruct (decide (S k0 <= k < S k0 + length mmds)%nat) as [Hin|Hout].
      * destruct (decide _); [|lia].
        replace (k - k0)%nat with (S (k - S k0)) by lia.
        rewrite !list_lookup_total_insert_ne by lia. reflexivity.
      * destruct (decide (k = k0)) as [->|Hne].
        -- destruct (decide _); [|lia].
           rewrite Nat.sub_diag, !list_lookup_total_insert_eq by lia.
           cbn. rewrite <- surjective_pairing. reflexivity.
        -- destruct (decide _); [lia|].
           rewrite !list_lookup_total_insert_ne by lia. reflexivity.
Qed.

End MultiKernelStatistic.

(* ================================================================== *)
(** ** [compute_statistic_and_Q]: the covariance matrix *)

Section CovarianceLoops.
Context {F : Type} `{SF : Scalar F}.

Lemma sq_pairs_spec (n i j : nat) (ks : list nat) (a : QAcc) :
  sq_wf n a -> (i < n)%nat -> (j < n)%nat ->
  fold_left (fun a k => sq_pair i j k a) ks a
  = let r := fold_left wrap_update
               (map (fun k =>
                  fmul32 (fsub32 ((sq_mmds a !!! i) !!! k)
                                 ((sq_mmds a !!! i) !!! (k + 1)%nat))
                         (fsub32 ((sq_mmds a !!! j) !!! k)
                                 ((sq_mmds a !!! j) !!! (k + 1)%nat))) ks)
               (mat_get (sq_Q a) i j, mat_get (sq_term_counters_Q a) i j) in
    {| sq_statistic := sq_statistic a;
       sq_Q := mat_set (sq_Q a) i j (fst r);
       sq_term_counters_statistic := sq_term_counters_statistic a;
       sq_term_counters_Q := mat_set (sq_term_counters_Q a) i j (snd r);
       sq_mmds := sq_mmds a |}.
Proof.
  intros Hwf Hi Hj. revert a Hwf. induction ks as [|k ks IH]; intros a Hwf.
  - destruct Hwf as (_ & _ & _ & HQ & HC). cbn.
    rewrite !(mat_set_get_id n) by assumption. destruct a; reflexivity.
  - cbn [fold_left map]. destruct Hwf as (Hs & Hc & Hm & HQ & HC).
    rewrite IH.
    + unfold sq_pair.
      cbn [sq_statistic sq_Q sq_term_counters_statistic sq_term_counters_Q
           sq_mmds].
      cbv zeta. rewrite !(mat_get_set_eq n), !mat_set_set by assumption.
      reflexivity.
    + unfold sq_pair. repeat split; cbn; try assumption;
        try (rewrite length_insert); try apply HQ; apply HC.
Qed.

Lemma sq_cell_spec (n num_blocks i j : nat) (a : QAcc) :
  sq_wf n a -> (i < n)%nat -> (j < n)%nat ->
  sq_cell num_blocks i j a
  = let r := sq_cell_result a num_blocks i j in
    {| sq_statistic := sq_statistic a;
       sq_Q := mat_set (mat_set (sq_Q a) i j (fst r)) j i (fst r);
       sq_term_counters_statistic := sq_term_counters_statistic a;
       sq_term_counters_Q := mat_set (sq_term_counters_Q a) i j (snd r);
       sq_mmds := sq_mmds a |}.
Proof.
  intros Hwf Hi Hj. unfold sq_cell.
  rewrite (sq_pairs_spec n) by assumption. cbv zeta.
  cbn [sq_statistic sq_Q sq_term_counters_statistic sq_term_counters_Q sq_mmds].
  destruct Hwf as (_ & _ & _ & HQ & HC).
  rewrite (mat_get_set_eq n) by assumption. reflexivity.
Qed.

Lemma sq_cell_wf (n num_blocks i j : nat) (a : QAcc) :
  sq_wf n a -> (i < n)%nat -> (j < n)%nat ->
  sq_wf n (sq_cell num_blocks i j a).
Proof.
  intros Hwf Hi Hj. rewrite (sq_cell_spec n) by assumption.
  destruct Hwf as (Hs & Hc & Hm & HQ & HC).
  repeat split; cbn; try assumption; try (rewrite !length_insert);
    try apply HQ; apply HC.
Qed.

(** Row [i] of the lower triangle, columns below [c] done. *)
Lemma sq_row_spec (n num_blocks i : nat) (a0 : QAcc) (c : nat) :
  sq_wf n a0 -> (i < n)%nat -> (c <= S i)%nat ->
  let a := for_index c (fun j a => sq_cell num_blocks i j a) a0 in
  sq_wf n a
  /\ sq_statistic a = sq_statistic a0
  /\ sq_term_counters_statistic a = sq_term_counters_statistic a0
  /\ sq_mmds a = sq_mmds a0
  /\ (forall p q, (p < n)%nat -> (q < n)%nat ->
        mat_get (sq_Q a) p q
        = if decide ((p = i /\ q < c) \/ (q = i /\ p < c))%nat
          then fst (sq_cell_result a0 num_blocks i (Nat.min p q))
          else mat_get (sq_Q a0) p q)
  /\ (forall p q, (p < n)%nat -> (q < n)%nat ->
        mat_get (sq_term_counters_Q a) p q
        = if decide (p = i /\ q < c)%nat
          then snd (sq_cell_result a0 num_blocks i q)
          else mat_get (sq_term_counters_Q a0) p q).
Proof.
  intros Hwf Hi. induction c as [|c IH]; intros Hc.
  - cbn. repeat split; try apply Hwf.
    + intros p q _ _. destruct (decide _); [lia|reflexivity].
    + intros p q _ _. destruct (decide _); [lia|reflexivity].
  - cbv zeta. rewrite for_index_S.
    destruct (IH ltac:(lia)) as (Hwf' & Hs & Hcn & Hm & HQ & HC). clear IH.
    set (a := for_index c (fun j a => sq_cell num_blocks i j a) a0) in *.
    assert (Hcn' : (c < n)%nat) by lia.
    assert (Hres : sq_cell_result a num_blocks i c
                   = sq_cell_result a0 num_blocks i c).
    { unfold sq_cell_result. rewrite Hm, (HQ i c), (HC i c) by assumption.
      destruct (decide _); [lia|]. destruct (decide _); [lia|]. reflexivity. }
    pose proof (sq_cell_wf n num_blocks i c a Hwf' Hi Hcn') as Hwf''.
    rewrite (sq_cell_spec n) in * by assumption. cbv zeta in *.
    rewrite Hres in *.
    cbn [sq_statistic sq_Q sq_term_counters_statistic sq_term_counters_Q
         sq_mmds].
    destruct Hwf' as (_ & _ & _ & HQwf & HCwf).
    split; [exact Hwf''|]. split; [exact Hs|]. split; [exact Hcn|].
    split; [exact Hm|]. split.
    + intros p q Hp Hq.
      destruct (decide (p = c /\ q = i)) as [[-> ->]|Hne1].
      * rewrite (mat_get_set_eq n) by (try apply mat_set_wf; assumption).
        destruct (decide _); [|lia].
        rewrite Nat.min_l by lia. reflexivity.
      * rewrite (mat_get_set_ne n)
          by (try apply mat_set_wf; assumption).
        destruct (decide (p = i /\ q = c)) as [[-> ->]|Hne2].
        -- rewrite (mat_get_set_eq n) by assumption.
           destruct (decide _); [|lia].
           rewrite Nat.min_r by lia. reflexivity.
        -- rewrite (mat_get_set_ne n) by assumption.
           rewrite (HQ p q Hp Hq).
           destruct (decide _); destruct (decide _); try lia; reflexivity.
    + intros p q Hp Hq.
      destruct (decide (p = i /\ q = c)) as [[-> ->]|Hne].
      * rewrite (mat_get_set_eq n) by assumption.
        destruct (decide _); [|lia]. reflexivity.
      * rewrite (mat_get_set_ne n) by assumption.
        rewrite (HC p q Hp Hq).
        destruct (decide _); destruct (decide _); try lia; reflexivity.
Qed.

(** Rows below [r] of the lower triangle done. *)
Lemma sq_rows_spec (n num_blocks : nat) (a0 : QAcc) (r : nat) :
  sq_wf n a0 -> (r <= n)%nat ->
  let a := for_index r (fun i a =>
             for_index (S i) (fun j a => sq_cell num_blocks i j a) a) a0 in
  sq_wf n a
  /\ sq_statistic a = sq_statistic a0
  /\ sq_term_counters_statistic a = sq_term_counters_statistic a0
  /\ sq_mmds a = sq_mmds a0
  /\ (forall p q, (p < n)%nat -> (q < n)%nat ->
        mat_get (sq_Q a) p q
        = if decide (Nat.max p q < r)%nat
          then fst (sq_cell_result a0 num_blocks (Nat.max p q) (Nat.min p q))
          else mat_get (sq_Q a0) p q)
  /\ (forall p q, (p < n)%nat -> (q < n)%nat ->
        mat_get (sq_term_counters_Q a) p q
        = if decide (q <= p < r)%nat
          then snd (sq_cell_result a0 num_blocks p q)
          else mat_get (sq_term_counters_Q a0) p q).
Proof.
  intros Hwf. induction r as [|r IH]; intros Hr.
  - cbn. repeat split; try apply Hwf;
      intros p q _ _; destruct (decide _); (lia || reflexivity).
  - cbv zeta. rewrite for_index_S.
    destruct (IH ltac:(lia)) as (Hwf' & Hs & Hcn & Hm & HQ & HC). clear IH.
    set (a := for_index r _ a0) in *.
    assert (Hrn : (r < n)%nat) by lia.
    destruct (sq_row_spec n num_blocks r a (S r) Hwf' Hrn ltac:(lia))
      as (Hwf'' & Hs' & Hcn' & Hm' & HQ' & HC').
    cbv zeta in *.
    assert (Hres : forall j, (j <= r)%nat ->
              sq_cell_result a num_blocks r j
              = sq_cell_result a0 num_blocks r j).
    { intros j Hj. unfold sq_cell_result.
      rewrite Hm, (HQ r j), (HC r j) by lia.
      destruct (decide _); [lia|]. destruct (decide _); [lia|]. reflexivity. }
    split; [exact Hwf''|]. split; [congruence|]. split; [congruence|].
    split; [congruence|]. split.
    + intros p q Hp Hq. rewrite (HQ' p q Hp Hq).
      destruct (decide ((p = r /\ q < S r) \/ (q = r /\ p < S r))%nat)
        as [Hin|Hout].
      * destruct (decide _); [|lia]. rewrite Hres by lia.
        replace (Nat.max p q) with r by lia. reflexivity.
      * rewrite (HQ p q Hp Hq).
        destruct (decide _); destruct (decide _); try lia; reflexivity.
    + intros p q Hp Hq. rewrite (HC' p q Hp Hq).
      destruct (decide (p = r /\ q < S r)%nat) as [[-> Hin]|Hout].
      * destruct (decide _); [|lia]. rewrite Hres by lia. reflexivity.
      * rewrite (HC p q Hp Hq).
        destruct (decide _); destruct (decide _); try lia; reflexivity.
Qed.

(** The covariance loops of one burst: every cell of the lower triangle
    folds its own product terms, and the upper triangle mirrors it. *)
Lemma sq_fold_Q_spec (n num_blocks : nat) (a0 : QAcc) :
  sq_wf n a0 ->
  let a := sq_fold_Q n num_blocks a0 in
  sq_wf n a
  /\ sq_statistic a = sq_statistic a0
  /\ sq_term_counters_statistic a = sq_term_counters_statistic a0
  /\ (forall i j, (j <= i)%nat -> (i < n)%nat ->
        (mat_get (sq_Q a) i j, mat_get (sq_term_counters_Q a) i j)
        = sq_cell_result a0 num_blocks i j
        /\ mat_get (sq_Q a) j i = mat_get (sq_Q a) i j).
Proof.
  intros Hwf.
  destruct (sq_rows_spec n num_blocks a0 n Hwf (Nat.le_refl n))
    as (Hwf' & Hs & Hc & _ & HQ & HC).
  cbv zeta in *. unfold sq_fold_Q.
  split; [exact Hwf'|]. split; [exact Hs|]. split; [exact Hc|].
  intros i j Hji Hi.
  rewrite (HQ i j), (HQ j i), (HC i j) by lia.
  repeat (destruct (decide _); [|lia]).
  rewrite Nat.max_l, Nat.min_r, Nat.max_r, Nat.min_l by lia.
  split; [symmetry; apply surjective_pairing|reflexivity].
Qed.

End CovarianceLoops.

(* ================================================================== *)
(** ** Adjacent block pairs *)

Section AdjacentPairs.
Context {F : Type} `{SF : Scalar F}.

Lemma even_indices_below (t : nat) :
  filter (fun k => Nat.even k = true) (seq 0 (2 * t))
  = map (fun u => (2 * u)%nat) (seq 0 t)
  /\ filter (fun k => Nat.even k = true) (seq 0 (2 * t + 1))
     = map (fun u => (2 * u)%nat) (seq 0 (S t)).
Proof.
  induction t as [|t [IH0 IH1]].
  - split; reflexivity.
  - assert (H0 : filter (fun k => Nat.even k = true) (seq 0 (2 * S t))
                 = map (fun u => (2 * u)%nat) (seq 0 (S t))).
    { replace (2 * S t)%nat with (S (2 * t + 1)) by lia.
      rewrite seq_S, list.filter_app, IH1. cbn [Nat.add].
      rewrite filter_cons_False, filter_nil, app_nil_r; [reflexivity|].
      replace (2 * t + 1)%nat with (S (2 * t)) by lia.
      rewrite Nat.even_succ, <- Nat.negb_even, Nat.even_mul. cbn. discriminate. }
    split; [exact H0|].
    replace (2 * S t + 1)%nat with (S (2 * S t)) by lia.
    rewrite seq_S, list.filter_app, H0. cbn [Nat.add].
    rewrite filter_cons_True, filter_nil by (rewrite Nat.even_mul; reflexivity).
    rewrite (seq_S (S t)), map_app. reflexivity.
Qed.

Lemma pair_starts_even (t : nat) :
  pair_starts (2 * t) = map (fun u => (2 * u)%nat) (seq 0 t).
Proof.
  unfold pair_starts. destruct t as [|t].
  - reflexivity.
  - replace (2 * S t - 1)%nat with (2 * t + 1)%nat by lia.
    apply even_indices_below.
Qed.

Lemma pair_terms_zip (t : nat) (xs ys : list F) :
  length xs = (2 * t)%nat -> length ys = (2 * t)%nat ->
  map (fun u =>
         fmul32 (fsub32 (xs !!! (2 * u)%nat) (xs !!! (2 * u + 1)%nat))
                (fsub32 (ys !!! (2 * u)%nat) (ys !!! (2 * u + 1)%nat)))
      (seq 0 t)
  = zip_with fmul32 (pair_differences xs) (pair_differences ys).
Proof.
  revert xs ys. induction t as [|t IH]; intros xs ys Hx Hy.
  - destruct xs; [|discriminate]. reflexivity.
  - destruct xs as [|x0 [|x1 xs]]; try (simpl in Hx; lia).
    destruct ys as [|y0 [|y1 ys]]; try (simpl in Hy; lia).
    simpl in Hx, Hy.
    cbn [seq map]. rewrite <- seq_shift, map_map.
    unfold pair_differences in *. cbn [adjacent_pairs map zip_with fst snd].
    f_equal. rewrite <- (IH xs ys) by lia.
    apply map_ext. intros u.
    replace (2 * S u)%nat with (S (S (2 * u))) by lia.
    replace (S (S (2 * u)) + 1)%nat with (S (S (2 * u + 1))) by lia.
    reflexivity.
Qed.

(** The terms the pair loop reads are the products of the differences of
    adjacent blocks. *)
Lemma pair_terms_at_spec (mmds : list (list F)) (num_blocks i j : nat) :
  Nat.even num_blocks = true ->
  length (mmds !!! i) = num_blocks -> length (mmds !!! j) = num_blocks ->
  pair_terms_at mmds num_blocks i j
  = zip_with fmul32 (pair_differences (mmds !!! i))
                    (pair_differences (mmds !!! j)).
Proof.
  intros Heven Hi Hj. apply Nat.even_spec in Heven. destruct Heven as [t ->].
  unfold pair_terms_at. rewrite pair_starts_even, map_map.
  apply pair_terms_zip; assumption.
Qed.

End AdjacentPairs.

(* ================================================================== *)
(** ** [compute_statistic_and_Q]: one burst, then all of them *)

Section CovarianceSteps.
Context {F : Type} `{SF : Scalar F}.

Lemma burst_wf_length (n : nat) (mmds : list (list F)) (k : nat) :
  burst_wf n mmds -> (k < n)%nat ->
  length (mmds !!! k) = length (mmds !!! 0%nat).
Proof.
  intros (Hn & _ & Hall) Hk. rewrite List.Forall_forall in Hall.
  apply Hall. apply list_elem_of_In, list_elem_of_lookup_total_2. lia.
Qed.

Lemma sq_step_spec (n : nat) (mmds : list (list F)) (a : QAcc) :
  sq_wf n a -> burst_wf n mmds ->
  let a' := sq_step n mmds a in
  sq_wf n a'
  /\ (forall k, (k < n)%nat ->
        (sq_statistic a' !!! k, sq_term_counters_statistic a' !!! k)
        = fold_left wrap_update (mmds !!! k)
            (sq_statistic a !!! k, sq_term_counters_statistic a !!! k))
  /\ (forall i j, (j <= i)%nat -> (i < n)%nat ->
        (mat_get (sq_Q a') i j, mat_get (sq_term_counters_Q a') i j)
        = fold_left wrap_update
            (zip_with fmul32 (pair_differences (mmds !!! i))
                             (pair_differences (mmds !!! j)))
            (mat_get (sq_Q a) i j, mat_get (sq_term_counters_Q a) i j)
        /\ mat_get (sq_Q a') j i = mat_get (sq_Q a') i j).
Proof.
  intros Hwf Hb. pose proof Hb as (Hn & Heven & Hall).
  cbv zeta. unfold sq_step.
  set (num_blocks := length (mmds !!! 0%nat)) in *.
  destruct (sq_kernels_spec n num_blocks mmds 0 a Hwf ltac:(lia) Hall)
    as (Hwf1 & HQ1 & HC1 & Hm1 & Hs1).
  cbv zeta in *.
  set (a1 := fold_indexed (sq_consume_kernel num_blocks) 0 mmds a) in *.
  destruct (sq_fold_Q_spec n num_blocks a1 Hwf1) as (Hwf2 & Hs2 & Hc2 & HQ2).
  cbv zeta in *.
  split; [exact Hwf2|]. split.
  - intros k Hk. rewrite Hs2, Hc2, (Hs1 k Hk).
    destruct (decide _); [|lia]. rewrite Nat.sub_0_r. reflexivity.
  - intros i j Hji Hi. destruct (HQ2 i j Hji Hi) as [Hcell Hsym].
    split; [|exact Hsym]. rewrite Hcell. unfold sq_cell_result.
    rewrite HQ1, HC1.
    assert (Hterms : pair_terms_at (sq_mmds a1) num_blocks i j
                     = pair_terms_at mmds num_blocks i j).
    { unfold pair_terms_at. rewrite (Hm1 i), (Hm1 j) by lia.
      repeat (destruct (decide _); [|lia]). rewrite !Nat.sub_0_r.
      reflexivity. }
    rewrite Hterms, pair_terms_at_spec
      by (try exact Heven; apply (burst_wf_length n); (exact Hb || lia)).
    reflexivity.
Qed.

(** Over the bursts of a pass, every statistic accumulator folds the
    scalars of its kernel, every cell of the lower triangle folds its
    product terms, and the matrix stays symmetric. *)
Lemma sq_steps_spec (n : nat) (results : list (list (list F))) (a : QAcc) :
  sq_wf n a -> Forall (burst_wf n) results ->
  (forall i j, (j <= i)%nat -> (i < n)%nat ->
     mat_get (sq_Q a) j i = mat_get (sq_Q a) i j) ->
  let a' := fold_left (fun a mmds => sq_step n mmds a) results a in
  (forall k, (k < n)%nat ->
     (sq_statistic a' !!! k, sq_term_counters_statistic a' !!! k)
     = fold_left wrap_update (kernel_scalars k results)
         (sq_statistic a !!! k, sq_term_counters_statistic a !!! k))
  /\ (forall i j, (j <= i)%nat -> (i < n)%nat ->
        (mat_get (sq_Q a') i j, mat_get (sq_term_counters_Q a') i j)
        = fold_left wrap_update (Q_terms i j results)
            (mat_get (sq_Q a) i j, mat_get (sq_term_counters_Q a) i j)
        /\ mat_get (sq_Q a') j i = mat_get (sq_Q a') i j).
Proof.
  intros Hwf Hres. revert a Hwf.
  induction Hres as [|mmds results Hb _ IH]; intros a Hwf Hsym; cbv zeta.
  - split; [intros; reflexivity|]. intros i j Hji Hi.
    split; [reflexivity|apply Hsym; assumption].
  - cbn [fold_left].
    destruct (sq_step_spec n mmds a Hwf Hb) as (Hwf1 & Hs1 & HQ1).
    cbv zeta in *.
    destruct (IH (sq_step n mmds a) Hwf1
                (fun i j Hji Hi => proj2 (HQ1 i j Hji Hi))) as [Hs HQ].
    split.
    + intros k Hk. rewrite (Hs k Hk), (Hs1 k Hk).
      unfold kernel_scalars. cbn [map concat]. rewrite fold_left_app.
      reflexivity.
    + intros i j Hji Hi. destruct (HQ i j Hji Hi) as [Hcell Hsym'].
      split; [|exact Hsym'].
      rewrite Hcell, (proj1 (HQ1 i j Hji Hi)).
      unfold Q_terms. cbn [map concat]. rewrite fold_left_app. reflexivity.
Qed.

End CovarianceSteps.

(* ================================================================== *)
(** ** [compute_statistic_and_Q]: the run *)

Section MultiKernelRun.
Context {F : Type} `{SF : Scalar F} `{CF : Collaborators F}.

Lemma for_each_by_value_unchanged {A} (f : A -> A) (v : list A) :
  for_each_by_value f v = v.
Proof.
  unfold for_each_by_value. generalize v at 2 3 as range.
  induction v as [|x v IH]; intros range; [reflexivity|apply IH].
Qed.

Lemma kernels_results_length (gpu : bool) (job : Job)
  (gram : Kernel -> Features -> KMatrix) (kernels : list Kernel)
  (blocks : list Features) (g : Rng) :
  let r := fst (kernels_results gpu job gram kernels blocks g) in
  length r = length kernels
  /\ Forall (fun mmd : list F => length mmd = length blocks) r.
Proof.
  revert g. induction kernels as [|kernel kernels IH]; intros g; cbn.
  - split; [reflexivity|constructor].
  - pose proof (run_blocks_length gpu [job] (map (gram kernel) blocks) g) as Hr.
    destruct (run_blocks gpu [job] (map (gram kernel) blocks) g) as [rows g1].
    destruct (IH g1) as [Hl Hall].
    destruct (kernels_results gpu job gram kernels blocks g1) as [more g2].
    cbn in *. split; [rewrite Hl; reflexivity|].
    constructor; [|exact Hall].
    rewrite length_map, Hr, length_map. reflexivity.
Qed.

(** The kernel loop of one burst when no kernel matrix fails. *)
Lemma sq_kernel_loop_gram (s : Self) (cm : ComputationManager) (job : Job)
  (gram : Kernel -> Features -> KMatrix) (blocks : list Features)
  (num_blocks : nat) (kernels : list Kernel) (k0 : nat) (a : QAcc) (g : Rng) :
  job_array cm = [job] ->
  Forall (fun kernel =>
            is_custom kernel = false
            /\ Forall (fun block =>
                         get_kernel_matrix kernel block
                         = inr (gram kernel block)) blocks) kernels ->
  for_each_indexed (sq_kernel s cm blocks num_blocks) k0 kernels a g
  = (Ok (fold_indexed (sq_consume_kernel num_blocks) k0
           (fst (kernels_results (use_gpu s) job gram kernels blocks g)) a),
     snd (kernels_results (use_gpu s) job gram kernels blocks g)).
Proof.
  intros Hjob Hall. revert k0 a g.
  induction Hall as [|kernel kernels [Hc Hg] _ IH]; intros k0 a g.
  - reflexivity.
  - cbn [for_each_indexed kernels_results].
    unfold bind at 1. unfold sq_kernel at 1. unfold bind, lift, draw, ret.
    rewrite (compute_kernel_gram _ _ _ _ Hc Hg).
    unfold compute_jobs, compute_data_parallel_jobs. cbn [cm_use cm_set_data
      cm_gpu job_array data_array].
    rewrite Hjob.
    destruct (run_blocks (use_gpu s) [job] (map (gram kernel) blocks) g)
      as [rows g1].
    rewrite IH.
    destruct (kernels_results (use_gpu s) job gram kernels blocks g1)
      as [more g2].
    reflexivity.
Qed.

Lemma sq_burst_gram (s : Self) (cm : ComputationManager) (job : Job)
  (gram : Kernel -> Features -> KMatrix) (b : Burst) (a : QAcc) (g : Rng) :
  job_array cm = [job] ->
  kernel_selection_mgr s <> [] ->
  Nat.even (num_blocks b) = true ->
  Forall (fun kernel =>
            is_custom kernel = false
            /\ Forall (fun block =>
                         get_kernel_matrix kernel block
                         = inr (gram kernel block)) (merge_samples b))
    (kernel_selection_mgr s) ->
  let produce b :=
    kernels_results (use_gpu s) job gram (kernel_selection_mgr s)
      (merge_samples b) in
  sq_burst s cm b a g
  = (Ok (sq_step (length (kernel_selection_mgr s)) (fst (produce b g)) a),
     snd (produce b g)).
Proof.
  intros Hjob Hne Heven Hall produce. unfold sq_burst. rewrite Heven.
  cbn [negb]. unfold bind.
  rewrite (sq_kernel_loop_gram s cm job gram _ _ _ 0 a g Hjob Hall).
  subst produce. cbv beta. unfold ret, sq_step.
  destruct (kernels_results_length (use_gpu s) job gram
              (kernel_selection_mgr s) (merge_samples b) g) as [Hl Hlen].
  cbv zeta in *.
  destruct (kernels_results (use_gpu s) job gram (kernel_selection_mgr s)
              (merge_samples b) g) as [mmds g1].
  cbn [fst snd] in *.
  assert (Hnb : length (mmds !!! 0%nat) = num_blocks b).
  { destruct mmds as [|mmd mmds].
    - destruct (kernel_selection_mgr s); [congruence|discriminate].
    - inversion Hlen as [|? ? Hm _]; subst. cbn.
      rewrite Hm. unfold merge_samples, num_blocks. apply length_map. }
  rewrite Hnb. reflexivity.
Qed.

Lemma kernels_compute_burst (kernels : list Kernel)
  (gram : Kernel -> Features -> KMatrix) (pending : list Burst) (b : Burst) :
  kernels_compute kernels gram pending -> In b (delivered pending) ->
  Forall (fun kernel =>
            is_custom kernel = false
            /\ Forall (fun block =>
                         get_kernel_matrix kernel block
                         = inr (gram kernel block)) (merge_samples b))
    kernels.
Proof.
  intros Hall Hin. unfold kernels_compute in Hall.
  rewrite List.Forall_forall in *. intros kernel Hk.
  destruct (Hall kernel Hk) as [Hc Hg]. split; [exact Hc|].
  exact (kernel_computes_burst _ _ _ _ Hg Hin).
Qed.

Lemma multi_kernel_results_wf (gpu : bool) (job : Job)
  (gram : Kernel -> Features -> KMatrix) (kernels : list Kernel)
  (bursts : list Burst) (g : Rng) :
  kernels <> [] ->
  Forall (fun b => Nat.even (num_blocks b) = true) bursts ->
  Forall (burst_wf (length kernels))
    (fst (multi_kernel_results gpu job gram kernels bursts g)).
Proof.
  intros Hne Heven. unfold multi_kernel_results. revert g.
  induction Heven as [|b bursts Hb _ IH]; intros g; cbn.
  - constructor.
  - destruct (kernels_results_length gpu job gram kernels (merge_samples b) g)
      as [Hl Hlen].
    cbv zeta in *.
    destruct (kernels_results gpu job gram kernels (merge_samples b) g)
      as [mmds g1].
    specialize (IH g1).
    destruct (per_burst _ bursts g1) as [more g2]. cbn in *.
    constructor; [|exact IH].
    assert (Hnb : length (mmds !!! 0%nat) = num_blocks b).
    { destruct mmds as [|mmd mmds].
      - destruct kernels; [congruence|discriminate].
      - inversion Hlen as [|? ? Hm _]; subst. cbn.
        rewrite Hm. unfold merge_samples, num_blocks. apply length_map. }
    split; [exact Hl|]. rewrite Hnb. split; [exact Hb|].
    unfold merge_samples, num_blocks in *. rewrite length_map in Hlen.
    exact Hlen.
Qed.

(** The run of [compute_statistic_and_Q] when no kernel matrix fails and
    every burst is even. *)
Lemma compute_statistic_and_Q_run (m : CMMD)
  (gram : Kernel -> Features -> KMatrix) :
  kernel_selection_mgr (self m) <> [] ->
  kernels_compute (kernel_selection_mgr (self m)) gram
    (dm_pending (data_manager m)) ->
  even_bursts (dm_pending (data_manager m)) ->
  let n := length (kernel_selection_mgr (self m)) in
  let a := fold_left (fun a mmds => sq_step n mmds a) (mk_results m gram)
             (sq_init n) in
  fst (compute_statistic_and_Q m) = Ok (sq_statistic a, sq_Q a).
Proof.
  intros Hne Hk Heven. unfold compute_statistic_and_Q.
  destruct (length (kernel_selection_mgr (self m)) =? 0)%nat eqn:Hn.
  { apply Nat.eqb_eq, length_zero_iff_nil in Hn. contradiction. }
  cbv zeta.
  rewrite (while_next_per_burst _
             (fun b => kernels_results (use_gpu (self m))
                         (statistic_job (create_computation_jobs (self m)
                                           (data_manager m)))
                         gram (kernel_selection_mgr (self m))
                         (merge_samples b))
             (sq_step (length (kernel_selection_mgr (self m))))).
  - cbn [fst]. rewrite for_each_by_value_unchanged. reflexivity.
  - intros b Hin a g. cbn [dm_start dm_pending] in Hin.
    unfold even_bursts in Heven. rewrite List.Forall_forall in Heven.
    match goal with
    | |- sq_burst _ ?cm _ _ _ = _ =>
        exact (sq_burst_gram (self m) cm _ gram b a g eq_refl Hne
                 (Heven b Hin) (kernels_compute_burst _ _ _ _ Hk Hin))
    end.
Qed.

End MultiKernelRun.

(* ================================================================== *)
(** ** [sample_null] *)

Section NullSampling.
Context {F : Type} `{SF : Scalar F} `{CF : Collaborators F}.

Lemma for_each_by_reference_map {A} (f : A -> A) (v : list A) :
  for_each_by_reference f v = map f v.
Proof.
  unfold for_each_by_reference, for_index.
  assert (Hgen : forall (done todo : list A),
            fold_left (fun range i =>
                         match range !! i with
                         | Some x => <[i := f x]> range
                         | None => range
                         end)
              (seq (length done) (length todo)) (map f done ++ todo)
            = map f (done ++ todo)).
  { intros done todo. revert done.
    induction todo as [|x todo IH]; intros done.
    - cbn. rewrite !app_nil_r. reflexivity.
    - cbn [length seq fold_left].
      rewrite list_lookup_middle by (rewrite length_map; reflexivity).
      rewrite insert_app_r_alt by (rewrite length_map; lia).
      rewrite length_map, Nat.sub_diag. cbn [insert list_insert].
      specialize (IH (done ++ [x])).
      rewrite length_app, Nat.add_1_r, map_app, <- !app_assoc in IH.
      exact IH. }
  exact (Hgen [] v).
Qed.

Lemma sn_fold_spec (j : nat) (mmds : list F) (a : SNAcc) :
  (j < length (sn_statistic a))%nat -> (j < length (sn_term_counters a))%nat ->
  sn_fold j mmds a
  = let r := fold_left wrap_update mmds
               (sn_statistic a !!! j, sn_term_counters a !!! j) in
    {| sn_statistic := <[j := fst r]> (sn_statistic a);
       sn_term_counters := <[j := snd r]> (sn_term_counters a) |}.
Proof.
  intros Hs Hc. unfold sn_fold.
  rewrite (for_index_lookup (fun x a =>
    {| sn_statistic :=
         <[j := (sn_statistic a !!! j
                 + (x - sn_statistic a !!! j)
                   / of_index (sn_term_counters a !!! j))%F]>
           (sn_statistic a);
       sn_term_counters :=
         <[j := index_succ (sn_term_counters a !!! j)]> (sn_term_counters a) |})).
  pose proof (vec_update_fold j mmds (sn_statistic a, sn_term_counters a) Hs Hc)
    as Hv.
  cbv zeta in *. cbn [fst snd] in Hv.
  transitivity {| sn_statistic :=
                    fst (fold_left (vec_update j) mmds
                           (sn_statistic a, sn_term_counters a));
                  sn_term_counters :=
                    snd (fold_left (vec_update j) mmds
                           (sn_statistic a, sn_term_counters a)) |}.
  - clear Hv Hs Hc. revert a. induction mmds as [|x mmds IH]; intros a.
    + destruct a; reflexivity.
    + cbn [fold_left]. rewrite IH. reflexivity.
  - rewrite Hv. reflexivity.
Qed.

(** The replicates of one burst: replicate [j] folds its own scalars into
    its own accumulator. *)
Lemma sn_step_spec (replicates : nat) (mmds : list (list F)) (k0 : nat)
  (a : SNAcc) :
  sn_wf replicates a -> (k0 + length mmds <= replicates)%nat ->
  let a' := fold_indexed sn_fold k0 mmds a in
  sn_wf replicates a'
  /\ (forall j, (j < replicates)%nat ->
        (sn_statistic a' !!! j, sn_term_counters a' !!! j)
        = let v := (sn_statistic a !!! j, sn_term_counters a !!! j) in
          if decide (k0 <= j < k0 + length mmds)%nat
          then fold_left wrap_update (mmds !!! (j - k0)%nat) v else v).
Proof.
  revert k0 a. induction mmds as [|mmd mmds IH]; intros k0 a Hwf Hk0; cbv zeta.
  - cbn. split; [exact Hwf|].
    intros j Hj. destruct (decide _); [lia|reflexivity].
  - simpl in Hk0. cbn [fold_indexed].
    destruct Hwf as [Hs Hc].
    pose proof (sn_fold_spec k0 mmd a ltac:(lia) ltac:(lia)) as Hspec.
    cbv zeta in Hspec.
    assert (Hwf1 : sn_wf replicates (sn_fold k0 mmd a)).
    { rewrite Hspec. split; cbn; rewrite length_insert; assumption. }
    set (a1 := sn_fold k0 mmd a) in *.
    destruct (IH (S k0) a1 Hwf1 ltac:(lia)) as [Hwf' Hst]. cbv zeta in Hst.
    split; [exact Hwf'|].
    intros j Hj. rewrite (Hst j Hj), Hspec.
    cbn [sn_statistic sn_term_counters length].
    destruct (decide (S k0 <= j < S k0 + length mmds)%nat) as [Hin|Hout].
    + destruct (decide _); [|lia].
      replace (j - k0)%nat with (S (j - S k0)) by lia.
      rewrite !list_lookup_total_insert_ne by lia. reflexivity.
    + destruct (decide (j = k0)) as [->|Hne].
      * destruct (decide _); [|lia].
        rewrite Nat.sub_diag, !list_lookup_total_insert_eq by lia.
        cbn. rewrite <- surjective_pairing. reflexivity.
      * destruct (decide _); [lia|].
        rewrite !list_lookup_total_insert_ne by lia. reflexivity.
Qed.

Lemma sn_steps_spec (replicates : nat) (results : list (list (list F)))
  (a : SNAcc) :
  sn_wf replicates a ->
  Forall (fun mmds : list (list F) => length mmds = replicates) results ->
  let a' := fold_left (fun a mmds => sn_step mmds a) results a in
  sn_wf replicates a'
  /\ (forall j, (j < replicates)%nat ->
        (sn_statistic a' !!! j, sn_term_counters a' !!! j)
        = fold_left wrap_update (replicate_scalars j results)
            (sn_statistic a !!! j, sn_term_counters a !!! j)).
Proof.
  intros Hwf Hres. revert a Hwf.
  induction Hres as [|mmds results Hl _ IH]; intros a Hwf; cbv zeta.
  - split; [exact Hwf|reflexivity].
  - cbn [fold_left].
    destruct (sn_step_spec replicates mmds 0 a Hwf ltac:(lia)) as [Hwf1 Hs1].
    cbv zeta in Hs1. fold (sn_step mmds a) in *.
    destruct (IH (sn_step mmds a) Hwf1) as [Hwf' Hs]. cbv zeta in Hs.
    split; [exact Hwf'|].
    intros j Hj. rewrite (Hs j Hj), (Hs1 j Hj).
    destruct (decide _); [|lia]. rewrite Nat.sub_0_r.
    unfold replicate_scalars. cbn [map concat]. rewrite fold_left_app.
    reflexivity.
Qed.

Lemma replicate_results_length (gpu : bool) (job : Job) (data : list KMatrix)
  (replicates : nat) (g : Rng) :
  let r := fst (replicate_results gpu job data replicates g) in
  length r = replicates
  /\ Forall (fun mmd : list F => length mmd = length data) r.
Proof.
  revert g. induction replicates as [|n IH]; intros g; cbn.
  - split; [reflexivity|constructor].
  - pose proof (run_blocks_length gpu [job] data g) as Hr.
    destruct (run_blocks gpu [job] data g) as [rows g1].
    destruct (IH g1) as [Hl Hall].
    destruct (replicate_results gpu job data n g1) as [more g2].
    cbn in *. split; [rewrite Hl; reflexivity|].
    constructor; [|exact Hall]. rewrite length_map. exact Hr.
Qed.

Lemma sn_replicates_from (s : Self) (cm : ComputationManager) (job : Job)
  (n j0 : nat) (a : SNAcc) (g : Rng) :
  job_array cm = [job] ->
  fold_left (fun st j =>
               let '(cm2, g1) := compute_jobs s cm (snd st) in
               (sn_fold j (result cm2 0) (fst st), g1))
    (seq j0 n) (a, g)
  = (fold_indexed sn_fold j0
       (fst (replicate_results (use_gpu s) job (data_array cm) n g)) a,
     snd (replicate_results (use_gpu s) job (data_array cm) n g)).
Proof.
  intros Hjob. revert j0 a g. induction n as [|n IH]; intros j0 a g.
  - reflexivity.
  - match goal with
    | |- fold_left ?f _ _ = _ => set (body := f) in *
    end.
    cbn [seq fold_left replicate_results].
    unfold body at 2. cbn [fst snd].
    unfold compute_jobs, compute_data_parallel_jobs.
    cbn [cm_use cm_gpu job_array data_array]. rewrite Hjob.
    destruct (run_blocks (use_gpu s) [job] (data_array cm) g) as [rows g1].
    rewrite IH.
    destruct (replicate_results (use_gpu s) job (data_array cm) n g1)
      as [more g2].
    reflexivity.
Qed.

Lemma sn_burst_gram (s : Self) (cm : ComputationManager) (job : Job)
  (kernel : Kernel) (gram : Features -> KMatrix) (b : Burst) (a : SNAcc)
  (g : Rng) :
  job_array cm = [job] ->
  is_custom kernel = false ->
  Forall (fun block => get_kernel_matrix kernel block = inr (gram block))
    (merge_samples b) ->
  let produce b :=
    replicate_results (use_gpu s) job (map gram (merge_samples b))
      (Z.to_nat (num_null_samples s)) in
  sn_burst s cm kernel b a g
  = (Ok (sn_step (fst (produce b g)) a), snd (produce b g)).
Proof.
  intros Hjob Hc Hg produce. unfold sn_burst, bind, lift, draw.
  rewrite (compute_kernel_gram _ _ _ _ Hc Hg).
  unfold sn_replicates, for_index.
  rewrite (sn_replicates_from s _ job) by exact Hjob.
  reflexivity.
Qed.

Lemma null_results_shape (gpu : bool) (job : Job) (gram : Features -> KMatrix)
  (replicates : nat) (bursts : list Burst) (g : Rng) :
  let results := fst (null_results gpu job gram replicates bursts g) in
  Forall (fun mmds : list (list F) => length mmds = replicates) results
  /\ forall j, (j < replicates)%nat ->
       length (replicate_scalars j results)
       = length (concat (map merge_samples bursts)).
Proof.
  unfold null_results, replicate_scalars. revert g.
  induction bursts as [|b bursts IH]; intros g; cbn.
  - split; [constructor|reflexivity].
  - destruct (replicate_results_length gpu job (map gram (merge_samples b))
                replicates g) as [Hl Hlen].
    cbv zeta in *.
    destruct (replicate_results gpu job (map gram (merge_samples b))
                replicates g) as [mmds g1].
    destruct (IH g1) as [Hall Hsc].
    destruct (per_burst _ bursts g1) as [more g2]. cbn in *.
    split; [constructor; assumption|].
    intros j Hj. rewrite !length_app, (Hsc j Hj). f_equal.
    rewrite List.Forall_forall in Hlen.
    rewrite (Hlen (mmds !!! j)), length_map; [reflexivity|].
    apply list_elem_of_In, list_elem_of_lookup_total_2. lia.
Qed.

(** The run of [sample_null] when no kernel matrix fails. *)
Lemma sample_null_run (m : CMMD) (kernel : Kernel)
  (gram : Features -> KMatrix) :
  kernel_at (kernel_manager m) 0 = Some kernel ->
  is_custom kernel = false ->
  kernel_computes kernel gram (dm_pending (data_manager m)) ->
  (0 <= num_null_samples (self m))%Z ->
  let a := fold_left (fun a mmds => sn_step mmds a) (sn_results m gram)
             (sn_filled (Z.to_nat (num_null_samples (self m)))) in
  fst (sample_null m) = Ok (map normalize_statistic (sn_statistic a)).
Proof.
  intros Hk Hc Hg HR. unfold sample_null. rewrite Hk.
  unfold sn_init.
  destruct (Z.ltb_spec (num_null_samples (self m)) 0) as [Hneg|_]; [lia|].
  unfold create_statistic_job at 1. cbv zeta.
  rewrite (while_next_per_burst _
             (fun b => replicate_results (use_gpu (self m))
                         (snd (create_statistic_job (self m) (data_manager m)))
                         (map gram (merge_samples b))
                         (Z.to_nat (num_null_samples (self m))))
             sn_step).
  - cbn [fst]. rewrite for_each_by_reference_map. reflexivity.
  - intros b Hin a g. cbn [dm_start dm_pending] in Hin.
    match goal with
    | |- sn_burst _ ?cm _ _ _ _ = _ =>
        exact (sn_burst_gram (self m) cm _ kernel gram b a g eq_refl Hc
                 (kernel_computes_burst _ _ _ _ Hg Hin))
    end.
Qed.

End NullSampling.

(* ================================================================== *)
(** ** The statistic/variance estimator *)

(** C1: with the variance-estimation method set to permutation, the
    variance [compute_statistic_variance] returns is the normalised
    accumulator of the one-pass streaming rule folded over the per-block
    permutation scalars in stream order: for each scalar the running mean
    is updated first, then the accumulator grows by
    [(v - old_mean) * (v - updated_mean)]. *)
Theorem permutation_variance_is_one_pass {F : Type} `{SF : Scalar F}
  `{CF : Collaborators F} (m : CMMD) (kernel : Kernel)
  (gram : Features -> KMatrix) :
  variance_estimation_method (self m) = VEM_PERMUTATION ->
  kernel_at (kernel_manager m) 0 = Some kernel ->
  is_custom kernel = false ->
  kernel_computes kernel gram (dm_pending (data_manager m)) ->
  (Z.of_nat (length (stream_blocks (dm_pending (data_manager m)))) < index_max)%Z ->
  (forall mean variance n v,
     one_pass_update (mean, variance, n) v
     = ((mean + (v - mean) / of_index n)%F,
        (variance + (v - mean) * (v - (mean + (v - mean) / of_index n)))%F,
        (n + 1)%Z))
  /\ result_map snd (fst (compute_statistic_variance m))
     = Ok (normalize_variance
             (snd (fst (fold_left one_pass_update (variance_scalars m gram)
                          (fzero, fzero, 1%Z))))).
Proof.
  intros Hv Hk Hc Hg Hlen. split; [reflexivity|].
  rewrite (compute_statistic_variance_ok m kernel gram Hk Hc Hg Hlen), Hv.
  reflexivity.
Qed.

Lemma permutation_variance_is_one_pass_witness :
  let m := set_variance_estimation_method
             (Toy.engine Toy.stream (Toy.Gaussian 1)) VEM_PERMUTATION in
  result_map snd (fst (compute_statistic_variance m))
  = Ok (normalize_variance
          (snd (fst (fold_left one_pass_update
                       (variance_scalars m (Toy.toy_gram (Toy.Gaussian 1)))
                       (fzero, fzero, 1%Z))))).
Proof.
  cbv zeta.
  apply (permutation_variance_is_one_pass
           (set_variance_estimation_method
              (Toy.engine Toy.stream (Toy.Gaussian 1)) VEM_PERMUTATION)
           (Toy.Gaussian 1) (Toy.toy_gram (Toy.Gaussian 1))).
  - reflexivity.
  - reflexivity.
  - reflexivity.
  - vm_compute. repeat constructor.
  - vm_compute. reflexivity.
Defined.

(** C2, in exact arithmetic: folding any finite sequence of scalars,
    however it is cut into bursts, through the statistic loop of
    [compute_statistic_variance] (counter starting at 1, incremented after
    each update) leaves the arithmetic mean of the sequence, whatever the
    feed order.  The counter is an [index_t]: the sequence is shorter than
    its largest value. *)
Theorem online_mean_is_arithmetic_mean (bursts bursts' : list (list Qc)) :
  (Z.of_nat (length (concat bursts)) < index_max)%Z ->
  Permutation (concat bursts) (concat bursts') ->
  sv_mean_of_bursts bursts = arithmetic_mean (concat bursts)
  /\ sv_mean_of_bursts bursts' = sv_mean_of_bursts bursts.
Proof.
  intros Hlen Hperm.
  assert (Hlen' : (Z.of_nat (length (concat bursts')) < index_max)%Z).
  { rewrite <- (Permutation_length Hperm). exact Hlen. }
  rewrite !sv_mean_of_bursts_online, !online_mean_exact by assumption.
  split; [reflexivity|].
  symmetry. apply arithmetic_mean_Permutation. exact Hperm.
Qed.

Lemma online_mean_is_arithmetic_mean_witness :
  let one := Qc_of_Z 1 in
  let two := Qc_of_Z 2 in
  let six := Qc_of_Z 6 in
  sv_mean_of_bursts [[one; two]; [six]] = arithmetic_mean [one; two; six]
  /\ sv_mean_of_bursts [[two]; [one; six]] = sv_mean_of_bursts [[one; two]; [six]].
Proof.
  cbv zeta.
  apply (online_mean_is_arithmetic_mean
           [[Qc_of_Z 1; Qc_of_Z 2]; [Qc_of_Z 6]]
           [[Qc_of_Z 2]; [Qc_of_Z 1; Qc_of_Z 6]]).
  - vm_compute. reflexivity.
  - simpl. apply perm_swap.
Defined.

(** C2 fails in binary64: no relative tolerance below one half holds for
    every sequence.  Fed 2^53, 1, -2^53, 1 the loop leaves one quarter,
    half of the arithmetic mean one half of the four values (which the
    order 1, 1, 2^53, -2^53 does leave). *)
Lemma online_mean_binary64_outside_tolerance :
  ~ (exists tolerance : Qc,
       (tolerance < Q2Qc (1 # 2))%Qc
       /\ forall values : list float,
            within_tolerance tolerance
              (float_value (sv_mean_of_bursts [values]))
              (arithmetic_mean (map float_value values))).
Proof.
  intros (tolerance & Hlt & Hall).
  specialize (Hall [9007199254740992; 1; -9007199254740992; 1]%float).
  unfold within_tolerance in Hall.
  assert (Hcomputed :
            float_value
              (sv_mean_of_bursts
                 [[9007199254740992; 1; -9007199254740992; 1]]%float)
            = Q2Qc (1 # 4))
    by (apply Qc_is_canon; vm_compute; reflexivity).
  assert (Hexact :
            arithmetic_mean
              (map float_value
                 [9007199254740992; 1; -9007199254740992; 1]%float)
            = Q2Qc (1 # 2))
    by (apply Qc_is_canon; vm_compute; reflexivity).
  rewrite Hcomputed, Hexact in Hall.
  assert (Hdiff : Qcabs.Qcabs (Q2Qc (1 # 4) - Q2Qc (1 # 2))%Qc = Q2Qc (1 # 4))
    by (apply Qc_is_canon; vm_compute; reflexivity).
  assert (Hhalf : Qcabs.Qcabs (Q2Qc (1 # 2)) = Q2Qc (1 # 2))
    by (apply Qc_is_canon; vm_compute; reflexivity).
  rewrite Hdiff, Hhalf in Hall.
  assert (Hpos : (0 < Q2Qc (1 # 2))%Qc) by (vm_compute; reflexivity).
  apply (Qcmult_lt_mono_pos_r _ _ _ Hpos) in Hlt.
  assert (Hquarter : (Q2Qc (1 # 2) * Q2Qc (1 # 2))%Qc = Q2Qc (1 # 4))
    by (apply Qc_is_canon; vm_compute; reflexivity).
  rewrite Hquarter in Hlt.
  exact (Qclt_not_le _ _ Hlt Hall).
Qed.

(** C4: on one engine state, [compute_statistic] returns what
    [compute_statistic_variance] returns as first component and leaves the
    engine in the same state; that value is the normalisation rule applied
    once to the accumulated running mean of the raw statistic scalars. *)
Theorem compute_statistic_normalized_once {F : Type} `{SF : Scalar F}
  `{CF : Collaborators F} (m : CMMD) (kernel : Kernel)
  (gram : Features -> KMatrix) :
  kernel_at (kernel_manager m) 0 = Some kernel ->
  is_custom kernel = false ->
  kernel_computes kernel gram (dm_pending (data_manager m)) ->
  (Z.of_nat (length (stream_blocks (dm_pending (data_manager m)))) < index_max)%Z ->
  compute_statistic m
  = (result_map fst (fst (compute_statistic_variance m)),
     snd (compute_statistic_variance m))
  /\ fst (compute_statistic m)
     = Ok (normalize_statistic (online_mean (statistic_scalars m gram))).
Proof.
  intros Hk Hc Hg Hlen.
  pose proof (compute_statistic_variance_ok m kernel gram Hk Hc Hg Hlen) as Hrun.
  unfold compute_statistic.
  destruct (compute_statistic_variance m) as [[p|e] m']; cbn in *.
  - split; [reflexivity|]. inversion Hrun; subst. reflexivity.
  - discriminate.
Qed.

Lemma compute_statistic_normalized_once_witness :
  let m := Toy.engine Toy.stream (Toy.Gaussian 1) in
  compute_statistic m
  = (result_map fst (fst (compute_statistic_variance m)),
     snd (compute_statistic_variance m))
  /\ fst (compute_statistic m)
     = Ok (normalize_statistic
             (online_mean (statistic_scalars m (Toy.toy_gram (Toy.Gaussian 1))))).
Proof.
  cbv zeta.
  apply (compute_statistic_normalized_once
           (Toy.engine Toy.stream (Toy.Gaussian 1))
           (Toy.Gaussian 1) (Toy.toy_gram (Toy.Gaussian 1))).
  - reflexivity.
  - reflexivity.
  - vm_compute. repeat constructor.
  - vm_compute. reflexivity.
Defined.

(** C9: with no kernel bound in slot 0, [compute_statistic_variance] and
    [sample_null] each fail with "Kernel is not set!" and leave the engine
    exactly as it was: the stream is not started, nothing is fetched and no
    result is produced. *)
Theorem kernel_not_set_fails_immediately {F : Type} `{SF : Scalar F}
  `{CF : Collaborators F} (m : CMMD) :
  kernel_at (kernel_manager m) 0 = None ->
  compute_statistic_variance m = (Throw Kernel_is_not_set, m)
  /\ sample_null m = (Throw Kernel_is_not_set, m).
Proof.
  intros Hk. unfold compute_statistic_variance, sample_null.
  rewrite Hk. split; reflexivity.
Qed.

Lemma kernel_not_set_fails_immediately_witness :
  let m := CMMD_new (Toy.data Toy.stream) [None] 1%float in
  compute_statistic_variance m = (Throw Kernel_is_not_set, m)
  /\ sample_null m = (Throw Kernel_is_not_set, m).
Proof.
  cbv zeta.
  apply (kernel_not_set_fails_immediately
           (CMMD_new (Toy.data Toy.stream) [None] 1%float)).
  reflexivity.
Defined.

(* ================================================================== *)
(** ** The configuration surface *)

Section Configuration.
Context {F : Type} `{SF : Scalar F} `{CF : Collaborators F}.

Lemma last_nonempty {A} (x d d' : A) (l : list A) :
  List.last (x :: l) d = List.last (x :: l) d'.
Proof.
  revert x. induction l as [|y l IH]; intros x; [reflexivity|].
  change (List.last (y :: l) d = List.last (y :: l) d'). apply IH.
Qed.

Lemma last_cons {A} (x d : A) (l : list A) :
  List.last (x :: l) d = List.last l x.
Proof.
  destruct l as [|y l]; [reflexivity|].
  change (List.last (y :: l) d = List.last (y :: l) x). apply last_nonempty.
Qed.

Lemma getter_after_calls {A} (get : CMMD -> A)
  (pick : SetterCall -> option A) :
  (forall m c, get (call_setter m c) = default (get m) (pick c)) ->
  forall calls m,
    get (fold_left call_setter calls m) = last_set pick calls (get m).
Proof.
  intros Hstep calls. induction calls as [|c calls IH]; intros m.
  - reflexivity.
  - cbn [fold_left]. rewrite IH, Hstep. unfold last_set. cbn [omap list_omap].
    destruct (pick c) as [v|]; cbn [default].
    + rewrite last_cons. reflexivity.
    + reflexivity.
Qed.

End Configuration.

(** C10: a freshly constructed engine has 250 null samples, the
    unbiased-full statistic, direct variance estimation, the permutation
    null approximation and the GPU off; after any sequence of setter calls
    each getter returns the argument of the last call of its own setter,
    and the default when its setter was never called. *)
Theorem getters_return_last_set_or_default {F : Type} `{SF : Scalar F}
  `{CF : Collaborators F} (dm : DataManager) (km : KernelManager) (g : Rng)
  (calls : list SetterCall) :
  let m := fold_left call_setter calls (CMMD_new dm km g) in
  get_num_null_samples m = last_set pick_num_null_samples calls 250%Z
  /\ get_statistic_type m
     = last_set pick_statistic_type calls ST_UNBIASED_FULL
  /\ get_variance_estimation_method m
     = last_set pick_variance_estimation_method calls VEM_DIRECT
  /\ get_null_approximation_method m
     = last_set pick_null_approximation_method calls NAM_PERMUTATION
  /\ get_use_gpu m = last_set pick_use_gpu calls false.
Proof.
  cbv zeta. repeat split.
  - apply (getter_after_calls get_num_null_samples pick_num_null_samples).
    intros m [] ; reflexivity.
  - apply (getter_after_calls get_statistic_type pick_statistic_type).
    intros m [] ; reflexivity.
  - apply (getter_after_calls get_variance_estimation_method
             pick_variance_estimation_method).
    intros m [] ; reflexivity.
  - apply (getter_after_calls get_null_approximation_method
             pick_null_approximation_method).
    intros m [] ; reflexivity.
  - apply (getter_after_calls get_use_gpu pick_use_gpu).
    intros m [] ; reflexivity.
Qed.

(* ================================================================== *)
(** ** The multi-kernel covariance estimator *)

Section MultiKernelResult.
Context {F : Type} `{SF : Scalar F} `{CF : Collaborators F}.

Lemma adjacent_pairs_length {A} (xs : list A) :
  (length (adjacent_pairs xs) <= length xs)%nat
  /\ forall x, (length (adjacent_pairs (x :: xs)) <= S (length xs))%nat.
Proof.
  induction xs as [|y xs [IH0 IH1]]; cbn.
  - split; [lia|intros; lia].
  - split; [apply IH1|]. intros x. lia.
Qed.

Lemma zip_with_comm {A B} (f : A -> A -> B) (l k : list A) :
  (forall x y, f x y = f y x) -> zip_with f l k = zip_with f k l.
Proof.
  intros Hf. revert k. induction l as [|x l IH]; intros [|y k]; cbn;
    try reflexivity.
  rewrite Hf, IH. reflexivity.
Qed.

(** The product terms of [(i,j)] and of [(j,i)] are the same. *)
Lemma Q_terms_comm (i j : nat) (results : list (list (list F))) :
  Q_terms i j results = Q_terms j i results.
Proof.
  unfold Q_terms. f_equal. apply map_ext. intros mmds.
  apply zip_with_comm, fmul32_comm.
Qed.

Lemma Q_terms_length (i j : nat) (results : list (list (list F))) :
  (length (Q_terms i j results) <= length (kernel_scalars i results))%nat.
Proof.
  unfold Q_terms, kernel_scalars, pair_differences.
  induction results as [|mmds results IH]; cbn; [lia|].
  rewrite !length_app.
  pose proof (proj1 (adjacent_pairs_length (mmds !!! i))) as Hp.
  rewrite length_zip_with, !length_map. lia.
Qed.

Lemma multi_kernel_scalars_length (gpu : bool) (job : Job)
  (gram : Kernel -> Features -> KMatrix) (kernels : list Kernel)
  (bursts : list Burst) (g : Rng) (k : nat) :
  (k < length kernels)%nat ->
  length (kernel_scalars k
            (fst (multi_kernel_results gpu job gram kernels bursts g)))
  = length (concat (map merge_samples bursts)).
Proof.
  intros Hk. unfold multi_kernel_results, kernel_scalars. revert g.
  induction bursts as [|b bursts IH]; intros g; cbn.
  - reflexivity.
  - destruct (kernels_results_length gpu job gram kernels (merge_samples b) g)
      as [Hl Hlen].
    cbv zeta in *.
    destruct (kernels_results gpu job gram kernels (merge_samples b) g)
      as [mmds g1].
    specialize (IH g1).
    destruct (per_burst _ bursts g1) as [more g2]. cbn in *.
    rewrite !length_app, IH. f_equal.
    rewrite List.Forall_forall in Hlen. apply Hlen.
    apply list_elem_of_In, list_elem_of_lookup_total_2. lia.
Qed.

Lemma sq_init_wf (n : nat) : sq_wf n (sq_init (F:=F) n).
Proof.
  unfold sq_init. repeat split; cbn; try apply length_replicate.
Qed.

(** What [compute_statistic_and_Q] returns over a pass whose block count
    keeps the counters within [index_t]: the raw running mean of every
    kernel's scalars, and a symmetric matrix whose lower triangle holds the
    running means of the product terms. *)
Lemma compute_statistic_and_Q_ok (m : CMMD)
  (gram : Kernel -> Features -> KMatrix) :
  kernel_selection_mgr (self m) <> [] ->
  kernels_compute (kernel_selection_mgr (self m)) gram
    (dm_pending (data_manager m)) ->
  even_bursts (dm_pending (data_manager m)) ->
  (Z.of_nat (length (stream_blocks (dm_pending (data_manager m)))) < index_max)%Z ->
  exists statistic Q,
    fst (compute_statistic_and_Q m) = Ok (statistic, Q)
    /\ length statistic = length (kernel_selection_mgr (self m))
    /\ (forall k, (k < length (kernel_selection_mgr (self m)))%nat ->
          statistic !!! k = online_mean (kernel_scalars k (mk_results m gram)))
    /\ (forall i j,
          (i < length (kernel_selection_mgr (self m)))%nat ->
          (j < length (kernel_selection_mgr (self m)))%nat ->
          mat_get Q i j = online_mean (Q_terms i j (mk_results m gram))
          /\ mat_get Q j i = mat_get Q i j).
Proof.
  intros Hne Hk Heven Hlen.
  pose proof (compute_statistic_and_Q_run m gram Hne Hk Heven) as Hrun.
  cbv zeta in Hrun.
  set (n := length (kernel_selection_mgr (self m))) in *.
  assert (Hwf : Forall (burst_wf n) (mk_results m gram)).
  { apply multi_kernel_results_wf; assumption. }
  assert (Hsym0 : forall i j, (j <= i)%nat -> (i < n)%nat ->
            mat_get (sq_Q (sq_init (F:=F) n)) j i
            = mat_get (sq_Q (sq_init n)) i j).
  { intros i j Hji Hi. unfold sq_init. cbn [sq_Q].
    rewrite !mat_get_fill by lia. reflexivity. }
  destruct (sq_steps_spec n (mk_results m gram) (sq_init n) (sq_init_wf n)
              Hwf Hsym0) as [Hs HQ].
  cbv zeta in *.
  assert (Hfinal : sq_wf n
            (fold_left (fun a mmds => sq_step n mmds a) (mk_results m gram)
               (sq_init n))).
  { clear Hs HQ Hrun. generalize (sq_init_wf n).
    generalize (sq_init (F:=F) n) as a.
    induction Hwf as [|mmds results Hb _ IH]; intros a Ha; [exact Ha|].
    cbn [fold_left]. apply IH. apply (sq_step_spec n mmds a Ha Hb). }
  assert (Hbound : forall k, (k < n)%nat ->
            (1 + Z.of_nat (length (kernel_scalars k (mk_results m gram)))
             <= index_max)%Z).
  { intros k Hkn. unfold mk_results.
    rewrite multi_kernel_scalars_length by exact Hkn.
    unfold stream_blocks in Hlen. lia. }
  eexists _, _. split; [exact Hrun|]. split; [apply Hfinal|]. split.
  - intros k Hkn. specialize (Hs k Hkn).
    assert (H0 : sq_statistic (sq_init (F:=F) n) !!! k = fzero)
      by (apply lookup_total_replicate_2; exact Hkn).
    assert (H1 : sq_term_counters_statistic (sq_init (F:=F) n) !!! k = 1%Z)
      by (apply lookup_total_replicate_2; exact Hkn).
    rewrite H0, H1 in Hs.
    rewrite wrap_update_fold in Hs by (try apply Hbound; lia).
    apply (f_equal fst) in Hs. exact Hs.
  - assert (Hlower : forall i j, (j <= i)%nat -> (i < n)%nat ->
              mat_get (sq_Q (fold_left (fun a mmds => sq_step n mmds a)
                               (mk_results m gram) (sq_init n))) i j
              = online_mean (Q_terms i j (mk_results m gram))).
    { intros i j Hji Hi. destruct (HQ i j Hji Hi) as [Hcell _].
      assert (H0 : mat_get (sq_Q (sq_init (F:=F) n)) i j = fzero)
        by (apply mat_get_fill; lia).
      assert (H1 : mat_get (sq_term_counters_Q (sq_init (F:=F) n)) i j = 1%Z)
        by (apply mat_get_fill; lia).
      rewrite H0, H1 in Hcell.
      pose proof (Q_terms_length i j (mk_results m gram)) as Hle.
      pose proof (Hbound i Hi) as Hb.
      rewrite wrap_update_fold in Hcell by lia.
      apply (f_equal fst) in Hcell. exact Hcell. }
    intros i j Hi Hj. destruct (le_lt_dec j i) as [Hji|Hij].
    + split; [apply Hlower; assumption|apply HQ; assumption].
    + destruct (HQ j i ltac:(lia) Hj) as [_ Hsym].
      split; [|symmetry; exact Hsym].
      rewrite Hsym, Q_terms_comm. apply Hlower; [lia|exact Hj].
Qed.

End MultiKernelResult.

(** C3: the matrix [compute_statistic_and_Q] returns is symmetric, and
    every entry [Q(i,j)], diagonal included, is the running mean, over the
    adjacent block pairs (2k, 2k+1) of all bursts, of
    [(mmd_i[2k]-mmd_i[2k+1]) * (mmd_j[2k]-mmd_j[2k+1])]. *)
Theorem Q_symmetric_running_mean {F : Type} `{SF : Scalar F}
  `{CF : Collaborators F} (m : CMMD) (gram : Kernel -> Features -> KMatrix) :
  kernel_selection_mgr (self m) <> [] ->
  kernels_compute (kernel_selection_mgr (self m)) gram
    (dm_pending (data_manager m)) ->
  even_bursts (dm_pending (data_manager m)) ->
  (Z.of_nat (length (stream_blocks (dm_pending (data_manager m)))) < index_max)%Z ->
  exists statistic Q,
    fst (compute_statistic_and_Q m) = Ok (statistic, Q)
    /\ forall i j,
         (i < length (kernel_selection_mgr (self m)))%nat ->
         (j < length (kernel_selection_mgr (self m)))%nat ->
         mat_get Q i j = online_mean (Q_terms i j (mk_results m gram))
         /\ mat_get Q j i = mat_get Q i j.
Proof.
  intros Hne Hk Heven Hlen.
  destruct (compute_statistic_and_Q_ok m gram Hne Hk Heven Hlen)
    as (statistic & Q & Hrun & _ & _ & HQ).
  exists statistic, Q. split; [exact Hrun|exact HQ].
Qed.

Lemma Q_symmetric_running_mean_witness :
  let m := add_kernel (Toy.engine Toy.stream (Toy.Gaussian 1)) (Toy.Gaussian 2) in
  exists statistic Q,
    fst (compute_statistic_and_Q m) = Ok (statistic, Q)
    /\ forall i j,
         (i < length (kernel_selection_mgr (self m)))%nat ->
         (j < length (kernel_selection_mgr (self m)))%nat ->
         mat_get Q i j = online_mean (Q_terms i j (mk_results m Toy.toy_gram))
         /\ mat_get Q j i = mat_get Q i j.
Proof.
  cbv zeta.
  apply (Q_symmetric_running_mean
           (add_kernel (Toy.engine Toy.stream (Toy.Gaussian 1)) (Toy.Gaussian 2))
           Toy.toy_gram).
  - discriminate.
  - vm_compute. repeat constructor.
  - vm_compute. repeat constructor.
  - vm_compute. reflexivity.
Defined.

(** The statistic vector [compute_statistic_and_Q] returns holds the raw
    running mean of every kernel's scalars: the final [for_each] normalises
    a copy of each entry and stores nothing. *)
Lemma statistic_vector_is_raw {F : Type} `{SF : Scalar F}
  `{CF : Collaborators F} (m : CMMD) (gram : Kernel -> Features -> KMatrix) :
  kernel_selection_mgr (self m) <> [] ->
  kernels_compute (kernel_selection_mgr (self m)) gram
    (dm_pending (data_manager m)) ->
  even_bursts (dm_pending (data_manager m)) ->
  (Z.of_nat (length (stream_blocks (dm_pending (data_manager m)))) < index_max)%Z ->
  exists statistic Q,
    fst (compute_statistic_and_Q m) = Ok (statistic, Q)
    /\ length statistic = length (kernel_selection_mgr (self m))
    /\ forall k, (k < length (kernel_selection_mgr (self m)))%nat ->
         statistic !!! k = online_mean (kernel_scalars k (mk_results m gram)).
Proof.
  intros Hne Hk Heven Hlen.
  destruct (compute_statistic_and_Q_ok m gram Hne Hk Heven Hlen)
    as (statistic & Q & Hrun & Hl & Hs & _).
  exists statistic, Q. repeat split; assumption.
Qed.

(** C7 fails on the code: with one kernel, one burst of two blocks whose
    statistic scalars are 2 and 6 and a normalisation rule that doubles,
    the accumulated mean is 4, its normalisation is 8, and the statistic
    vector [compute_statistic_and_Q] returns holds 4. *)
Theorem statistic_vector_not_normalized :
  let m := Toy.engine [[(3, 1); (7, 1)]]%float (Toy.Gaussian 1) in
  result_map fst (fst (compute_statistic_and_Q m)) = Ok [4%float]
  /\ map normalize_statistic [4%float] = [8%float]
  /\ result_map fst (fst (compute_statistic_and_Q m))
     <> Ok (map normalize_statistic [4%float]).
Proof.
  cbv zeta. split; [vm_compute; reflexivity|].
  split; [vm_compute; reflexivity|].
  vm_compute. intros Heq. inversion Heq.
Qed.

(* ================================================================== *)
(** ** The null sampler *)

Section NullResult.
Context {F : Type} `{SF : Scalar F} `{CF : Collaborators F}.

Lemma lookup_total_map {A B} `{Inhabited A} `{Inhabited B} (f : A -> B)
  (l : list A) (i : nat) :
  (i < length l)%nat -> map f l !!! i = f (l !!! i).
Proof.
  revert i. induction l as [|x l IH]; intros i Hi; [simpl in Hi; lia|].
  destruct i as [|i]; [reflexivity|].
  cbn. apply IH. simpl in Hi. lia.
Qed.

Lemma sn_filled_wf (n : nat) : sn_wf n (sn_filled (F:=F) n).
Proof. split; apply length_replicate. Qed.

Lemma sn_init_nonneg (n : Z) :
  (0 <= n)%Z -> sn_init (F:=F) n = Ok (sn_filled (Z.to_nat n)).
Proof.
  intros Hn. unfold sn_init.
  destruct (Z.ltb_spec n 0) as [Hneg|_]; [lia|reflexivity].
Qed.

Lemma sn_init_negative (n : Z) :
  (n < 0)%Z -> sn_init (F:=F) n = Throw (Length_error n).
Proof.
  intros Hn. unfold sn_init.
  destruct (Z.ltb_spec n 0) as [_|Hpos]; [reflexivity|lia].
Qed.

Lemma sn_init_throw (n : Z) (e : ShogunException) :
  sn_init (F:=F) n = Throw e -> e = Length_error n /\ (n < 0)%Z.
Proof.
  unfold sn_init. destruct (Z.ltb_spec n 0) as [Hneg|_]; [|discriminate].
  intros Heq. inversion Heq. split; [reflexivity|exact Hneg].
Qed.

(** The blocks [merge_samples] builds over a pass are the merged copies of
    the pairs the bursts hold, and there are as many as the bursts count. *)
Lemma stream_blocks_pairs (pending : list Burst) :
  stream_blocks pending
  = map (fun pq => create_merged_copy (fst pq) (snd pq)) (stream_pairs pending).
Proof.
  unfold stream_blocks, stream_pairs, merge_samples.
  rewrite concat_map. reflexivity.
Qed.

Lemma stream_pairs_length (pending : list Burst) :
  length (stream_pairs pending) = total_blocks pending.
Proof.
  unfold stream_pairs, total_blocks. rewrite length_concat. reflexivity.
Qed.

Lemma per_burst_ext {R} (produce produce' : Burst -> Rng -> R * Rng)
  (bursts : list Burst) (g : Rng) :
  (forall b g, produce b g = produce' b g) ->
  per_burst produce bursts g = per_burst produce' bursts g.
Proof.
  intros Hext. revert g.
  induction bursts as [|b bursts IH]; intros g; cbn; [reflexivity|].
  rewrite Hext. destruct (produce' b g) as [r g1]. rewrite IH. reflexivity.
Qed.

Lemma sn_results_pairs (m : CMMD) (gram : Features -> KMatrix) :
  sn_results m gram = permutation_results m gram.
Proof.
  unfold sn_results, permutation_results, null_results. cbv zeta.
  f_equal. apply per_burst_ext. intros b g.
  unfold merge_samples, pair_matrix. rewrite map_map. reflexivity.
Qed.

(** The replicates of [sample_null] over the blocks [merge_samples]
    builds. *)
Lemma sample_null_means (m : CMMD) (kernel : Kernel)
  (gram : Features -> KMatrix) :
  kernel_at (kernel_manager m) 0 = Some kernel ->
  is_custom kernel = false ->
  kernel_computes kernel gram (dm_pending (data_manager m)) ->
  (0 <= num_null_samples (self m))%Z ->
  (Z.of_nat (length (stream_blocks (dm_pending (data_manager m)))) < index_max)%Z ->
  exists values,
    fst (sample_null m) = Ok values
    /\ Z.of_nat (length values) = num_null_samples (self m)
    /\ forall j, (j < length values)%nat ->
         values !!! j
         = normalize_statistic
             (online_mean (replicate_scalars j (sn_results m gram)))
         /\ length (replicate_scalars j (sn_results m gram))
            = length (stream_blocks (dm_pending (data_manager m))).
Proof.
  intros Hk Hc Hg HR Hlen.
  pose proof (sample_null_run m kernel gram Hk Hc Hg HR) as Hrun.
  cbv zeta in Hrun.
  pose (R := Z.to_nat (num_null_samples (self m))).
  destruct (null_results_shape (use_gpu (self m))
              (snd (create_statistic_job (self m) (data_manager m))) gram R
              (delivered (dm_pending (data_manager m))) (sg_rand m))
    as [Hshape Hscalars].
  cbv zeta in *. subst R. fold (sn_results m gram) in Hshape, Hscalars.
  destruct (sn_steps_spec _ (sn_results m gram)
              (sn_filled (Z.to_nat (num_null_samples (self m))))
              (sn_filled_wf _) Hshape) as [[Hl _] Hs].
  cbv zeta in *.
  eexists. split; [exact Hrun|].
  rewrite length_map, Hl. split; [lia|].
  intros j Hj. split; [|apply Hscalars; exact Hj].
  rewrite lookup_total_map by (rewrite Hl; exact Hj). f_equal.
  specialize (Hs j Hj).
  assert (H0 : sn_statistic
                 (sn_filled (F:=F) (Z.to_nat (num_null_samples (self m))))
               !!! j = fzero)
    by (apply lookup_total_replicate_2; exact Hj).
  assert (H1 : sn_term_counters
                 (sn_filled (F:=F) (Z.to_nat (num_null_samples (self m))))
               !!! j = 1%Z)
    by (apply lookup_total_replicate_2; exact Hj).
  rewrite H0, H1 in Hs.
  assert (Hb : (1 + Z.of_nat (length (replicate_scalars j (sn_results m gram)))
                <= index_max)%Z).
  { rewrite (Hscalars j Hj). unfold stream_blocks in Hlen. lia. }
  rewrite wrap_update_fold in Hs by (exact Hb || lia).
  apply (f_equal fst) in Hs. exact Hs.
Qed.

End NullResult.

(** C5: with a replicate count [R] that is not negative and a stream whose
    bursts hold [K] block pairs in all, [sample_null] returns exactly [R]
    values; value [j] is the statistic normalisation applied to the running
    mean of [K] scalars, the outputs of the permutation job for replicate
    [j] on the kernel matrix of the merged copy of every block pair of
    every burst. *)
Theorem sample_null_replicate_means {F : Type} `{SF : Scalar F}
  `{CF : Collaborators F} (m : CMMD) (kernel : Kernel)
  (gram : Features -> KMatrix) :
  kernel_at (kernel_manager m) 0 = Some kernel ->
  is_custom kernel = false ->
  Forall (fun pq => get_kernel_matrix kernel
                      (create_merged_copy (fst pq) (snd pq))
                    = inr (pair_matrix gram pq))
    (stream_pairs (dm_pending (data_manager m))) ->
  (0 <= num_null_samples (self m))%Z ->
  (Z.of_nat (total_blocks (dm_pending (data_manager m))) < index_max)%Z ->
  exists values,
    fst (sample_null m) = Ok values
    /\ Z.of_nat (length values) = num_null_samples (self m)
    /\ forall j, (j < length values)%nat ->
         values !!! j
         = normalize_statistic
             (online_mean (replicate_scalars j (permutation_results m gram)))
         /\ length (replicate_scalars j (permutation_results m gram))
            = total_blocks (dm_pending (data_manager m)).
Proof.
  intros Hk Hc Hpairs HR Hlen.
  assert (Hg : kernel_computes kernel gram (dm_pending (data_manager m))).
  { unfold kernel_computes. rewrite stream_blocks_pairs.
    apply List.Forall_map. exact Hpairs. }
  assert (Hblocks : length (stream_blocks (dm_pending (data_manager m)))
                    = total_blocks (dm_pending (data_manager m))).
  { rewrite stream_blocks_pairs, length_map. apply stream_pairs_length. }
  rewrite <- Hblocks in Hlen.
  destruct (sample_null_means m kernel gram Hk Hc Hg HR Hlen)
    as (values & Hrun & HlR & Hvalues).
  exists values. split; [exact Hrun|]. split; [exact HlR|].
  intros j Hj. destruct (Hvalues j Hj) as [Hv Hl].
  rewrite <- sn_results_pairs, <- Hblocks. split; assumption.
Qed.

Lemma sample_null_replicate_means_witness :
  let m := set_num_null_samples (Toy.engine Toy.stream (Toy.Gaussian 1)) 3 in
  let gram := Toy.toy_gram (Toy.Gaussian 1) in
  exists values,
    fst (sample_null m) = Ok values
    /\ Z.of_nat (length values) = num_null_samples (self m)
    /\ forall j, (j < length values)%nat ->
         values !!! j
         = normalize_statistic
             (online_mean (replicate_scalars j (permutation_results m gram)))
         /\ length (replicate_scalars j (permutation_results m gram))
            = total_blocks (dm_pending (data_manager m)).
Proof.
  cbv zeta.
  apply (sample_null_replicate_means
           (set_num_null_samples (Toy.engine Toy.stream (Toy.Gaussian 1)) 3)
           (Toy.Gaussian 1) (Toy.toy_gram (Toy.Gaussian 1))).
  - reflexivity.
  - reflexivity.
  - vm_compute. repeat constructor.
  - vm_compute. discriminate.
  - vm_compute. reflexivity.
Defined.

(* ================================================================== *)
(** ** The odd burst *)

Section OddBurst.
Context {F : Type} `{SF : Scalar F} `{CF : Collaborators F}.

Lemma delivered_all (bursts : list Burst) :
  Forall (fun b => burst_empty b = false) bursts -> delivered bursts = bursts.
Proof.
  induction 1 as [|b bursts Hb _ IH]; cbn; [reflexivity|].
  rewrite Hb, IH. reflexivity.
Qed.

(** The loop runs through a prefix of bursts on which its body succeeds
    and goes on with what follows. *)
Lemma while_next_prefix {R St} (body : Burst -> St -> M St)
  (produce : Burst -> Rng -> R * Rng) (consume : R -> St -> St)
  (before rest : list Burst) (s : St) (g : Rng) :
  Forall (fun b => burst_empty b = false) before ->
  (forall b, In b before -> forall s g,
      body b s g = (Ok (consume (fst (produce b g)) s), snd (produce b g))) ->
  while_next body (before ++ rest) s g
  = while_next body rest
      (fold_left (fun s r => consume r s) (fst (per_burst produce before g)) s)
      (snd (per_burst produce before g)).
Proof.
  intros Hne. revert s g.
  induction Hne as [|b before Hb _ IH]; intros s g Hbody.
  - reflexivity.
  - cbn [app while_next per_burst]. rewrite Hb.
    rewrite (Hbody b (or_introl eq_refl)).
    destruct (produce b g) as [r g1]. cbn [fst snd].
    rewrite IH by (intros b' Hin; apply Hbody; right; exact Hin).
    destruct (per_burst produce before g1) as [more g2]. reflexivity.
Qed.

Lemma sq_burst_odd (s : Self) (cm : ComputationManager) (b : Burst)
  (a : QAcc) (g : Rng) :
  Nat.odd (num_blocks b) = true ->
  sq_burst s cm b a g = (Throw (Number_of_blocks_not_even (num_blocks b)), g).
Proof.
  intros Hodd. unfold sq_burst.
  rewrite <- Nat.negb_odd, Hodd. reflexivity.
Qed.

End OddBurst.

(** C6: when the burst loop of [compute_statistic_and_Q] reaches a burst
    with an odd number of blocks, the operation fails with the data-shape
    error that carries that block count.  The loop body raises it from any
    accumulator state without producing a new one and without running a
    job: the generator is where the bursts before left it, and the burst
    is consumed whole, not cut to an even length. *)
Theorem odd_burst_fails_before_any_fold {F : Type} `{SF : Scalar F}
  `{CF : Collaborators F} (m : CMMD) (gram : Kernel -> Features -> KMatrix)
  (before : list Burst) (b : Burst) (after : list Burst) :
  kernel_selection_mgr (self m) <> [] ->
  dm_pending (data_manager m) = before ++ b :: after ->
  Forall (fun b => burst_empty b = false) before ->
  Forall (fun b => Nat.even (num_blocks b) = true) before ->
  kernels_compute (kernel_selection_mgr (self m)) gram before ->
  Nat.odd (num_blocks b) = true ->
  fst (compute_statistic_and_Q m)
  = Throw (Number_of_blocks_not_even (num_blocks b))
  /\ dm_pending (data_manager (snd (compute_statistic_and_Q m))) = after
  /\ sg_rand (snd (compute_statistic_and_Q m))
     = snd (multi_kernel_results (use_gpu (self m))
              (statistic_job (create_computation_jobs (self m) (data_manager m)))
              gram (kernel_selection_mgr (self m)) before (sg_rand m))
  /\ forall s cm a g,
       sq_burst s cm b a g
       = (Throw (Number_of_blocks_not_even (num_blocks b)), g).
Proof.
  intros Hne Hpending Hnonempty Heven Hk Hodd.
  assert (Hb : burst_empty b = false).
  { destruct b; [discriminate Hodd|reflexivity]. }
  assert (Hrun : compute_statistic_and_Q m
                 = (Throw (Number_of_blocks_not_even (num_blocks b)),
                    {| self := self m;
                       data_manager :=
                         dm_with_pending (dm_start (data_manager m)) after;
                       kernel_manager := kernel_manager m;
                       sg_rand :=
                         snd (multi_kernel_results (use_gpu (self m))
                                (statistic_job
                                   (create_computation_jobs (self m)
                                      (data_manager m)))
                                gram (kernel_selection_mgr (self m)) before
                                (sg_rand m)) |})).
  { unfold compute_statistic_and_Q.
    destruct (length (kernel_selection_mgr (self m)) =? 0)%nat eqn:Hn.
    { apply Nat.eqb_eq, length_zero_iff_nil in Hn. contradiction. }
    cbv zeta. cbn [dm_start dm_pending]. rewrite Hpending.
    rewrite (while_next_prefix _
               (fun b => kernels_results (use_gpu (self m))
                           (statistic_job (create_computation_jobs (self m)
                                             (data_manager m)))
                           gram (kernel_selection_mgr (self m))
                           (merge_samples b))
               (sq_step (length (kernel_selection_mgr (self m))))
               before (b :: after) _ _ Hnonempty).
    - cbn [while_next]. rewrite Hb, sq_burst_odd by exact Hodd. reflexivity.
    - intros b' Hin a g.
      rewrite List.Forall_forall in Heven.
      rewrite <- (delivered_all before Hnonempty) in Hin.
      match goal with
      | |- sq_burst _ ?cm _ _ _ = _ =>
          exact (sq_burst_gram (self m) cm _ gram b' a g eq_refl Hne
                   (Heven b' ltac:(rewrite <- (delivered_all before Hnonempty);
                                   exact Hin))
                   (kernels_compute_burst _ _ _ _ Hk Hin))
      end. }
  rewrite Hrun. cbn [fst snd data_manager dm_with_pending dm_pending sg_rand].
  repeat split. intros s cm a g. apply sq_burst_odd. exact Hodd.
Qed.

Lemma odd_burst_fails_before_any_fold_witness :
  let odd := [(3, 1); (7, 1); (9, 1)]%float in
  let m := Toy.engine (Toy.stream ++ odd :: Toy.stream) (Toy.Gaussian 1) in
  fst (compute_statistic_and_Q m)
  = Throw (Number_of_blocks_not_even (num_blocks odd))
  /\ dm_pending (data_manager (snd (compute_statistic_and_Q m))) = Toy.stream
  /\ sg_rand (snd (compute_statistic_and_Q m))
     = snd (multi_kernel_results (use_gpu (self m))
              (statistic_job (create_computation_jobs (self m) (data_manager m)))
              Toy.toy_gram (kernel_selection_mgr (self m)) Toy.stream
              (sg_rand m))
  /\ forall s cm a g,
       sq_burst s cm odd a g
       = (Throw (Number_of_blocks_not_even (num_blocks odd)), g).
Proof.
  cbv zeta.
  apply (odd_burst_fails_before_any_fold
           (Toy.engine (Toy.stream ++ [(3, 1); (7, 1); (9, 1)]%float :: Toy.stream)
              (Toy.Gaussian 1))
           Toy.toy_gram Toy.stream [(3, 1); (7, 1); (9, 1)]%float Toy.stream).
  - discriminate.
  - reflexivity.
  - vm_compute. repeat constructor.
  - vm_compute. repeat constructor.
  - vm_compute. repeat constructor.
  - reflexivity.
Defined.

(* ================================================================== *)
(** ** The kernel selector *)

Section Selector.
Context {F : Type} `{SF : Scalar F} `{CF : Collaborators F}.

(** [compute_distance] touches neither the training mode nor the split
    ratio of the data manager. *)
Lemma compute_distance_training (m : CMMD) :
  dm_train_mode (data_manager (snd (compute_distance m)))
  = dm_train_mode (data_manager m)
  /\ dm_train_test_ratio (data_manager (snd (compute_distance m)))
     = dm_train_test_ratio (data_manager m).
Proof.
  unfold compute_distance, dm_next. cbn [dm_start dm_set_blockwise dm_pending].
  destruct (dm_pending (data_manager m)) as [|[|[p q] samples] rest]; cbn;
    try (split; reflexivity).
  destruct (euclidean_distance (create_merged_copy p q)) as [what|[d|]];
    split; reflexivity.
Qed.

(** Nor does it touch the source of the stream. *)
Lemma compute_distance_source (m : CMMD) :
  dm_source (data_manager (snd (compute_distance m)))
  = dm_source (data_manager m).
Proof.
  unfold compute_distance, dm_next. cbn [dm_start dm_set_blockwise dm_pending].
  destruct (dm_pending (data_manager m)) as [|[|[p q] samples] rest]; cbn;
    try reflexivity.
  destruct (euclidean_distance (create_merged_copy p q)) as [what|[d|]];
    reflexivity.
Qed.

End Selector.

(** C8, as the code has it: whenever [select_kernel] returns, a policy has
    selected with training mode on and its kernel has been installed, and
    training mode is off in the engine returned.  The split ratio the
    policy ran under is the requested one and the stream is where it was,
    except for the median heuristic: there, before the policy runs, the
    ratio is set to zero and the stream is reset to its source.  After the
    policy has run [select_kernel] leaves the ratio as the policy left
    it. *)
Theorem select_kernel_training_mode_off {F : Type} `{SF : Scalar F}
  `{CF : Collaborators F}
  (policy_select_kernel : KernelSelection -> CMMD -> Result Kernel * CMMD)
  (kmethod : EKernelSelectionMethod) (weighted_kernel : bool)
  (train_test_ratio : F) (num_run : Z) (alpha : F) (m m' : CMMD) :
  select_kernel policy_select_kernel kmethod weighted_kernel train_test_ratio
    num_run alpha m = (Ok tt, m') ->
  dm_train_mode (data_manager m') = false
  /\ exists policy m2 kernel m3,
       policy_select_kernel policy m2 = (Ok kernel, m3)
       /\ dm_train_mode (data_manager m2) = true
       /\ dm_train_test_ratio (data_manager m2)
          = match kmethod with
            | KSM_MEDIAN_HEURISTIC => fzero
            | _ => train_test_ratio
            end
       /\ dm_pending (data_manager m2)
          = match kmethod with
            | KSM_MEDIAN_HEURISTIC => dm_source (data_manager m)
            | _ => dm_pending (data_manager m)
            end
       /\ dm_train_test_ratio (data_manager m')
          = dm_train_test_ratio (data_manager m3)
       /\ kernel_manager m' = <[0%nat := Some kernel]> (kernel_manager m3).
Proof.
  unfold select_kernel. cbv zeta.
  set (m1 := with_data_manager m _).
  assert (Hm1 : dm_train_mode (data_manager m1) = true
                /\ dm_train_test_ratio (data_manager m1) = train_test_ratio
                /\ dm_pending (data_manager m1) = dm_pending (data_manager m)
                /\ dm_source (data_manager m1) = dm_source (data_manager m))
    by (repeat split; reflexivity).
  destruct Hm1 as (Hmode & Hratio & Hpending & Hsource).
  assert (Hfinish : forall policy m2,
            dm_train_mode (data_manager m2) = true ->
            dm_train_test_ratio (data_manager m2)
            = match kmethod with
              | KSM_MEDIAN_HEURISTIC => fzero
              | _ => train_test_ratio
              end ->
            dm_pending (data_manager m2)
            = match kmethod with
              | KSM_MEDIAN_HEURISTIC => dm_source (data_manager m)
              | _ => dm_pending (data_manager m)
              end ->
            match policy_select_kernel policy m2 with
            | (Throw e, m3) => (Throw e, m3)
            | (Ok kernel, m3) =>
                (Ok tt,
                 with_data_manager
                   (with_kernel_manager m3
                      (restore_kernel_at
                         (set_kernel_at (kernel_manager m3) 0 kernel) 0))
                   (dm_set_train_mode (data_manager m3) false))
            end = (Ok tt, m') ->
            dm_train_mode (data_manager m') = false
            /\ exists policy m2 kernel m3,
                 policy_select_kernel policy m2 = (Ok kernel, m3)
                 /\ dm_train_mode (data_manager m2) = true
                 /\ dm_train_test_ratio (data_manager m2)
                    = match kmethod with
                      | KSM_MEDIAN_HEURISTIC => fzero
                      | _ => train_test_ratio
                      end
                 /\ dm_pending (data_manager m2)
                    = match kmethod with
                      | KSM_MEDIAN_HEURISTIC => dm_source (data_manager m)
                      | _ => dm_pending (data_manager m)
                      end
                 /\ dm_train_test_ratio (data_manager m')
                    = dm_train_test_ratio (data_manager m3)
                 /\ kernel_manager m' = <[0%nat := Some kernel]> (kernel_manager m3)).
  { intros policy m2 Hmode2 Hratio2 Hpending2 Hsel.
    destruct (policy_select_kernel policy m2) as [[kernel|e] m3] eqn:Hp;
      [|discriminate].
    inversion Hsel; subst m'. split; [reflexivity|].
    exists policy, m2, kernel, m3. repeat split; assumption. }
  destruct kmethod.
  - destruct weighted_kernel; [discriminate|].
    pose proof (compute_distance_training m1) as [Hdm Hdr].
    pose proof (compute_distance_source m1) as Hds.
    destruct (compute_distance m1) as [[distance|e] md]; [|discriminate].
    cbn [snd] in Hdm, Hdr, Hds.
    apply Hfinish; cbn;
      [rewrite Hdm; exact Hmode|reflexivity|rewrite Hds; exact Hsource].
  - destruct weighted_kernel; [discriminate|].
    apply Hfinish; assumption.
  - apply Hfinish; assumption.
  - apply Hfinish; assumption.
  - discriminate.
Qed.

Lemma select_kernel_training_mode_off_witness :
  let m := Toy.engine Toy.stream (Toy.Gaussian 1) in
  let m' := snd (select_kernel Toy.first_kernel KSM_MEDIAN_HEURISTIC false
                   0.5%float 1%Z 0.0625%float m) in
  dm_train_mode (data_manager m') = false
  /\ exists policy m2 kernel m3,
       Toy.first_kernel policy m2 = (Ok kernel, m3)
       /\ dm_train_mode (data_manager m2) = true
       /\ dm_train_test_ratio (data_manager m2) = fzero
       /\ dm_pending (data_manager m2) = dm_source (data_manager m)
       /\ dm_train_test_ratio (data_manager m')
          = dm_train_test_ratio (data_manager m3)
       /\ kernel_manager m' = <[0%nat := Some kernel]> (kernel_manager m3).
Proof.
  cbv zeta.
  apply (select_kernel_training_mode_off Toy.first_kernel KSM_MEDIAN_HEURISTIC
           false 0.5%float 1%Z 0.0625%float
           (Toy.engine Toy.stream (Toy.Gaussian 1))).
  vm_compute. reflexivity.
Defined.

(** C8 as stated fails: maximising the MMD with a requested split ratio of
    one half on an engine whose ratio was zero returns with training mode
    off and the ratio still at one half, neither zero nor what it was
    before the call. *)
Lemma split_ratio_not_reset :
  ~ (forall kmethod weighted_kernel train_test_ratio num_run alpha
            (m m' : CMMD),
       select_kernel Toy.first_kernel kmethod weighted_kernel train_test_ratio
         num_run alpha m = (Ok tt, m') ->
       dm_train_mode (data_manager m') = false
       /\ (dm_train_test_ratio (data_manager m') = 0%float
           \/ dm_train_test_ratio (data_manager m')
              = dm_train_test_ratio (data_manager m))).
Proof.
  intros Hclaim.
  destruct (Hclaim KSM_MAXIMIZE_MMD false 0.5%float 1%Z 0.0625%float
              (Toy.engine Toy.stream (Toy.Gaussian 1)) _ eq_refl)
    as [_ [Hzero|Hsame]].
  - vm_compute in Hzero. inversion Hzero.
  - vm_compute in Hsame. inversion Hsame.
Qed.


(* ================================================================== *)
(** ** Errors and edge cases of the three estimators *)

Section LoopOutcomes.
Context {F : Type} `{SF : Scalar F} `{CF : Collaborators F}.

(** An exception that leaves the burst loop was raised by the body on a
    delivered burst. *)
Lemma while_next_throw {St} (body : Burst -> St -> M St)
  (pending : list Burst) (s : St) (g : Rng) (e : ShogunException)
  (rest : list Burst) (g' : Rng) :
  while_next body pending s g = (Throw e, rest, g') ->
  exists b s0 g0, In b (delivered pending) /\ body b s0 g0 = (Throw e, g').
Proof.
  revert s g. induction pending as [|b pending IH]; intros s g Hw.
  - discriminate.
  - cbn in Hw |- *. destruct (burst_empty b); [discriminate|].
    destruct (body b s g) as [[s1|e1] g1] eqn:Hb.
    + destruct (IH s1 g1 Hw) as (b' & s0 & g0 & Hin & Hb').
      exists b', s0, g0. split; [right; exact Hin|exact Hb'].
    + inversion Hw; subst. exists b, s, g. split; [left; reflexivity|exact Hb].
Qed.

(** A loop that ends normally has fetched every burst up to and including
    the first empty one. *)
Lemma while_next_ok_rest {St} (body : Burst -> St -> M St)
  (pending : list Burst) (s s' : St) (g g' : Rng) (rest : list Burst) :
  while_next body pending s g = (Ok s', rest, g') -> rest = undelivered pending.
Proof.
  revert s g. induction pending as [|b pending IH]; intros s g Hw.
  - inversion Hw. reflexivity.
  - cbn in Hw |- *. destruct (burst_empty b); [inversion Hw; reflexivity|].
    destruct (body b s g) as [[s1|e1] g1]; [|discriminate].
    exact (IH s1 g1 Hw).
Qed.

Lemma kernel_matrices_inl (kernel : Kernel) (blocks : list Features)
  (what : String.string) :
  kernel_matrices kernel blocks = inl what ->
  exists block, In block blocks /\ get_kernel_matrix kernel block = inl what.
Proof.
  induction blocks as [|block blocks IH]; cbn; [discriminate|].
  destruct (get_kernel_matrix kernel block) as [w|km] eqn:Hb.
  - intros Heq. inversion Heq; subst. exists block. split; [left|]; auto.
  - destruct (kernel_matrices kernel blocks) as [w|kms]; [|discriminate].
    intros Heq. inversion Heq; subst.
    destruct (IH eq_refl) as (block' & Hin & Hb').
    exists block'. split; [right|]; assumption.
Qed.

Lemma kernel_matrices_inr (kernel : Kernel) (blocks : list Features)
  (kms : list KMatrix) :
  kernel_matrices kernel blocks = inr kms ->
  length kms = length blocks
  /\ Forall (fun block => exists km, get_kernel_matrix kernel block = inr km)
       blocks.
Proof.
  revert kms. induction blocks as [|block blocks IH]; intros kms; cbn.
  - intros Heq. inversion Heq. split; [reflexivity|constructor].
  - destruct (get_kernel_matrix kernel block) as [w|km] eqn:Hb; [discriminate|].
    destruct (kernel_matrices kernel blocks) as [w|kms']; [discriminate|].
    intros Heq. inversion Heq; subst. destruct (IH kms' eq_refl) as [Hl Hall].
    split; [cbn; rewrite Hl; reflexivity|].
    constructor; [exists km; exact Hb|exact Hall].
Qed.

(** What [compute_kernel] can raise, and why. *)
Lemma compute_kernel_throw (cm : ComputationManager) (blocks : list Features)
  (kernel : Kernel) (e : ShogunException) :
  compute_kernel cm blocks kernel = Throw e ->
  (e = Underlying_kernel_custom /\ is_custom kernel = true)
  \/ (exists what block,
        e = Try_less_blocks_per_burst what /\ In block blocks
        /\ get_kernel_matrix kernel block = inl what).
Proof.
  unfold compute_kernel. destruct (is_custom kernel) eqn:Hc.
  - intros Heq. inversion Heq. left. split; reflexivity.
  - destruct (kernel_matrices kernel blocks) as [what|kms] eqn:Hk;
      [|discriminate].
    intros Heq. inversion Heq; subst.
    destruct (kernel_matrices_inl _ _ _ Hk) as (block & Hin & Hb).
    right. exists what, block. repeat split; assumption.
Qed.

Lemma in_stream_blocks (pending : list Burst) (b : Burst) (block : Features) :
  In b (delivered pending) -> In block (merge_samples b) ->
  In block (stream_blocks pending).
Proof.
  intros Hb Hblock. unfold stream_blocks. apply in_concat.
  exists (merge_samples b). split; [apply in_map; exact Hb|exact Hblock].
Qed.

Lemma sv_burst_throw (s : Self) (cm : ComputationManager) (kernel : Kernel)
  (b : Burst) (a : SVAcc) (g g' : Rng) (e : ShogunException) :
  sv_burst s cm kernel b a g = (Throw e, g') ->
  compute_kernel cm (merge_samples b) kernel = Throw e /\ g' = g.
Proof.
  unfold sv_burst, bind, lift, draw, ret.
  destruct (compute_kernel cm (merge_samples b) kernel) as [cm1|e1].
  - destruct (compute_jobs s cm1 g); discriminate.
  - intros Heq. inversion Heq. split; reflexivity.
Qed.

Lemma sn_burst_throw (s : Self) (cm : ComputationManager) (kernel : Kernel)
  (b : Burst) (a : SNAcc) (g g' : Rng) (e : ShogunException) :
  sn_burst s cm kernel b a g = (Throw e, g') ->
  compute_kernel cm (merge_samples b) kernel = Throw e /\ g' = g.
Proof.
  unfold sn_burst, bind, lift, draw.
  destruct (compute_kernel cm (merge_samples b) kernel) as [cm1|e1].
  - destruct (sn_replicates s cm1 a g); discriminate.
  - intros Heq. inversion Heq. split; reflexivity.
Qed.

End LoopOutcomes.

Section MultiKernelOutcomes.
Context {F : Type} `{SF : Scalar F} `{CF : Collaborators F}.

Lemma for_each_indexed_throw {A St} (body : nat -> A -> St -> M St) (k : nat)
  (xs : list A) (s : St) (g g' : Rng) (e : ShogunException) :
  for_each_indexed body k xs s g = (Throw e, g') ->
  exists k' x s0 g0, In x xs /\ body k' x s0 g0 = (Throw e, g').
Proof.
  revert k s g. induction xs as [|x xs IH]; intros k s g; cbn.
  - discriminate.
  - unfold bind. destruct (body k x s g) as [[s1|e1] g1] eqn:Hb.
    + intros Hrest. destruct (IH _ _ _ Hrest) as (k' & x' & s0 & g0 & Hin & Hb').
      exists k', x', s0, g0. split; [right; exact Hin|exact Hb'].
    + intros Heq. inversion Heq; subst. exists k, x, s, g.
      split; [left; reflexivity|exact Hb].
Qed.

Lemma sq_kernel_throw (s : Self) (cm : ComputationManager)
  (blocks : list Features) (n k : nat) (kernel : Kernel) (a : QAcc)
  (g g' : Rng) (e : ShogunException) :
  sq_kernel s cm blocks n k kernel a g = (Throw e, g') ->
  compute_kernel cm blocks kernel = Throw e.
Proof.
  unfold sq_kernel, bind, lift, draw, ret.
  destruct (compute_kernel cm blocks kernel) as [cm1|e1].
  - destruct (compute_jobs s cm1 g); discriminate.
  - intros Heq. inversion Heq. reflexivity.
Qed.

Lemma sq_burst_throw (s : Self) (cm : ComputationManager) (b : Burst)
  (a : QAcc) (g g' : Rng) (e : ShogunException) :
  sq_burst s cm b a g = (Throw e, g') ->
  (e = Number_of_blocks_not_even (num_blocks b)
   /\ Nat.even (num_blocks b) = false)
  \/ exists kernel, In kernel (kernel_selection_mgr s)
       /\ compute_kernel cm (merge_samples b) kernel = Throw e.
Proof.
  unfold sq_burst. destruct (Nat.even (num_blocks b)) eqn:Heven; cbn [negb].
  - unfold bind at 1.
    destruct (for_each_indexed _ 0 (kernel_selection_mgr s) a g)
      as [[a1|e1] g1] eqn:Hloop; [discriminate|].
    intros Heq. inversion Heq; subst.
    destruct (for_each_indexed_throw _ _ _ _ _ _ _ Hloop)
      as (k & kernel & s0 & g0 & Hin & Hb).
    right. exists kernel. split; [exact Hin|].
    exact (sq_kernel_throw _ _ _ _ _ _ _ _ _ _ Hb).
  - intros Heq. inversion Heq. left. split; reflexivity.
Qed.

End MultiKernelOutcomes.

(* ================================================================== *)
(** ** What the estimators can raise *)

(** X1: an exception raised by [compute_statistic_variance] has one of
    three causes.  It is "Kernel is not set" and slot 0 of the kernel
    manager is null; or it is "Underlying kernel cannot be custom", the
    bound kernel is custom and the stream delivered a burst; or it is the
    error of a kernel matrix that could not be computed on a block of the
    stream, with the advice to use fewer blocks per burst appended. *)
Theorem compute_statistic_variance_error_causes {F : Type} `{SF : Scalar F}
  `{CF : Collaborators F} (m : CMMD) (e : ShogunException) :
  fst (compute_statistic_variance m) = Throw e ->
  (e = Kernel_is_not_set /\ kernel_at (kernel_manager m) 0 = None)
  \/ exists kernel,
       kernel_at (kernel_manager m) 0 = Some kernel
       /\ ((e = Underlying_kernel_custom /\ is_custom kernel = true
            /\ delivered (dm_pending (data_manager m)) <> [])
           \/ exists what block,
                e = Try_less_blocks_per_burst what
                /\ is_custom kernel = false
                /\ In block (stream_blocks (dm_pending (data_manager m)))
                /\ get_kernel_matrix kernel block = inl what).
Proof.
  unfold compute_statistic_variance.
  destruct (kernel_at (kernel_manager m) 0) as [kernel|] eqn:Hk.
  - cbv zeta. cbn [dm_start dm_pending].
    destruct (while_next _ (dm_pending (data_manager m)) sv_init (sg_rand m))
      as [[[a|e1] rest] g] eqn:Hw; [discriminate|].
    cbn [fst]. intros Heq. inversion Heq; subst e1. right. exists kernel.
    split; [reflexivity|].
    destruct (while_next_throw _ _ _ _ _ _ _ Hw) as (b & a0 & g0 & Hin & Hb).
    apply sv_burst_throw in Hb. destruct Hb as [Hb _].
    destruct (compute_kernel_throw _ _ _ _ Hb)
      as [[-> Hc]|(what & block & -> & Hblock & Hfail)].
    + left. repeat split; [exact Hc|].
      intros Hnil. rewrite Hnil in Hin. exact Hin.
    + right. exists what, block. repeat split.
      * unfold compute_kernel in Hb. destruct (is_custom kernel);
          [discriminate|reflexivity].
      * exact (in_stream_blocks _ _ _ Hin Hblock).
      * exact Hfail.
  - cbn [fst]. intros Heq. inversion Heq. left. split; reflexivity.
Qed.

Lemma compute_statistic_variance_error_causes_witness :
  let m := Exact.engine Exact.oversized (Exact.Linear (Qc_of_Z 2)) in
  let e := Try_less_blocks_per_burst "out of memory"%string in
  (e = Kernel_is_not_set /\ kernel_at (kernel_manager m) 0 = None)
  \/ exists kernel,
       kernel_at (kernel_manager m) 0 = Some kernel
       /\ ((e = Underlying_kernel_custom /\ is_custom kernel = true
            /\ delivered (dm_pending (data_manager m)) <> [])
           \/ exists what block,
                e = Try_less_blocks_per_burst what
                /\ is_custom kernel = false
                /\ In block (stream_blocks (dm_pending (data_manager m)))
                /\ get_kernel_matrix kernel block = inl what).
Proof.
  cbv zeta.
  apply (compute_statistic_variance_error_causes
           (Exact.engine Exact.oversized (Exact.Linear (Qc_of_Z 2)))).
  vm_compute. reflexivity.
Defined.

(** X2: an exception raised by [sample_null] has one of four causes.  It
    is "Kernel is not set" and slot 0 of the kernel manager is null; or the
    number of null samples is negative and the length error of the vectors
    that cannot be built is raised; or it is "Underlying kernel cannot be
    custom", the bound kernel is custom and the stream delivered a burst;
    or it is the error of a kernel matrix that could not be computed on a
    block of the stream.  The last two are raised with a count that is not
    negative only. *)
Theorem sample_null_error_causes {F : Type} `{SF : Scalar F}
  `{CF : Collaborators F} (m : CMMD) (e : ShogunException) :
  fst (sample_null m) = Throw e ->
  (e = Kernel_is_not_set /\ kernel_at (kernel_manager m) 0 = None)
  \/ exists kernel,
       kernel_at (kernel_manager m) 0 = Some kernel
       /\ ((e = Length_error (num_null_samples (self m))
            /\ (num_null_samples (self m) < 0)%Z)
           \/ ((0 <= num_null_samples (self m))%Z
               /\ ((e = Underlying_kernel_custom /\ is_custom kernel = true
                    /\ delivered (dm_pending (data_manager m)) <> [])
                   \/ exists what block,
                        e = Try_less_blocks_per_burst what
                        /\ is_custom kernel = false
                        /\ In block
                             (stream_blocks (dm_pending (data_manager m)))
                        /\ get_kernel_matrix kernel block = inl what))).
Proof.
  unfold sample_null.
  destruct (kernel_at (kernel_manager m) 0) as [kernel|] eqn:Hk.
  - cbv zeta. intros H. right. exists kernel. split; [reflexivity|].
    destruct (Z.ltb_spec (num_null_samples (self m)) 0) as [Hneg|Hpos].
    + rewrite (sn_init_negative _ Hneg) in H. cbn [fst] in H.
      inversion H. left. split; [reflexivity|exact Hneg].
    + rewrite (sn_init_nonneg _ Hpos) in H. right. split; [exact Hpos|].
      destruct (create_statistic_job (self m) (data_manager m)) as [sj pj].
      cbn [dm_start dm_pending] in H.
      destruct (while_next (sn_burst (self m) (enqueue_job new_cm pj) kernel)
                  (dm_pending (data_manager m))
                  (sn_filled (Z.to_nat (num_null_samples (self m))))
                  (sg_rand m))
        as [[[a|e1] rest] g] eqn:Hw; [discriminate|].
      cbn [fst] in H. inversion H; subst e1.
      destruct (while_next_throw _ _ _ _ _ _ _ Hw) as (b & a0 & g0 & Hin & Hb).
      apply sn_burst_throw in Hb. destruct Hb as [Hb _].
      destruct (compute_kernel_throw _ _ _ _ Hb)
        as [[-> Hc]|(what & block & -> & Hblock & Hfail)].
      * left. repeat split; [exact Hc|].
        intros Hnil. rewrite Hnil in Hin. exact Hin.
      * right. exists what, block. repeat split.
        -- unfold compute_kernel in Hb. destruct (is_custom kernel);
             [discriminate|reflexivity].
        -- exact (in_stream_blocks _ _ _ Hin Hblock).
        -- exact Hfail.
  - cbn [fst]. intros Heq. inversion Heq. left. split; reflexivity.
Qed.

Lemma sample_null_error_causes_witness :
  let m := set_num_null_samples (Toy.engine Toy.stream (Toy.Gaussian 1))
             (-1) in
  let e := Length_error (-1) in
  (e = Kernel_is_not_set /\ kernel_at (kernel_manager m) 0 = None)
  \/ exists kernel,
       kernel_at (kernel_manager m) 0 = Some kernel
       /\ ((e = Length_error (num_null_samples (self m))
            /\ (num_null_samples (self m) < 0)%Z)
           \/ ((0 <= num_null_samples (self m))%Z
               /\ ((e = Underlying_kernel_custom /\ is_custom kernel = true
                    /\ delivered (dm_pending (data_manager m)) <> [])
                   \/ exists what block,
                        e = Try_less_blocks_per_burst what
                        /\ is_custom kernel = false
                        /\ In block
                             (stream_blocks (dm_pending (data_manager m)))
                        /\ get_kernel_matrix kernel block = inl what))).
Proof.
  cbv zeta.
  apply (sample_null_error_causes
           (set_num_null_samples (Toy.engine Toy.stream (Toy.Gaussian 1))
              (-1))).
  vm_compute. reflexivity.
Defined.

(** X3: an exception raised by [compute_statistic_and_Q] has one of four
    causes: the kernel set is empty ("No kernels specified"); a burst of
    the stream has an odd number of blocks, which the error reports; a
    kernel of the set is custom; or the matrix of a kernel of the set could
    not be computed on a block of the stream. *)
Theorem compute_statistic_and_Q_error_causes {F : Type} `{SF : Scalar F}
  `{CF : Collaborators F} (m : CMMD) (e : ShogunException) :
  fst (compute_statistic_and_Q m) = Throw e ->
  (e = No_kernels_specified /\ kernel_selection_mgr (self m) = [])
  \/ (exists b,
        In b (delivered (dm_pending (data_manager m)))
        /\ Nat.even (num_blocks b) = false
        /\ e = Number_of_blocks_not_even (num_blocks b))
  \/ (exists kernel,
        In kernel (kernel_selection_mgr (self m))
        /\ is_custom kernel = true
        /\ e = Underlying_kernel_custom)
  \/ (exists kernel what block,
        In kernel (kernel_selection_mgr (self m))
        /\ In block (stream_blocks (dm_pending (data_manager m)))
        /\ get_kernel_matrix kernel block = inl what
        /\ e = Try_less_blocks_per_burst what).
Proof.
  unfold compute_statistic_and_Q.
  destruct (length (kernel_selection_mgr (self m)) =? 0)%nat eqn:Hn.
  - cbn [fst]. intros Heq. inversion Heq. left. split; [reflexivity|].
    apply Nat.eqb_eq, length_zero_iff_nil in Hn. exact Hn.
  - cbv zeta. cbn [dm_start dm_pending].
    destruct (while_next _ (dm_pending (data_manager m)) _ (sg_rand m))
      as [[[a|e1] rest] g] eqn:Hw; [discriminate|].
    cbn [fst]. intros Heq. inversion Heq; subst e1. right.
    destruct (while_next_throw _ _ _ _ _ _ _ Hw) as (b & a0 & g0 & Hin & Hb).
    destruct (sq_burst_throw _ _ _ _ _ _ _ Hb)
      as [[-> Hodd]|(kernel & Hkin & Hck)].
    + left. exists b. repeat split; assumption.
    + right. destruct (compute_kernel_throw _ _ _ _ Hck)
        as [[-> Hc]|(what & block & -> & Hblock & Hfail)].
      * left. exists kernel. repeat split; assumption.
      * right. exists kernel, what, block. repeat split; try assumption.
        exact (in_stream_blocks _ _ _ Hin Hblock).
Qed.

Lemma compute_statistic_and_Q_error_causes_witness :
  let m := Exact.engine Exact.oversized (Exact.Linear (Qc_of_Z 2)) in
  let e := Try_less_blocks_per_burst "out of memory"%string in
  (e = No_kernels_specified /\ kernel_selection_mgr (self m) = [])
  \/ (exists b,
        In b (delivered (dm_pending (data_manager m)))
        /\ Nat.even (num_blocks b) = false
        /\ e = Number_of_blocks_not_even (num_blocks b))
  \/ (exists kernel,
        In kernel (kernel_selection_mgr (self m))
        /\ is_custom kernel = true
        /\ e = Underlying_kernel_custom)
  \/ (exists kernel what block,
        In kernel (kernel_selection_mgr (self m))
        /\ In block (stream_blocks (dm_pending (data_manager m)))
        /\ get_kernel_matrix kernel block = inl what
        /\ e = Try_less_blocks_per_burst what).
Proof.
  cbv zeta.
  apply (compute_statistic_and_Q_error_causes
           (Exact.engine Exact.oversized (Exact.Linear (Qc_of_Z 2)))).
  vm_compute. reflexivity.
Defined.

(* ================================================================== *)
(** ** Kernel matrices of a burst *)

Section KernelMatrices.
Context {F : Type} `{SF : Scalar F} `{CF : Collaborators F}.

Lemma kernel_matrices_inr_iff (kernel : Kernel) (blocks : list Features)
  (kms : list KMatrix) :
  kernel_matrices kernel blocks = inr kms
  <-> Forall2 (fun block km => get_kernel_matrix kernel block = inr km)
        blocks kms.
Proof.
  revert kms. induction blocks as [|block blocks IH]; intros kms; cbn.
  - split.
    + intros Heq. inversion Heq. constructor.
    + intros Hall. inversion Hall. reflexivity.
  - split.
    + destruct (get_kernel_matrix kernel block) as [w|km] eqn:Hb;
        [discriminate|].
      destruct (kernel_matrices kernel blocks) as [w|kms'] eqn:Hk;
        [discriminate|].
      intros Heq. inversion Heq; subst. constructor; [exact Hb|].
      apply IH. reflexivity.
    + intros Hall. inversion Hall as [|? km ? kms' Hb Hrest]; subst.
      rewrite Hb. apply IH in Hrest. rewrite Hrest. reflexivity.
Qed.

Lemma while_next_nothing_delivered {St} (body : Burst -> St -> M St)
  (pending : list Burst) (s : St) (g : Rng) :
  delivered pending = [] ->
  while_next body pending s g = (Ok s, undelivered pending, g).
Proof.
  destruct pending as [|b rest]; cbn; [reflexivity|].
  destruct (burst_empty b); [reflexivity|discriminate].
Qed.

Lemma while_next_throw_split {St} (body : Burst -> St -> M St)
  (pending : list Burst) (s : St) (g : Rng) (e : ShogunException)
  (rest : list Burst) (g' : Rng) :
  while_next body pending s g = (Throw e, rest, g') ->
  exists consumed b,
    burst_empty b = false
    /\ Forall (fun b' => burst_empty b' = false) consumed
    /\ pending = consumed ++ b :: rest.
Proof.
  revert s g. induction pending as [|b pending IH]; intros s g Hw.
  - discriminate.
  - cbn in Hw. destruct (burst_empty b) eqn:Hb; [discriminate|].
    destruct (body b s g) as [[s1|e1] g1].
    + destruct (IH s1 g1 Hw) as (consumed & b' & Hb' & Hall & ->).
      exists (b :: consumed), b'. split; [exact Hb'|split; [|reflexivity]].
      constructor; assumption.
    + inversion Hw; subst. exists [], b.
      split; [exact Hb|split; [constructor|reflexivity]].
Qed.

Lemma map_replicate {A B} (f : A -> B) (n : nat) (x : A) :
  map f (replicate n x) = replicate n (f x).
Proof. induction n as [|n IH]; cbn; [reflexivity|rewrite IH; reflexivity]. Qed.

End KernelMatrices.

(** X4: [compute_kernel] succeeds exactly when the kernel is not custom
    and the matrix of every block can be computed; the executor then holds
    one matrix per block, in block order, and is otherwise as it was (its
    job queue included). *)
Theorem compute_kernel_ok_iff {F : Type} `{SF : Scalar F}
  `{CF : Collaborators F} (cm cm' : ComputationManager)
  (blocks : list Features) (kernel : Kernel) :
  compute_kernel cm blocks kernel = Ok cm'
  <-> is_custom kernel = false
      /\ exists kms,
           Forall2 (fun block km => get_kernel_matrix kernel block = inr km)
             blocks kms
           /\ cm' = cm_set_data cm kms.
Proof.
  unfold compute_kernel. split.
  - destruct (is_custom kernel); [discriminate|].
    destruct (kernel_matrices kernel blocks) as [what|kms] eqn:Hk;
      [discriminate|].
    intros Heq. inversion Heq; subst. split; [reflexivity|].
    exists kms. split; [|reflexivity]. apply kernel_matrices_inr_iff. exact Hk.
  - intros [Hc (kms & Hall & ->)]. rewrite Hc.
    apply kernel_matrices_inr_iff in Hall. rewrite Hall. reflexivity.
Qed.

(* ================================================================== *)
(** ** What a pass leaves behind *)

(** X5: whatever their outcome, [compute_statistic_variance],
    [compute_statistic_and_Q] and [sample_null] leave the configuration,
    the kernel set, the kernel manager and the settings of the data manager
    (source, train mode, split ratio, blockwise flag, block sizes) as they
    found them. *)
Theorem estimators_keep_configuration {F : Type} `{SF : Scalar F}
  `{CF : Collaborators F} (m : CMMD) :
  same_configuration m (snd (compute_statistic_variance m))
  /\ same_configuration m (snd (compute_statistic_and_Q m))
  /\ same_configuration m (snd (sample_null m)).
Proof.
  unfold same_configuration. split; [|split].
  - unfold compute_statistic_variance.
    destruct (kernel_at (kernel_manager m) 0); [|cbn; repeat split].
    cbv zeta.
    destruct (while_next _ _ _ _) as [[[a|e] rest] g]; cbn; repeat split.
  - unfold compute_statistic_and_Q.
    destruct (_ =? _)%nat; [cbn; repeat split|].
    cbv zeta.
    destruct (while_next _ _ _ _) as [[[a|e] rest] g]; cbn; repeat split.
  - unfold sample_null.
    destruct (kernel_at (kernel_manager m) 0); [|cbn; repeat split].
    cbv zeta.
    destruct (sn_init (num_null_samples (self m))) as [a0|e0];
      [|cbn; repeat split].
    destruct (create_statistic_job (self m) (data_manager m)) as [sj pj].
    destruct (while_next _ _ _ _) as [[[a|e] rest] g]; cbn; repeat split.
Qed.

(** X6: once past their checks the three estimators bracket the pass
    with [start] and [end] only when it succeeds.  After a value has been
    returned the stream is ended and every burst up to the first empty one
    has been fetched; after an exception the stream is still started and
    stands just behind the burst that failed.  For [sample_null] the checks
    include the vectors it builds first: with a negative number of null
    samples it raises their length error before the stream is started and
    leaves the engine as it was. *)
Theorem pass_ends_stream_only_on_success {F : Type} `{SF : Scalar F}
  `{CF : Collaborators F} (m : CMMD) (kernel : Kernel) :
  kernel_at (kernel_manager m) 0 = Some kernel ->
  kernel_selection_mgr (self m) <> [] ->
  pass_outcome m (compute_statistic_variance m)
  /\ pass_outcome m (compute_statistic_and_Q m)
  /\ ((0 <= num_null_samples (self m))%Z -> pass_outcome m (sample_null m))
  /\ ((num_null_samples (self m) < 0)%Z ->
      sample_null m = (Throw (Length_error (num_null_samples (self m))), m)).
Proof.
  intros Hk Hne. unfold pass_outcome. split; [|split; [|split]].
  - unfold compute_statistic_variance. rewrite Hk. cbv zeta.
    cbn [dm_start dm_pending].
    destruct (while_next _ _ _ _) as [[[a|e] rest] g] eqn:Hw; cbn.
    + split; [reflexivity|]. exact (while_next_ok_rest _ _ _ _ _ _ _ Hw).
    + split; [reflexivity|]. exact (while_next_throw_split _ _ _ _ _ _ _ Hw).
  - unfold compute_statistic_and_Q.
    destruct (_ =? _)%nat eqn:Hn.
    { apply Nat.eqb_eq, length_zero_iff_nil in Hn. contradiction. }
    cbv zeta. cbn [dm_start dm_pending].
    destruct (while_next _ _ _ _) as [[[a|e] rest] g] eqn:Hw; cbn.
    + split; [reflexivity|]. exact (while_next_ok_rest _ _ _ _ _ _ _ Hw).
    + split; [reflexivity|]. exact (while_next_throw_split _ _ _ _ _ _ _ Hw).
  - intros HR. unfold sample_null. rewrite Hk. cbv zeta.
    rewrite (sn_init_nonneg _ HR).
    destruct (create_statistic_job (self m) (data_manager m)) as [sj pj].
    cbn [dm_start dm_pending].
    destruct (while_next _ _ _ _) as [[[a|e] rest] g] eqn:Hw; cbn.
    + split; [reflexivity|]. exact (while_next_ok_rest _ _ _ _ _ _ _ Hw).
    + split; [reflexivity|]. exact (while_next_throw_split _ _ _ _ _ _ _ Hw).
  - intros HR. unfold sample_null. rewrite Hk. cbv zeta.
    rewrite (sn_init_negative _ HR). reflexivity.
Qed.

Lemma pass_ends_stream_only_on_success_witness :
  let m := Exact.engine Exact.oversized (Exact.Linear (Qc_of_Z 2)) in
  pass_outcome m (compute_statistic_variance m)
  /\ pass_outcome m (compute_statistic_and_Q m)
  /\ ((0 <= num_null_samples (self m))%Z -> pass_outcome m (sample_null m))
  /\ ((num_null_samples (self m) < 0)%Z ->
      sample_null m = (Throw (Length_error (num_null_samples (self m))), m)).
Proof.
  cbv zeta.
  apply (pass_ends_stream_only_on_success
           (Exact.engine Exact.oversized (Exact.Linear (Qc_of_Z 2)))
           (Exact.Linear (Qc_of_Z 2))).
  - reflexivity.
  - discriminate.
Defined.

(* ================================================================== *)
(** ** Streams that deliver nothing *)

(** X7: on a stream whose first burst is empty the burst loops do not run:
    [compute_statistic_variance] returns the normalised zero statistic and
    the zero variance (normalised in permutation mode only),
    [compute_statistic_and_Q] the zero vector and the zero matrix, and
    [sample_null], when the number of null samples is not negative, the
    normalised zero once per null sample.  No kernel matrix is asked for,
    so a custom kernel goes unnoticed, and the generator is not advanced. *)
Theorem empty_stream_results {F : Type} `{SF : Scalar F}
  `{CF : Collaborators F} (m : CMMD) (kernel : Kernel) :
  kernel_at (kernel_manager m) 0 = Some kernel ->
  kernel_selection_mgr (self m) <> [] ->
  delivered (dm_pending (data_manager m)) = [] ->
  let n := length (kernel_selection_mgr (self m)) in
  fst (compute_statistic_variance m)
  = Ok (normalize_statistic fzero,
        match variance_estimation_method (self m) with
        | VEM_PERMUTATION => normalize_variance fzero
        | VEM_DIRECT => fzero
        end)
  /\ fst (compute_statistic_and_Q m)
     = Ok (replicate n fzero, mat_fill n n fzero)
  /\ sg_rand (snd (compute_statistic_variance m)) = sg_rand m
  /\ sg_rand (snd (compute_statistic_and_Q m)) = sg_rand m
  /\ ((0 <= num_null_samples (self m))%Z ->
      fst (sample_null m)
      = Ok (replicate (Z.to_nat (num_null_samples (self m)))
              (normalize_statistic fzero))
      /\ sg_rand (snd (sample_null m)) = sg_rand m).
Proof.
  intros Hk Hne Hempty n.
  assert (Hn : (length (kernel_selection_mgr (self m)) =? 0)%nat = false).
  { apply Nat.eqb_neq. intros Hz. apply length_zero_iff_nil in Hz.
    contradiction. }
  assert (Hsv : fst (compute_statistic_variance m)
                = Ok (normalize_statistic fzero,
                      match variance_estimation_method (self m) with
                      | VEM_PERMUTATION => normalize_variance fzero
                      | VEM_DIRECT => fzero
                      end)
                /\ sg_rand (snd (compute_statistic_variance m)) = sg_rand m).
  { unfold compute_statistic_variance. rewrite Hk. cbv zeta.
    cbn [dm_start dm_pending].
    rewrite while_next_nothing_delivered by exact Hempty.
    split; reflexivity. }
  assert (Hsq : fst (compute_statistic_and_Q m)
                = Ok (replicate n fzero, mat_fill n n fzero)
                /\ sg_rand (snd (compute_statistic_and_Q m)) = sg_rand m).
  { unfold compute_statistic_and_Q. rewrite Hn. cbv zeta.
    cbn [dm_start dm_pending].
    rewrite while_next_nothing_delivered by exact Hempty.
    cbn [fst snd sg_rand sq_init sq_statistic sq_Q].
    rewrite for_each_by_value_unchanged. split; reflexivity. }
  destruct Hsv as [Hsv1 Hsv2]. destruct Hsq as [Hsq1 Hsq2].
  split; [exact Hsv1|]. split; [exact Hsq1|]. split; [exact Hsv2|].
  split; [exact Hsq2|].
  intros HR. unfold sample_null. rewrite Hk. cbv zeta.
  rewrite (sn_init_nonneg _ HR).
  destruct (create_statistic_job (self m) (data_manager m)) as [sj pj].
  cbn [dm_start dm_pending].
  rewrite while_next_nothing_delivered by exact Hempty.
  cbn [fst snd sg_rand sn_filled sn_statistic].
  rewrite for_each_by_reference_map, map_replicate.
  split; reflexivity.
Qed.

Lemma empty_stream_results_witness :
  let m := Toy.engine ([] :: Toy.stream) Toy.Custom in
  let n := length (kernel_selection_mgr (self m)) in
  fst (compute_statistic_variance m)
  = Ok (normalize_statistic fzero,
        match variance_estimation_method (self m) with
        | VEM_PERMUTATION => normalize_variance fzero
        | VEM_DIRECT => fzero
        end)
  /\ fst (compute_statistic_and_Q m)
     = Ok (replicate n fzero, mat_fill n n fzero)
  /\ sg_rand (snd (compute_statistic_variance m)) = sg_rand m
  /\ sg_rand (snd (compute_statistic_and_Q m)) = sg_rand m
  /\ ((0 <= num_null_samples (self m))%Z ->
      fst (sample_null m)
      = Ok (replicate (Z.to_nat (num_null_samples (self m)))
              (normalize_statistic fzero))
      /\ sg_rand (snd (sample_null m)) = sg_rand m).
Proof.
  cbv zeta.
  apply (empty_stream_results (Toy.engine ([] :: Toy.stream) Toy.Custom)
           Toy.Custom).
  - reflexivity.
  - discriminate.
  - reflexivity.
Defined.

(** X8: with a custom kernel bound and a stream that delivers a burst,
    [compute_statistic_variance], and [sample_null] when the number of null
    samples is not negative, fail with "Underlying kernel cannot be custom"
    on the first burst: exactly one burst has been fetched, no job has run
    and the generator is as it was. *)
Theorem custom_kernel_rejected_on_first_burst {F : Type} `{SF : Scalar F}
  `{CF : Collaborators F} (m : CMMD) (kernel : Kernel) (b : Burst)
  (rest : list Burst) :
  kernel_at (kernel_manager m) 0 = Some kernel ->
  is_custom kernel = true ->
  dm_pending (data_manager m) = b :: rest ->
  burst_empty b = false ->
  let m' := with_data_manager m
              (dm_with_pending (dm_start (data_manager m)) rest) in
  compute_statistic_variance m = (Throw Underlying_kernel_custom, m')
  /\ ((0 <= num_null_samples (self m))%Z ->
      sample_null m = (Throw Underlying_kernel_custom, m')).
Proof.
  intros Hk Hc Hp Hb m'. split.
  - unfold compute_statistic_variance. rewrite Hk. cbv zeta.
    cbn [dm_start dm_pending]. rewrite Hp. cbn [while_next].
    rewrite Hb. unfold sv_burst, bind, lift, compute_kernel.
    rewrite Hc. reflexivity.
  - intros HR. unfold sample_null. rewrite Hk. cbv zeta.
    rewrite (sn_init_nonneg _ HR).
    destruct (create_statistic_job (self m) (data_manager m)) as [sj pj].
    cbn [dm_start dm_pending]. rewrite Hp. cbn [while_next].
    rewrite Hb. unfold sn_burst, bind, lift, compute_kernel.
    rewrite Hc. reflexivity.
Qed.

Lemma custom_kernel_rejected_on_first_burst_witness :
  let m := Toy.engine Toy.stream Toy.Custom in
  let m' := with_data_manager m
              (dm_with_pending (dm_start (data_manager m))
                 [[(5, 2); (13, 2)]]%float) in
  compute_statistic_variance m = (Throw Underlying_kernel_custom, m')
  /\ ((0 <= num_null_samples (self m))%Z ->
      sample_null m = (Throw Underlying_kernel_custom, m')).
Proof.
  cbv zeta.
  apply (custom_kernel_rejected_on_first_burst
           (Toy.engine Toy.stream Toy.Custom) Toy.Custom
           [(3, 1); (7, 1)]%float [[(5, 2); (13, 2)]]%float);
    reflexivity.
Defined.

(* ================================================================== *)
(** ** The variance estimate *)

Section VarianceEstimate.
Context {F : Type} `{SF : Scalar F} `{CF : Collaborators F}.

Lemma compute_variance_fst (m : CMMD) :
  fst (compute_variance m) = result_map snd (fst (compute_statistic_variance m)).
Proof.
  unfold compute_variance.
  destruct (compute_statistic_variance m) as [[p|e] m']; reflexivity.
Qed.

Lemma compute_statistic_fst (m : CMMD) :
  fst (compute_statistic m) = result_map fst (fst (compute_statistic_variance m)).
Proof.
  unfold compute_statistic.
  destruct (compute_statistic_variance m) as [[p|e] m']; reflexivity.
Qed.

Lemma run_blocks_app (gpu : bool) (jobs : list Job) (d1 d2 : list KMatrix)
  (g : Rng) :
  run_blocks gpu jobs (d1 ++ d2) g
  = let '(r1, g1) := run_blocks gpu jobs d1 g in
    let '(r2, g2) := run_blocks gpu jobs d2 g1 in
    (r1 ++ r2, g2).
Proof.
  revert g. induction d1 as [|d d1 IH]; intros g; cbn.
  - destruct (run_blocks gpu jobs d2 g). reflexivity.
  - destruct (run_jobs gpu jobs d g) as [row g1]. rewrite IH.
    destruct (run_blocks gpu jobs d1 g1) as [r1 g2].
    destruct (run_blocks gpu jobs d2 g2) as [r2 g3]. reflexivity.
Qed.

(** Over a pass the executor returns, burst after burst, what it would
    return on all the blocks of the stream at once. *)
Lemma burst_results_concat (gpu : bool) (jobs : list Job)
  (gram : Features -> KMatrix) (bursts : list Burst) (g : Rng) :
  let '(results, g') := burst_results gpu jobs gram bursts g in
  (concat results, g')
  = run_blocks gpu jobs (map gram (concat (map merge_samples bursts))) g.
Proof.
  unfold burst_results. revert g.
  induction bursts as [|b bursts IH]; intros g; cbn.
  - reflexivity.
  - rewrite map_app, run_blocks_app.
    destruct (run_blocks gpu jobs (map gram (merge_samples b)) g) as [r1 g1].
    specialize (IH g1).
    destruct (per_burst _ bursts g1) as [more g2]. cbn. rewrite <- IH.
    reflexivity.
Qed.

Lemma job_scalars_concat (j : nat) (results : list (list (list F))) :
  job_scalars j results = map (fun row : list F => row !!! j) (concat results).
Proof.
  unfold job_scalars. induction results as [|rows results IH]; cbn.
  - reflexivity.
  - rewrite map_app, IH. reflexivity.
Qed.

(** The scalars of a pass depend on the stream through its blocks only. *)
Lemma sv_results_regrouped (m : CMMD) (gram : Features -> KMatrix)
  (pending' : list Burst) (j : nat) :
  stream_blocks pending' = stream_blocks (dm_pending (data_manager m)) ->
  job_scalars j
    (sv_results
       (with_data_manager m (dm_with_pending (data_manager m) pending')) gram)
  = job_scalars j (sv_results m gram).
Proof.
  intros Hblocks. rewrite !job_scalars_concat. f_equal.
  unfold sv_results. cbv zeta.
  cbn [with_data_manager self data_manager sg_rand dm_with_pending dm_pending].
  assert (Hjobs : create_computation_jobs (self m)
                    (dm_with_pending (data_manager m) pending')
                  = create_computation_jobs (self m) (data_manager m))
    by reflexivity.
  rewrite Hjobs.
  set (jobs := [_; _]). clearbody jobs.
  pose proof (burst_results_concat (use_gpu (self m)) jobs gram
                (delivered pending') (sg_rand m)) as H1.
  pose proof (burst_results_concat (use_gpu (self m)) jobs gram
                (delivered (dm_pending (data_manager m))) (sg_rand m)) as H2.
  unfold stream_blocks in Hblocks. rewrite Hblocks in H1.
  destruct (burst_results _ _ _ (delivered pending') _) as [r1 g1].
  destruct (burst_results _ _ _ (delivered (dm_pending _)) _) as [r2 g2].
  cbn [fst]. rewrite <- H2 in H1. inversion H1. reflexivity.
Qed.

End VarianceEstimate.

(** X9: with the direct variance method [compute_variance] returns the
    running mean of the scalars the direct estimation job produced, one per
    block of the stream, as it stands: the variance normalisation is
    applied in permutation mode only. *)
Theorem direct_variance_is_not_normalized {F : Type} `{SF : Scalar F}
  `{CF : Collaborators F} (m : CMMD) (kernel : Kernel)
  (gram : Features -> KMatrix) :
  kernel_at (kernel_manager m) 0 = Some kernel ->
  is_custom kernel = false ->
  kernel_computes kernel gram (dm_pending (data_manager m)) ->
  (Z.of_nat (length (stream_blocks (dm_pending (data_manager m)))) < index_max)%Z ->
  variance_estimation_method (self m) = VEM_DIRECT ->
  variance_job (create_computation_jobs (self m) (data_manager m))
  = get_direct_estimation_method
  /\ fst (compute_variance m) = Ok (online_mean (variance_scalars m gram))
  /\ length (variance_scalars m gram)
     = length (stream_blocks (dm_pending (data_manager m))).
Proof.
  intros Hk Hc Hg Hlen Hv. split; [|split].
  - unfold create_computation_jobs, create_statistic_job, create_variance_job.
    cbn. rewrite Hv. reflexivity.
  - rewrite compute_variance_fst,
      (compute_statistic_variance_ok m kernel gram Hk Hc Hg Hlen), Hv.
    reflexivity.
  - unfold variance_scalars, sv_results. rewrite job_scalars_length.
    reflexivity.
Qed.

Lemma direct_variance_is_not_normalized_witness :
  let m := Toy.engine Toy.stream (Toy.Gaussian 1) in
  let gram := Toy.toy_gram (Toy.Gaussian 1) in
  variance_job (create_computation_jobs (self m) (data_manager m))
  = get_direct_estimation_method
  /\ fst (compute_variance m) = Ok (online_mean (variance_scalars m gram))
  /\ length (variance_scalars m gram)
     = length (stream_blocks (dm_pending (data_manager m))).
Proof.
  cbv zeta.
  apply (direct_variance_is_not_normalized
           (Toy.engine Toy.stream (Toy.Gaussian 1)) (Toy.Gaussian 1)
           (Toy.toy_gram (Toy.Gaussian 1))).
  - reflexivity.
  - reflexivity.
  - vm_compute. repeat constructor.
  - vm_compute. reflexivity.
  - reflexivity.
Defined.

(** X10: in exact arithmetic and permutation mode [compute_variance]
    returns the variance normalisation of the sum of the squared deviations
    of the permutation scalars from their arithmetic mean.  The sum is not
    divided by the number of scalars. *)
Theorem permutation_variance_is_sum_of_squared_deviations
  `{CF : Collaborators Qc} (m : CMMD) (kernel : Kernel)
  (gram : Features -> KMatrix) :
  kernel_at (kernel_manager m) 0 = Some kernel ->
  is_custom kernel = false ->
  kernel_computes kernel gram (dm_pending (data_manager m)) ->
  (Z.of_nat (length (stream_blocks (dm_pending (data_manager m)))) < index_max)%Z ->
  variance_estimation_method (self m) = VEM_PERMUTATION ->
  fst (compute_variance m)
  = Ok (normalize_variance (squared_deviations (variance_scalars m gram))).
Proof.
  intros Hk Hc Hg Hlen Hv.
  rewrite compute_variance_fst,
    (compute_statistic_variance_ok m kernel gram Hk Hc Hg Hlen), Hv.
  cbn [result_map snd]. rewrite one_pass_variance_exact. reflexivity.
Qed.

Lemma permutation_variance_is_sum_of_squared_deviations_witness :
  let m := set_variance_estimation_method
             (Exact.engine Exact.stream (Exact.Linear (Qc_of_Z 2)))
             VEM_PERMUTATION in
  let gram := Exact.exact_gram (Exact.Linear (Qc_of_Z 2)) in
  fst (compute_variance m)
  = Ok (normalize_variance (squared_deviations (variance_scalars m gram))).
Proof.
  cbv zeta.
  apply (permutation_variance_is_sum_of_squared_deviations
           (set_variance_estimation_method
              (Exact.engine Exact.stream (Exact.Linear (Qc_of_Z 2)))
              VEM_PERMUTATION)
           (Exact.Linear (Qc_of_Z 2))
           (Exact.exact_gram (Exact.Linear (Qc_of_Z 2)))).
  - reflexivity.
  - reflexivity.
  - vm_compute. repeat constructor.
  - vm_compute. reflexivity.
  - reflexivity.
Defined.

(** X11: how the blocks of the stream are grouped into bursts does not
    change what [compute_statistic_variance] returns: two streams with the
    same blocks in the same order give the same statistic and the same
    variance, whatever the arithmetic. *)
Theorem statistic_variance_independent_of_burst_size {F : Type}
  `{SF : Scalar F} `{CF : Collaborators F} (m : CMMD) (kernel : Kernel)
  (gram : Features -> KMatrix) (pending' : list Burst) :
  kernel_at (kernel_manager m) 0 = Some kernel ->
  is_custom kernel = false ->
  kernel_computes kernel gram (dm_pending (data_manager m)) ->
  stream_blocks pending' = stream_blocks (dm_pending (data_manager m)) ->
  fst (compute_statistic_variance
         (with_data_manager m (dm_with_pending (data_manager m) pending')))
  = fst (compute_statistic_variance m).
Proof.
  intros Hk Hc Hg Hblocks.
  set (m' := with_data_manager m (dm_with_pending (data_manager m) pending')).
  assert (Hg' : kernel_computes kernel gram (dm_pending (data_manager m'))).
  { unfold kernel_computes in *. cbn [m' with_data_manager data_manager
      dm_with_pending dm_pending]. rewrite Hblocks. exact Hg. }
  rewrite (compute_statistic_variance_run m kernel gram Hk Hc Hg),
    (compute_statistic_variance_run m' kernel gram Hk Hc Hg').
  cbv zeta.
  change (self m') with (self m).
  pose proof (sv_steps_statistic (self m) (sv_results m gram) sv_init) as Hs.
  pose proof (sv_steps_statistic (self m) (sv_results m' gram) sv_init) as Hs'.
  cbv zeta in Hs, Hs'.
  unfold m' in Hs'. rewrite (sv_results_regrouped m gram pending' 0 Hblocks) in Hs'.
  fold m' in Hs'. rewrite <- Hs in Hs'. inversion Hs' as [[Hstat Hcount]].
  rewrite Hstat.
  destruct (variance_estimation_method (self m)) eqn:Hv.
  - pose proof (sv_steps_variance_direct (self m) (sv_results m gram) sv_init Hv)
      as Hd.
    pose proof (sv_steps_variance_direct (self m) (sv_results m' gram) sv_init
                  Hv) as Hd'.
    cbv zeta in Hd, Hd'. unfold m' in Hd'.
    rewrite (sv_results_regrouped m gram pending' 1 Hblocks) in Hd'.
    fold m' in Hd'. rewrite <- Hd in Hd'. inversion Hd' as [[Hvar Hc2]].
    rewrite Hvar. reflexivity.
  - pose proof (sv_steps_variance_permutation (self m) (sv_results m gram)
                  sv_init Hv) as Hp.
    pose proof (sv_steps_variance_permutation (self m) (sv_results m' gram)
                  sv_init Hv) as Hp'.
    cbv zeta in Hp, Hp'. unfold m' in Hp'.
    rewrite (sv_results_regrouped m gram pending' 1 Hblocks) in Hp'.
    fold m' in Hp'. rewrite <- Hp in Hp'. inversion Hp' as [[Hmean Hvar Hc2]].
    rewrite Hvar. reflexivity.
Qed.

Lemma statistic_variance_independent_of_burst_size_witness :
  let m := Toy.engine Toy.stream (Toy.Gaussian 1) in
  let pending' := [[(3, 1)]; [(7, 1); (5, 2); (13, 2)]]%float in
  fst (compute_statistic_variance
         (with_data_manager m (dm_with_pending (data_manager m) pending')))
  = fst (compute_statistic_variance m).
Proof.
  cbv zeta.
  apply (statistic_variance_independent_of_burst_size
           (Toy.engine Toy.stream (Toy.Gaussian 1)) (Toy.Gaussian 1)
           (Toy.toy_gram (Toy.Gaussian 1))
           [[(3, 1)]; [(7, 1); (5, 2); (13, 2)]]%float).
  - reflexivity.
  - reflexivity.
  - vm_compute. repeat constructor.
  - reflexivity.
Defined.

(* ================================================================== *)
(** ** Configuration the estimators do not read *)

(** X12: no estimator reads the null approximation method; the number of
    null samples is read by [sample_null] only, and the variance
    estimation method by [compute_statistic_variance] only.  Changing a
    setting an estimator does not read leaves its result as it was. *)
Theorem settings_the_estimators_ignore {F : Type} `{SF : Scalar F}
  `{CF : Collaborators F} (m : CMMD) (nmethod : ENullApproximationMethod)
  (null_samples : Z) (vmethod : EVarianceEstimationMethod) :
  (fst (compute_statistic_variance (set_null_approximation_method m nmethod))
   = fst (compute_statistic_variance m)
   /\ fst (compute_statistic_and_Q (set_null_approximation_method m nmethod))
      = fst (compute_statistic_and_Q m)
   /\ fst (sample_null (set_null_approximation_method m nmethod))
      = fst (sample_null m))
  /\ (fst (compute_statistic_variance (set_num_null_samples m null_samples))
      = fst (compute_statistic_variance m)
      /\ fst (compute_statistic_and_Q (set_num_null_samples m null_samples))
         = fst (compute_statistic_and_Q m))
  /\ (fst (compute_statistic_and_Q (set_variance_estimation_method m vmethod))
      = fst (compute_statistic_and_Q m)
      /\ fst (sample_null (set_variance_estimation_method m vmethod))
         = fst (sample_null m)).
Proof.
  assert (Hsv : forall s' : Self,
            use_gpu s' = use_gpu (self m) ->
            statistic_type s' = statistic_type (self m) ->
            variance_estimation_method s'
            = variance_estimation_method (self m) ->
            fst (compute_statistic_variance (with_self m s'))
            = fst (compute_statistic_variance m)).
  { intros s' Hgpu Htype Hvar. unfold compute_statistic_variance.
    cbn [with_self self data_manager kernel_manager sg_rand].
    destruct (kernel_at (kernel_manager m) 0) as [kernel|]; [|reflexivity].
    cbv zeta.
    unfold create_computation_jobs, create_statistic_job, create_variance_job,
      sv_burst, compute_jobs.
    rewrite Hgpu, Htype, Hvar.
    destruct (while_next _ _ _ _) as [[[a|e] rest] g]; reflexivity. }
  assert (Hsq : forall s' : Self,
            use_gpu s' = use_gpu (self m) ->
            statistic_type s' = statistic_type (self m) ->
            kernel_selection_mgr s' = kernel_selection_mgr (self m) ->
            fst (compute_statistic_and_Q (with_self m s'))
            = fst (compute_statistic_and_Q m)).
  { intros s' Hgpu Htype Hset. unfold compute_statistic_and_Q.
    cbn [with_self self data_manager kernel_manager sg_rand].
    rewrite Hset.
    destruct (_ =? _)%nat; [reflexivity|].
    cbv zeta.
    unfold create_computation_jobs, create_statistic_job, sq_burst, sq_kernel,
      compute_jobs.
    rewrite Hgpu, Htype, Hset.
    destruct (while_next _ _ _ _) as [[[a|e] rest] g]; reflexivity. }
  assert (Hsn : forall s' : Self,
            use_gpu s' = use_gpu (self m) ->
            statistic_type s' = statistic_type (self m) ->
            num_null_samples s' = num_null_samples (self m) ->
            fst (sample_null (with_self m s')) = fst (sample_null m)).
  { intros s' Hgpu Htype Hnum. unfold sample_null.
    cbn [with_self self data_manager kernel_manager sg_rand].
    destruct (kernel_at (kernel_manager m) 0) as [kernel|]; [|reflexivity].
    unfold create_statistic_job, sn_burst, sn_replicates, compute_jobs.
    cbv zeta. rewrite Hgpu, Htype, Hnum.
    destruct (sn_init (num_null_samples (self m))) as [a0|e0]; [|reflexivity].
    destruct (while_next _ _ _ _) as [[[a|e] rest] g]; reflexivity. }
  repeat split;
    first [apply Hsv; reflexivity|apply Hsq; reflexivity|apply Hsn; reflexivity].
Qed.

(* ================================================================== *)
(** ** The kernel set *)

Section KernelSet.
Context {F : Type} `{SF : Scalar F} `{CF : Collaborators F}.

Lemma add_kernels_frame (kernels : list Kernel) (m : CMMD) :
  let m' := fold_left add_kernel kernels m in
  kernel_selection_mgr (self m') = kernel_selection_mgr (self m) ++ kernels
  /\ kernel_manager m' = kernel_manager m
  /\ data_manager m' = data_manager m
  /\ sg_rand m' = sg_rand m.
Proof.
  revert m. induction kernels as [|kernel kernels IH]; intros m; cbn zeta.
  - rewrite app_nil_r. cbn. repeat split.
  - cbn [fold_left]. destruct (IH (add_kernel m kernel)) as (H1 & H2 & H3 & H4).
    cbv zeta in *. rewrite H1, H2, H3, H4. cbn. rewrite <- app_assoc.
    repeat split.
Qed.

End KernelSet.

(** X13: [add_kernel] appends to the selection set, in call order, and
    binds nothing: after any number of calls an engine whose slot 0 was
    null still fails [compute_statistic_variance] and [sample_null] with
    "Kernel is not set", while [compute_statistic_and_Q], after at least
    one call, no longer fails with "No kernels specified". *)
Theorem add_kernel_feeds_selection_only {F : Type} `{SF : Scalar F}
  `{CF : Collaborators F} (m : CMMD) (kernels : list Kernel) :
  kernel_at (kernel_manager m) 0 = None ->
  kernels <> [] ->
  let m' := fold_left add_kernel kernels m in
  kernel_selection_mgr (self m') = kernel_selection_mgr (self m) ++ kernels
  /\ compute_statistic_variance m' = (Throw Kernel_is_not_set, m')
  /\ sample_null m' = (Throw Kernel_is_not_set, m')
  /\ fst (compute_statistic_and_Q m') <> Throw No_kernels_specified.
Proof.
  intros Hk Hne m'.
  destruct (add_kernels_frame kernels m) as (Hset & Hkm & _ & _).
  cbv zeta in Hset, Hkm. fold m' in Hset, Hkm.
  split; [exact Hset|].
  unfold compute_statistic_variance, sample_null. rewrite Hkm, Hk.
  split; [reflexivity|]. split; [reflexivity|].
  intros Hthrow.
  unfold compute_statistic_and_Q in Hthrow.
  destruct (_ =? _)%nat eqn:Hn.
  - apply Nat.eqb_eq, length_zero_iff_nil in Hn. rewrite Hset in Hn.
    apply app_eq_nil in Hn. destruct Hn as [_ Hn]. contradiction.
  - cbv zeta in Hthrow. cbn [dm_start dm_pending] in Hthrow.
    destruct (while_next _ _ _ _) as [[[a|e] rest] g] eqn:Hw; [discriminate|].
    cbn [fst] in Hthrow. inversion Hthrow; subst e.
    destruct (while_next_throw _ _ _ _ _ _ _ Hw) as (b & a0 & g0 & _ & Hb).
    destruct (sq_burst_throw _ _ _ _ _ _ _ Hb)
      as [[Hodd _]|(kernel & _ & Hck)]; [discriminate|].
    destruct (compute_kernel_throw _ _ _ _ Hck)
      as [[Hc _]|(what & block & Hc & _)]; discriminate.
Qed.

Lemma add_kernel_feeds_selection_only_witness :
  let m := CMMD_new (Toy.data Toy.stream) [None] 1%float in
  let kernels := [Toy.Gaussian 1; Toy.Gaussian 2] in
  let m' := fold_left add_kernel kernels m in
  kernel_selection_mgr (self m') = kernel_selection_mgr (self m) ++ kernels
  /\ compute_statistic_variance m' = (Throw Kernel_is_not_set, m')
  /\ sample_null m' = (Throw Kernel_is_not_set, m')
  /\ fst (compute_statistic_and_Q m') <> Throw No_kernels_specified.
Proof.
  cbv zeta.
  apply (add_kernel_feeds_selection_only
           (CMMD_new (Toy.data Toy.stream) [None] 1%float)
           [Toy.Gaussian 1; Toy.Gaussian 2]).
  - reflexivity.
  - discriminate.
Defined.

(* ================================================================== *)
(** ** The distance used by the median heuristic *)

(** X14: [compute_distance] fails with "Could not fetch samples" exactly
    when the next burst of the stream is empty; it returns a distance
    exactly when the burst is not empty and the Euclidean distance of the
    merged first pair of blocks could be computed, and that distance is the
    one returned; every other failure, the failed initialisation included,
    is raised as "Data is too large". *)
Theorem compute_distance_outcome {F : Type} `{SF : Scalar F}
  `{CF : Collaborators F} (m : CMMD) :
  (fst (compute_distance m) = Throw Could_not_fetch_samples
   <-> fst (dm_next (data_manager m)) = [])
  /\ (forall distance,
        fst (compute_distance m) = Ok distance
        <-> exists samples_p samples_q more,
              fst (dm_next (data_manager m)) = (samples_p, samples_q) :: more
              /\ euclidean_distance (create_merged_copy samples_p samples_q)
                 = inr (Some distance))
  /\ (forall e,
        fst (compute_distance m) = Throw e ->
        e = Could_not_fetch_samples \/ exists what, e = Data_is_too_large what).
Proof.
  unfold compute_distance, dm_next.
  cbn [dm_start dm_set_blockwise dm_pending].
  destruct (dm_pending (data_manager m)) as [|[|[p q] more] rest]; cbn [fst].
  - split; [split; reflexivity|]. split.
    + intros distance. split; [discriminate|].
      intros (? & ? & ? & Hnil & _). discriminate.
    + intros e Heq. inversion Heq. left. reflexivity.
  - split; [split; reflexivity|]. split.
    + intros distance. split; [discriminate|].
      intros (? & ? & ? & Hnil & _). discriminate.
    + intros e Heq. inversion Heq. left. reflexivity.
  - destruct (euclidean_distance (create_merged_copy p q)) as [what|[d|]] eqn:Hd;
      cbn [fst].
    + split; [split; discriminate|]. split.
      * intros distance. split; [discriminate|].
        intros (p' & q' & more' & Hcons & Hd'). inversion Hcons; subst.
        rewrite Hd in Hd'. discriminate.
      * intros e Heq. inversion Heq. right. eexists. reflexivity.
    + split; [split; discriminate|]. split.
      * intros distance. split.
        -- intros Heq. inversion Heq; subst. exists p, q, more.
           split; [reflexivity|exact Hd].
        -- intros (p' & q' & more' & Hcons & Hd'). inversion Hcons; subst.
           rewrite Hd in Hd'. inversion Hd'. reflexivity.
      * intros e Heq. discriminate.
    + split; [split; discriminate|]. split.
      * intros distance. split; [discriminate|].
        intros (p' & q' & more' & Hcons & Hd'). inversion Hcons; subst.
        rewrite Hd in Hd'. discriminate.
      * intros e Heq. inversion Heq. right. eexists. reflexivity.
Qed.

Section DistanceRun.
Context {F : Type} `{SF : Scalar F} `{CF : Collaborators F}.

(** What [compute_distance] leaves of the engine. *)
Lemma compute_distance_frame (m : CMMD) :
  let m' := snd (compute_distance m) in
  self m' = self m
  /\ kernel_manager m' = kernel_manager m
  /\ sg_rand m' = sg_rand m
  /\ dm_started (data_manager m') = false
  /\ dm_pending (data_manager m') = tail (dm_pending (data_manager m))
  /\ dm_source (data_manager m') = dm_source (data_manager m)
  /\ dm_train_mode (data_manager m') = dm_train_mode (data_manager m)
  /\ dm_train_test_ratio (data_manager m')
     = dm_train_test_ratio (data_manager m)
  /\ dm_blockwise (data_manager m')
     = match fst (compute_distance m) with
       | Ok _ => dm_blockwise (data_manager m)
       | Throw _ => false
       end.
Proof.
  unfold compute_distance, dm_next.
  cbn [dm_start dm_set_blockwise dm_pending].
  destruct (dm_pending (data_manager m)) as [|[|[p q] more] rest] eqn:Hp.
  - cbn. rewrite Hp. repeat split; reflexivity.
  - cbn. repeat split; reflexivity.
  - destruct (euclidean_distance (create_merged_copy p q)) as [what|[d|]];
      cbn; repeat split; reflexivity.
Qed.

Lemma compute_distance_ok (m : CMMD) (distance : Distance) :
  fst (compute_distance m) = Ok distance ->
  exists samples_p samples_q more rest,
    dm_pending (data_manager m) = ((samples_p, samples_q) :: more) :: rest
    /\ euclidean_distance (create_merged_copy samples_p samples_q)
       = inr (Some distance).
Proof.
  unfold compute_distance, dm_next.
  cbn [dm_start dm_set_blockwise dm_pending].
  destruct (dm_pending (data_manager m)) as [|[|[p q] more] rest];
    try discriminate.
  destruct (euclidean_distance (create_merged_copy p q)) as [what|[d|]] eqn:Hd;
    try discriminate.
  cbn [fst]. intros Heq. inversion Heq; subst.
  exists p, q, more, rest. split; [reflexivity|exact Hd].
Qed.

Lemma compute_distance_throw (m : CMMD) (e : ShogunException) :
  fst (compute_distance m) = Throw e ->
  e = Could_not_fetch_samples \/ exists what, e = Data_is_too_large what.
Proof.
  unfold compute_distance, dm_next.
  cbn [dm_start dm_set_blockwise dm_pending].
  destruct (dm_pending (data_manager m)) as [|[|[p q] more] rest]; cbn [fst];
    try (intros Heq; inversion Heq; left; reflexivity).
  destruct (euclidean_distance (create_merged_copy p q)) as [what|[d|]];
    cbn [fst]; intros Heq; inversion Heq; right; eexists; reflexivity.
Qed.

(** A bound kernel is never reported missing. *)
Lemma bound_kernel_not_reported_missing (m : CMMD) (kernel : Kernel) :
  kernel_at (kernel_manager m) 0 = Some kernel ->
  fst (compute_statistic_variance m) <> Throw Kernel_is_not_set
  /\ fst (sample_null m) <> Throw Kernel_is_not_set.
Proof.
  intros Hk. unfold compute_statistic_variance, sample_null. rewrite Hk.
  destruct (create_statistic_job (self m) (data_manager m)) as [sj pj].
  cbv zeta. cbn [dm_start dm_pending]. split.
  - destruct (while_next _ _ sv_init _) as [[[a|e] rest] g] eqn:Hw;
      [discriminate|].
    cbn [fst]. intros Heq. inversion Heq; subst e.
    destruct (while_next_throw _ _ _ _ _ _ _ Hw) as (b & a0 & g0 & _ & Hb).
    apply sv_burst_throw in Hb. destruct Hb as [Hb _].
    destruct (compute_kernel_throw _ _ _ _ Hb)
      as [[Hc _]|(what & block & Hc & _)]; discriminate.
  - destruct (sn_init (num_null_samples (self m))) as [a1|e1] eqn:Hinit.
    + destruct (while_next _ _ a1 _) as [[[a|e] rest] g] eqn:Hw;
        [discriminate|].
      cbn [fst]. intros Heq. inversion Heq; subst e.
      destruct (while_next_throw _ _ _ _ _ _ _ Hw) as (b & a0 & g0 & _ & Hb).
      apply sn_burst_throw in Hb. destruct Hb as [Hb _].
      destruct (compute_kernel_throw _ _ _ _ Hb)
        as [[Hc _]|(what & block & Hc & _)]; discriminate.
    + apply sn_init_throw in Hinit. destruct Hinit as [-> _].
      cbn [fst]. discriminate.
Qed.

End DistanceRun.

(** X15: whatever its outcome [compute_distance] fetches one burst and
    leaves the stream ended; it touches nothing of the engine but the data
    manager, and of the data manager's settings only the blockwise flag,
    which it restores when it returns a distance and leaves switched off
    when it fails. *)
Theorem compute_distance_restores_blockwise_on_success {F : Type}
  `{SF : Scalar F} `{CF : Collaborators F} (m : CMMD) :
  let m' := snd (compute_distance m) in
  self m' = self m
  /\ kernel_manager m' = kernel_manager m
  /\ sg_rand m' = sg_rand m
  /\ dm_started (data_manager m') = false
  /\ dm_pending (data_manager m') = tail (dm_pending (data_manager m))
  /\ dm_source (data_manager m') = dm_source (data_manager m)
  /\ dm_train_mode (data_manager m') = dm_train_mode (data_manager m)
  /\ dm_train_test_ratio (data_manager m')
     = dm_train_test_ratio (data_manager m)
  /\ dm_blockwise (data_manager m')
     = match fst (compute_distance m) with
       | Ok _ => dm_blockwise (data_manager m)
       | Throw _ => false
       end.
Proof.
  unfold compute_distance, dm_next.
  cbn [dm_start dm_set_blockwise dm_pending].
  destruct (dm_pending (data_manager m)) as [|[|[p q] more] rest] eqn:Hp.
  - cbn. rewrite Hp. repeat split; reflexivity.
  - cbn. repeat split; reflexivity.
  - destruct (euclidean_distance (create_merged_copy p q)) as [what|[d|]];
      cbn; repeat split; reflexivity.
Qed.

(* ================================================================== *)
(** ** Failures and side effects of the kernel selector *)

(** X16: an exception that leaves [select_kernel] is either the one the
    selection policy raised, or it was raised before any policy ran:
    weighted selection asked of the median heuristic or of cross
    validation, an unsupported method, or a failure of the distance
    computation of the median heuristic.  In the second case the engine is
    left in training mode with the requested split ratio, and after a
    failed distance computation with the blockwise flag switched off. *)
Theorem select_kernel_failure_leaves_training_mode_on {F : Type}
  `{SF : Scalar F} `{CF : Collaborators F}
  (policy_select_kernel : KernelSelection -> CMMD -> Result Kernel * CMMD)
  (kmethod : EKernelSelectionMethod) (weighted_kernel : bool)
  (train_test_ratio : F) (num_run : Z) (alpha : F) (m m' : CMMD)
  (e : ShogunException) :
  select_kernel policy_select_kernel kmethod weighted_kernel train_test_ratio
    num_run alpha m = (Throw e, m') ->
  (exists policy m2, policy_select_kernel policy m2 = (Throw e, m'))
  \/ (self m' = self m
      /\ kernel_manager m' = kernel_manager m
      /\ sg_rand m' = sg_rand m
      /\ dm_train_mode (data_manager m') = true
      /\ dm_train_test_ratio (data_manager m') = train_test_ratio
      /\ ((weighted_kernel = true
           /\ (kmethod = KSM_MEDIAN_HEURISTIC
               \/ kmethod = KSM_MAXIMIZE_XVALIDATION)
           /\ e = Weighted_not_possible kmethod
           /\ dm_pending (data_manager m') = dm_pending (data_manager m))
          \/ (kmethod = KSM_OTHER
              /\ e = Unsupported_selection_method
              /\ dm_pending (data_manager m') = dm_pending (data_manager m))
          \/ (kmethod = KSM_MEDIAN_HEURISTIC
              /\ weighted_kernel = false
              /\ (e = Could_not_fetch_samples
                  \/ exists what, e = Data_is_too_large what)
              /\ dm_blockwise (data_manager m') = false))).
Proof.
  unfold select_kernel. cbv zeta.
  set (m1 := with_data_manager m _).
  assert (Hpolicy : forall policy m2,
            match policy_select_kernel policy m2 with
            | (Throw e, m3) => (Throw e, m3)
            | (Ok kernel, m3) =>
                (Ok tt,
                 with_data_manager
                   (with_kernel_manager m3
                      (restore_kernel_at
                         (set_kernel_at (kernel_manager m3) 0 kernel) 0))
                   (dm_set_train_mode (data_manager m3) false))
            end = (Throw e, m') ->
            exists policy m2, policy_select_kernel policy m2 = (Throw e, m')).
  { intros policy m2 Hsel.
    destruct (policy_select_kernel policy m2) as [[kernel|e1] m3] eqn:Hp;
      [discriminate|].
    inversion Hsel; subst. exists policy, m2. exact Hp. }
  destruct kmethod.
  - destruct weighted_kernel.
    + intros Heq. inversion Heq; subst. right. cbn.
      repeat split. left. repeat split. left. reflexivity.
    + pose proof (compute_distance_frame m1) as Hframe. cbv zeta in Hframe.
      pose proof (compute_distance_throw m1) as Hthrow.
      destruct (compute_distance m1) as [[distance|e1] md].
      * intros Hsel. left. exact (Hpolicy _ _ Hsel).
      * intros Heq. inversion Heq; subst. right.
        cbn [fst snd] in Hframe, Hthrow.
        destruct Hframe as (Hs & Hkm & Hg & _ & _ & _ & Hmode & Hratio & Hbw).
        repeat split; try assumption.
        right. right. repeat split. exact (Hthrow e eq_refl). exact Hbw.
  - destruct weighted_kernel.
    + intros Heq. inversion Heq; subst. right. cbn.
      repeat split. left. repeat split. right. reflexivity.
    + intros Hsel. left. exact (Hpolicy _ _ Hsel).
  - intros Hsel. left. exact (Hpolicy _ _ Hsel).
  - intros Hsel. left. exact (Hpolicy _ _ Hsel).
  - intros Heq. inversion Heq; subst. right. cbn.
    repeat split. right. left. repeat split.
Qed.

Lemma select_kernel_failure_leaves_training_mode_on_witness :
  let m := Exact.engine ([] :: Exact.stream) (Exact.Linear (Qc_of_Z 2)) in
  let policy_select_kernel := Exact.first_kernel in
  let kmethod := KSM_MEDIAN_HEURISTIC in
  let weighted_kernel := false in
  let train_test_ratio := Qc_of_Z 3 in
  let e := Could_not_fetch_samples in
  let m' := snd (select_kernel policy_select_kernel kmethod weighted_kernel
                   train_test_ratio 1%Z (Qc_of_Z 0) m) in
  (exists policy m2, policy_select_kernel policy m2 = (Throw e, m'))
  \/ (self m' = self m
      /\ kernel_manager m' = kernel_manager m
      /\ sg_rand m' = sg_rand m
      /\ dm_train_mode (data_manager m') = true
      /\ dm_train_test_ratio (data_manager m') = train_test_ratio
      /\ ((weighted_kernel = true
           /\ (kmethod = KSM_MEDIAN_HEURISTIC
               \/ kmethod = KSM_MAXIMIZE_XVALIDATION)
           /\ e = Weighted_not_possible kmethod
           /\ dm_pending (data_manager m') = dm_pending (data_manager m))
          \/ (kmethod = KSM_OTHER
              /\ e = Unsupported_selection_method
              /\ dm_pending (data_manager m') = dm_pending (data_manager m))
          \/ (kmethod = KSM_MEDIAN_HEURISTIC
              /\ weighted_kernel = false
              /\ (e = Could_not_fetch_samples
                  \/ exists what, e = Data_is_too_large what)
              /\ dm_blockwise (data_manager m') = false))).
Proof.
  cbv zeta.
  apply (select_kernel_failure_leaves_training_mode_on Exact.first_kernel
           KSM_MEDIAN_HEURISTIC false (Qc_of_Z 3) 1%Z (Qc_of_Z 0)
           (Exact.engine ([] :: Exact.stream) (Exact.Linear (Qc_of_Z 2)))).
  reflexivity.
Defined.

(** X17: when [select_kernel] succeeds with the median heuristic, the
    distance handed to the policy is the Euclidean distance of the merged
    first pair of blocks of the next burst, and the policy runs on a stream
    that has been rewound to its source and ended, with the blockwise flag
    as it was before the call. *)
Theorem median_heuristic_selects_on_rewound_stream {F : Type}
  `{SF : Scalar F} `{CF : Collaborators F}
  (policy_select_kernel : KernelSelection -> CMMD -> Result Kernel * CMMD)
  (weighted_kernel : bool) (train_test_ratio : F) (num_run : Z) (alpha : F)
  (m m' : CMMD) :
  select_kernel policy_select_kernel KSM_MEDIAN_HEURISTIC weighted_kernel
    train_test_ratio num_run alpha m = (Ok tt, m') ->
  weighted_kernel = false
  /\ exists samples_p samples_q more rest distance m2 kernel m3,
       dm_pending (data_manager m) = ((samples_p, samples_q) :: more) :: rest
       /\ euclidean_distance (create_merged_copy samples_p samples_q)
          = inr (Some distance)
       /\ policy_select_kernel (MedianHeuristic distance) m2 = (Ok kernel, m3)
       /\ dm_pending (data_manager m2) = dm_source (data_manager m)
       /\ dm_started (data_manager m2) = false
       /\ dm_blockwise (data_manager m2) = dm_blockwise (data_manager m)
       /\ self m2 = self m
       /\ kernel_manager m2 = kernel_manager m
       /\ sg_rand m2 = sg_rand m.
Proof.
  unfold select_kernel. cbv zeta.
  set (m1 := with_data_manager m _).
  destruct weighted_kernel; [discriminate|].
  pose proof (compute_distance_frame m1) as Hframe. cbv zeta in Hframe.
  pose proof (compute_distance_ok m1) as Hok.
  destruct (compute_distance m1) as [[distance|e1] md]; [|discriminate].
  cbn [fst snd] in Hframe, Hok.
  destruct (Hok distance eq_refl) as (p & q & more & rest & Hp & Hd).
  destruct Hframe as (Hs & Hkm & Hg & Hst & _ & Hsrc & _ & _ & Hbw).
  set (m2 := with_data_manager md _).
  destruct (policy_select_kernel (MedianHeuristic distance) m2)
    as [[kernel|e] m3] eqn:Hpol; [|discriminate].
  intros _. split; [reflexivity|].
  exists p, q, more, rest, distance, m2, kernel, m3.
  repeat split; try assumption.
Qed.

Lemma median_heuristic_selects_on_rewound_stream_witness :
  let m := Toy.engine Toy.stream (Toy.Gaussian 1) in
  exists samples_p samples_q more rest distance m2 kernel m3,
    dm_pending (data_manager m) = ((samples_p, samples_q) :: more) :: rest
    /\ euclidean_distance (create_merged_copy samples_p samples_q)
       = inr (Some distance)
    /\ Toy.first_kernel (MedianHeuristic distance) m2 = (Ok kernel, m3)
    /\ dm_pending (data_manager m2) = dm_source (data_manager m)
    /\ dm_started (data_manager m2) = false
    /\ dm_blockwise (data_manager m2) = dm_blockwise (data_manager m)
    /\ self m2 = self m
    /\ kernel_manager m2 = kernel_manager m
    /\ sg_rand m2 = sg_rand m.
Proof.
  cbv zeta.
  apply (median_heuristic_selects_on_rewound_stream Toy.first_kernel false
           0.5%float 1%Z 0.0625%float
           (Toy.engine Toy.stream (Toy.Gaussian 1))
           (snd (select_kernel Toy.first_kernel KSM_MEDIAN_HEURISTIC false
                   0.5%float 1%Z 0.0625%float
                   (Toy.engine Toy.stream (Toy.Gaussian 1))))).
  vm_compute. reflexivity.
Defined.

(** X18: with a policy that leaves the kernel manager alone and a kernel
    manager that has a slot 0, a successful [select_kernel] binds the
    kernel the policy returned to slot 0 and leaves every other slot as it
    was; afterwards neither [compute_statistic_variance] nor [sample_null]
    fails with "Kernel is not set". *)
Theorem select_kernel_binds_selected_kernel {F : Type} `{SF : Scalar F}
  `{CF : Collaborators F}
  (policy_select_kernel : KernelSelection -> CMMD -> Result Kernel * CMMD)
  (kmethod : EKernelSelectionMethod) (weighted_kernel : bool)
  (train_test_ratio : F) (num_run : Z) (alpha : F) (m m' : CMMD) :
  (forall policy m2 kernel m3,
     policy_select_kernel policy m2 = (Ok kernel, m3) ->
     kernel_manager m3 = kernel_manager m2) ->
  kernel_manager m <> [] ->
  select_kernel policy_select_kernel kmethod weighted_kernel train_test_ratio
    num_run alpha m = (Ok tt, m') ->
  exists policy m2 kernel m3,
    policy_select_kernel policy m2 = (Ok kernel, m3)
    /\ kernel_at (kernel_manager m') 0 = Some kernel
    /\ (forall i, i <> 0%nat -> kernel_at (kernel_manager m') i
                               = kernel_at (kernel_manager m) i)
    /\ fst (compute_statistic_variance m') <> Throw Kernel_is_not_set
    /\ fst (sample_null m') <> Throw Kernel_is_not_set.
Proof.
  intros Hpol Hne. unfold select_kernel. cbv zeta.
  set (m1 := with_data_manager m _).
  assert (Hfinish : forall policy m2,
            kernel_manager m2 = kernel_manager m ->
            match policy_select_kernel policy m2 with
            | (Throw e, m3) => (Throw e, m3)
            | (Ok kernel, m3) =>
                (Ok tt,
                 with_data_manager
                   (with_kernel_manager m3
                      (restore_kernel_at
                         (set_kernel_at (kernel_manager m3) 0 kernel) 0))
                   (dm_set_train_mode (data_manager m3) false))
            end = (Ok tt, m') ->
            exists policy m2 kernel m3,
              policy_select_kernel policy m2 = (Ok kernel, m3)
              /\ kernel_at (kernel_manager m') 0 = Some kernel
              /\ (forall i, i <> 0%nat -> kernel_at (kernel_manager m') i
                                         = kernel_at (kernel_manager m) i)
              /\ fst (compute_statistic_variance m') <> Throw Kernel_is_not_set
              /\ fst (sample_null m') <> Throw Kernel_is_not_set).
  { intros policy m2 Hkm Hsel.
    destruct (policy_select_kernel policy m2) as [[kernel|e] m3] eqn:Hp;
      [|discriminate].
    inversion Hsel; subst m'. clear Hsel.
    exists policy, m2, kernel, m3. split; [exact Hp|].
    pose proof (Hpol _ _ _ _ Hp) as Hkm3. rewrite Hkm in Hkm3.
    assert (Hslot : kernel_at
                      (kernel_manager
                         (with_data_manager
                            (with_kernel_manager m3
                               (restore_kernel_at
                                  (set_kernel_at (kernel_manager m3) 0 kernel) 0))
                            (dm_set_train_mode (data_manager m3) false))) 0
                    = Some kernel).
    { cbn. unfold kernel_at, restore_kernel_at, set_kernel_at. rewrite Hkm3.
      destruct (kernel_manager m) as [|slot km]; [contradiction|].
      reflexivity. }
    split; [exact Hslot|]. split.
    - intros i Hi. cbn [with_data_manager with_kernel_manager kernel_manager].
      unfold kernel_at, restore_kernel_at, set_kernel_at.
      rewrite Hkm3. destruct i as [|i]; [exfalso; apply Hi; reflexivity|].
      destruct (kernel_manager m) as [|slot km]; reflexivity.
    - exact (bound_kernel_not_reported_missing _ kernel Hslot). }
  destruct kmethod.
  - destruct weighted_kernel; [discriminate|].
    pose proof (compute_distance_frame m1) as Hframe. cbv zeta in Hframe.
    destruct (compute_distance m1) as [[distance|e] md]; [|discriminate].
    cbn [snd] in Hframe. destruct Hframe as (_ & Hkm & _).
    apply Hfinish. cbn. exact Hkm.
  - destruct weighted_kernel; [discriminate|]. apply Hfinish. reflexivity.
  - apply Hfinish. reflexivity.
  - apply Hfinish. reflexivity.
  - discriminate.
Qed.

Lemma select_kernel_binds_selected_kernel_witness :
  let m := add_kernel (CMMD_new (Toy.data Toy.stream) [None] 1%float)
             (Toy.Gaussian 2) in
  let m' := snd (select_kernel Toy.first_kernel KSM_MAXIMIZE_MMD false
                   0.5%float 1%Z 0.0625%float m) in
  exists policy m2 kernel m3,
    Toy.first_kernel policy m2 = (Ok kernel, m3)
    /\ kernel_at (kernel_manager m') 0 = Some kernel
    /\ (forall i, i <> 0%nat -> kernel_at (kernel_manager m') i
                               = kernel_at (kernel_manager m) i)
    /\ fst (compute_statistic_variance m') <> Throw Kernel_is_not_set
    /\ fst (sample_null m') <> Throw Kernel_is_not_set.
Proof.
  cbv zeta.
  apply (select_kernel_binds_selected_kernel Toy.first_kernel KSM_MAXIMIZE_MMD
           false 0.5%float 1%Z 0.0625%float
           (add_kernel (CMMD_new (Toy.data Toy.stream) [None] 1%float)
              (Toy.Gaussian 2))).
  - intros policy m2 kernel m3. unfold Toy.first_kernel.
    destruct (kernel_selection_mgr (self m2)); intros Heq; inversion Heq;
      reflexivity.
  - discriminate.
  - vm_compute. reflexivity.
Defined.

(* ================================================================== *)
(** ** The two kernel stores, the setters *)

(** X19: the kernel manager and the selection set are read by different
    estimators.  [compute_statistic_and_Q] does not look at the kernel
    manager; [compute_statistic_variance] and [sample_null] do not look at
    the selection set, and of the kernel manager they read slot 0 only. *)
Theorem kernel_stores_are_independent {F : Type} `{SF : Scalar F}
  `{CF : Collaborators F} (m : CMMD) :
  (forall km : KernelManager,
     fst (compute_statistic_and_Q (with_kernel_manager m km))
     = fst (compute_statistic_and_Q m))
  /\ (forall kernel : Kernel,
        fst (compute_statistic_variance (add_kernel m kernel))
        = fst (compute_statistic_variance m)
        /\ fst (sample_null (add_kernel m kernel)) = fst (sample_null m))
  /\ (forall km : KernelManager,
        kernel_at km 0 = kernel_at (kernel_manager m) 0 ->
        fst (compute_statistic_variance (with_kernel_manager m km))
        = fst (compute_statistic_variance m)
        /\ fst (sample_null (with_kernel_manager m km))
           = fst (sample_null m)).
Proof.
  split; [|split].
  - intros km. unfold compute_statistic_and_Q.
    cbn [with_kernel_manager self data_manager kernel_manager sg_rand].
    destruct (_ =? _)%nat; [reflexivity|]. cbv zeta.
    destruct (while_next _ _ _ _) as [[[a|e] rest] g]; reflexivity.
  - intros kernel. unfold compute_statistic_variance, sample_null, add_kernel.
    cbn [with_self self data_manager kernel_manager sg_rand].
    destruct (kernel_at (kernel_manager m) 0) as [k|];
      [|split; reflexivity].
    unfold create_computation_jobs, create_statistic_job, create_variance_job,
      sv_burst, sn_burst, sn_replicates, compute_jobs.
    cbv zeta.
    cbn [use_gpu statistic_type variance_estimation_method num_null_samples].
    split.
    + destruct (while_next _ _ sv_init _) as [[[a|e] rest] g]; reflexivity.
    + destruct (sn_init (num_null_samples (self m))) as [a0|e0];
        [|reflexivity].
      destruct (while_next _ _ a0 _) as [[[a|e] rest] g]; reflexivity.
  - intros km Hslot. unfold compute_statistic_variance, sample_null.
    cbn [with_kernel_manager self data_manager kernel_manager sg_rand].
    rewrite Hslot.
    destruct (kernel_at (kernel_manager m) 0) as [k|];
      [|split; reflexivity].
    destruct (create_statistic_job (self m) (data_manager m)) as [sj pj].
    cbv zeta. split.
    + destruct (while_next _ _ sv_init _) as [[[a|e] rest] g]; reflexivity.
    + destruct (sn_init (num_null_samples (self m))) as [a0|e0];
        [|reflexivity].
      destruct (while_next _ _ a0 _) as [[[a|e] rest] g]; reflexivity.
Qed.

(** X20: the five setters write the configuration and nothing else: after
    any sequence of setter calls the selection set, the data manager, the
    kernel manager and the generator are as they were, and adding a kernel
    before the calls or after them gives the same engine. *)
Theorem setters_write_configuration_only {F : Type} `{SF : Scalar F}
  `{CF : Collaborators F} (m : CMMD) (calls : list SetterCall)
  (kernel : Kernel) :
  let m' := fold_left call_setter calls m in
  kernel_selection_mgr (self m') = kernel_selection_mgr (self m)
  /\ data_manager m' = data_manager m
  /\ kernel_manager m' = kernel_manager m
  /\ sg_rand m' = sg_rand m
  /\ fold_left call_setter calls (add_kernel m kernel) = add_kernel m' kernel.
Proof.
  revert m. induction calls as [|c calls IH]; intros m; cbv zeta.
  - cbn. repeat split.
  - cbn [fold_left]. specialize (IH (call_setter m c)). cbv zeta in IH.
    destruct IH as (H1 & H2 & H3 & H4 & H5).
    rewrite H1, H2, H3, H4, <- H5.
    destruct c; cbn; repeat split.
Qed.

(* ================================================================== *)
(** ** The covariance matrix in exact arithmetic *)

Section QuadraticForm.
Local Open Scope Qc_scope.

Lemma Qc_sum_app (l1 l2 : list Qc) :
  Qc_sum (l1 ++ l2) = Qc_sum l1 + Qc_sum l2.
Proof.
  unfold Qc_sum. induction l1 as [|x l1 IH]; simpl.
  - ring.
  - rewrite IH. ring.
Qed.

Lemma Qc_sum_map_plus {A} (f g : A -> Qc) (l : list A) :
  Qc_sum (map (fun i => f i + g i) l) = Qc_sum (map f l) + Qc_sum (map g l).
Proof.
  unfold Qc_sum. induction l as [|x l IH]; simpl.
  - ring.
  - rewrite IH. ring.
Qed.

Lemma Qc_sum_map_scal {A} (c : Qc) (f : A -> Qc) (l : list A) :
  Qc_sum (map (fun i => f i * c) l) = Qc_sum (map f l) * c.
Proof.
  unfold Qc_sum. induction l as [|x l IH]; simpl.
  - ring.
  - rewrite IH. ring.
Qed.

Lemma Qc_sum_map_ext {A} (f g : A -> Qc) (l : list A) :
  (forall i, In i l -> f i = g i) ->
  Qc_sum (map f l) = Qc_sum (map g l).
Proof. intros Hext. rewrite (map_ext_in f g l Hext). reflexivity. Qed.

Lemma Qc_sum_map_zero {A} (l : list A) :
  Qc_sum (map (fun _ => 0) l) = 0.
Proof.
  unfold Qc_sum. induction l as [|x l IH]; simpl.
  - reflexivity.
  - rewrite IH. ring.
Qed.

Lemma Qc_square_nonneg (x : Qc) : 0 <= x * x.
Proof.
  destruct (Qclt_le_dec x 0) as [Hneg|Hpos].
  - replace (x * x) with ((- x) * (- x)) by ring.
    assert (H0 : 0 <= - x).
    { apply Qclt_le_weak, Qcopp_le_compat in Hneg.
      replace (- 0) with 0 in Hneg by ring. exact Hneg. }
    apply Qcmult_nonneg_nonneg; exact H0.
  - apply Qcmult_nonneg_nonneg; exact Hpos.
Qed.

Lemma double_sum_ext (n : nat) (f g : nat -> nat -> Qc) :
  (forall i j, (i < n)%nat -> (j < n)%nat -> f i j = g i j) ->
  double_sum n f = double_sum n g.
Proof.
  intros Hext. unfold double_sum. apply Qc_sum_map_ext. intros i Hi.
  apply Qc_sum_map_ext. intros j Hj.
  apply in_seq in Hi. apply in_seq in Hj. apply Hext; lia.
Qed.

Lemma double_sum_plus (n : nat) (f g : nat -> nat -> Qc) :
  double_sum n (fun i j => f i j + g i j) = double_sum n f + double_sum n g.
Proof.
  unfold double_sum. rewrite <- Qc_sum_map_plus. apply Qc_sum_map_ext.
  intros i _. apply Qc_sum_map_plus.
Qed.

Lemma double_sum_scal (n : nat) (c : Qc) (f : nat -> nat -> Qc) :
  double_sum n (fun i j => f i j * c) = double_sum n f * c.
Proof.
  unfold double_sum. rewrite <- Qc_sum_map_scal. apply Qc_sum_map_ext.
  intros i _. apply Qc_sum_map_scal.
Qed.

Lemma double_sum_zero (n : nat) : double_sum n (fun _ _ => 0) = 0.
Proof.
  unfold double_sum.
  rewrite (Qc_sum_map_ext _ (fun _ => 0)); [apply Qc_sum_map_zero|].
  intros i _. apply Qc_sum_map_zero.
Qed.

Lemma double_sum_product (n : nat) (a : nat -> Qc) :
  double_sum n (fun i j => a i * a j)
  = Qc_sum (map a (seq 0 n)) * Qc_sum (map a (seq 0 n)).
Proof.
  unfold double_sum.
  rewrite (Qc_sum_map_ext _ (fun i => a i * Qc_sum (map a (seq 0 n)))).
  - rewrite Qc_sum_map_scal. reflexivity.
  - intros i _.
    rewrite (Qc_sum_map_ext _ (fun j => a j * a i))
      by (intros; ring).
    rewrite Qc_sum_map_scal. ring.
Qed.

(** The Gram matrix of [n] sequences of equal length is positive
    semidefinite. *)
Lemma gram_nonneg (n : nat) (w : nat -> Qc) (L : nat) (d : nat -> list Qc) :
  (forall i, (i < n)%nat -> length (d i) = L) ->
  0 <= double_sum n
         (fun i j => w i * w j * Qc_sum (zip_with Qcmult (d i) (d j))).
Proof.
  revert d. induction L as [|L IH]; intros d Hd.
  - rewrite (double_sum_ext n _ (fun _ _ => 0)).
    + rewrite double_sum_zero. apply Qcle_refl.
    + intros i j Hi Hj. specialize (Hd i Hi).
      apply length_zero_iff_nil in Hd. rewrite Hd. cbn. ring.
  - rewrite (double_sum_ext n _
               (fun i j =>
                  (w i * List.hd 0 (d i)) * (w j * List.hd 0 (d j))
                  + w i * w j
                    * Qc_sum (zip_with Qcmult (List.tl (d i)) (List.tl (d j))))).
    + rewrite double_sum_plus, double_sum_product.
      apply Qcplus_nonneg_nonneg; [apply Qc_square_nonneg|].
      apply IH. intros i Hi. specialize (Hd i Hi).
      destruct (d i); [discriminate|]. cbn in *. lia.
    + intros i j Hi Hj. pose proof (Hd i Hi) as Hli. pose proof (Hd j Hj) as Hlj.
      destruct (d i) as [|x xs]; [discriminate|].
      destruct (d j) as [|y ys]; [discriminate|].
      cbn. ring.
Qed.

End QuadraticForm.

Section CovarianceForm.
Context `{CF : Collaborators Qc}.
Local Open Scope Qc_scope.

Lemma adjacent_pairs_length_eq {A B} (xs : list A) (ys : list B) :
  length xs = length ys ->
  length (adjacent_pairs xs) = length (adjacent_pairs ys).
Proof.
  revert ys. induction xs as [xs IH] using (induction_ltof1 _ (@length A)).
  unfold ltof in IH. intros ys Hl.
  destruct xs as [|x [|x' xs]]; destruct ys as [|y [|y' ys]];
    try discriminate; cbn; try reflexivity.
  f_equal. apply IH; cbn in *; lia.
Qed.

Lemma pair_differences_length_uniform (n : nat) (mmds : list (list Qc))
  (i : nat) :
  burst_wf n mmds -> (i < n)%nat ->
  length (pair_differences (mmds !!! i))
  = length (pair_differences (mmds !!! 0%nat)).
Proof.
  intros (Hn & _ & Hall) Hi. unfold pair_differences. rewrite !length_map.
  apply adjacent_pairs_length_eq.
  rewrite List.Forall_forall in Hall. apply Hall.
  apply list_elem_of_In, list_elem_of_lookup_total_2. lia.
Qed.

Lemma Q_terms_cons (i j : nat) (mmds : list (list Qc))
  (results : list (list (list Qc))) :
  Q_terms i j (mmds :: results)
  = zip_with Qcmult (pair_differences (mmds !!! i))
      (pair_differences (mmds !!! j))
    ++ Q_terms i j results.
Proof. reflexivity. Qed.

Lemma Q_terms_length_uniform (n : nat) (results : list (list (list Qc)))
  (i j : nat) :
  Forall (burst_wf n) results -> (i < n)%nat -> (j < n)%nat ->
  length (Q_terms i j results) = length (Q_terms 0 0 results).
Proof.
  intros Hwf Hi Hj. induction Hwf as [|mmds results Hb _ IH].
  - reflexivity.
  - rewrite !Q_terms_cons, !length_app, IH, !length_zip_with.
    rewrite (pair_differences_length_uniform n mmds i Hb Hi),
      (pair_differences_length_uniform n mmds j Hb Hj).
    reflexivity.
Qed.

Lemma Q_terms_sum_nonneg (n : nat) (w : nat -> Qc)
  (results : list (list (list Qc))) :
  Forall (burst_wf n) results ->
  0 <= double_sum n (fun i j => w i * w j * Qc_sum (Q_terms i j results)).
Proof.
  intros Hwf. induction Hwf as [|mmds results Hb _ IH].
  - rewrite (double_sum_ext n _ (fun _ _ => 0)).
    + rewrite double_sum_zero. apply Qcle_refl.
    + intros i j _ _. cbn. ring.
  - rewrite (double_sum_ext n _
               (fun i j =>
                  w i * w j
                  * Qc_sum (zip_with Qcmult (pair_differences (mmds !!! i))
                              (pair_differences (mmds !!! j)))
                  + w i * w j * Qc_sum (Q_terms i j results))).
    + rewrite double_sum_plus. apply Qcplus_nonneg_nonneg; [|exact IH].
      apply (gram_nonneg n w (length (pair_differences (mmds !!! 0%nat)))
               (fun i => pair_differences (mmds !!! i))).
      intros i Hi. exact (pair_differences_length_uniform n mmds i Hb Hi).
    + intros i j _ _. rewrite Q_terms_cons, Qc_sum_app. ring.
Qed.

Lemma Qcinv_of_nat_nonneg (k : nat) : 0 <= / Qc_of_Z (Z.of_nat k).
Proof.
  destruct k as [|k].
  - apply Qcle_refl.
  - apply Qclt_le_weak, Qcinv_pos. rewrite <- Z2Qc_inj_0.
    apply (proj1 (Z2Qc_inj_lt 0 (Z.of_nat (S k)))). lia.
Qed.

End CovarianceForm.

(** X21: in exact arithmetic the matrix [compute_statistic_and_Q] returns
    is positive semidefinite: whatever the weights, the quadratic form the
    weighted selection policies minimise is not negative. *)
Theorem Q_is_positive_semidefinite `{CF : Collaborators Qc} (m : CMMD)
  (gram : Kernel -> Features -> KMatrix) :
  kernel_selection_mgr (self m) <> [] ->
  kernels_compute (kernel_selection_mgr (self m)) gram
    (dm_pending (data_manager m)) ->
  even_bursts (dm_pending (data_manager m)) ->
  (Z.of_nat (length (stream_blocks (dm_pending (data_manager m)))) < index_max)%Z ->
  exists statistic Q,
    fst (compute_statistic_and_Q m) = Ok (statistic, Q)
    /\ forall w : nat -> Qc,
         (0 <= quadratic_form (length (kernel_selection_mgr (self m))) w Q)%Qc.
Proof.
  intros Hne Hk Heven Hlen.
  destruct (compute_statistic_and_Q_ok m gram Hne Hk Heven Hlen)
    as (statistic & Q & Hrun & _ & _ & HQ).
  exists statistic, Q. split; [exact Hrun|]. intros w.
  set (n := length (kernel_selection_mgr (self m))) in *.
  assert (Hwf : Forall (burst_wf n) (mk_results m gram)).
  { unfold mk_results. cbv zeta.
    apply multi_kernel_results_wf; [exact Hne|exact Heven]. }
  unfold quadratic_form.
  rewrite (double_sum_ext n _
             (fun i j =>
                (w i * w j * Qc_sum (Q_terms i j (mk_results m gram))
                 * / Qc_of_Z (Z.of_nat
                                (length (Q_terms 0 0 (mk_results m gram)))))%Qc)).
  - rewrite double_sum_scal. apply Qcmult_nonneg_nonneg.
    + apply Q_terms_sum_nonneg. exact Hwf.
    + apply Qcinv_of_nat_nonneg.
  - intros i j Hi Hj. destruct (HQ i j Hi Hj) as [Hij _].
    rewrite Hij, online_mean_exact. unfold arithmetic_mean.
    rewrite (Q_terms_length_uniform n _ i j Hwf Hi Hj).
    unfold Qcdiv. ring.
Qed.

Lemma Q_is_positive_semidefinite_witness :
  let m := add_kernel (Exact.engine Exact.stream (Exact.Linear (Qc_of_Z 2)))
             (Exact.Linear (Qc_of_Z 3)) in
  exists statistic Q,
    fst (compute_statistic_and_Q m) = Ok (statistic, Q)
    /\ forall w : nat -> Qc,
         (0 <= quadratic_form (length (kernel_selection_mgr (self m))) w Q)%Qc.
Proof.
  cbv zeta.
  apply (Q_is_positive_semidefinite
           (add_kernel (Exact.engine Exact.stream (Exact.Linear (Qc_of_Z 2)))
              (Exact.Linear (Qc_of_Z 3)))
           Exact.exact_gram).
  - discriminate.
  - vm_compute. repeat constructor.
  - vm_compute. repeat constructor.
  - vm_compute. reflexivity.
Defined.

(* ================================================================== *)
(** ** The device flag *)

Section Device.
Context {F : Type} `{SF : Scalar F} `{CF : Collaborators F}.
Hypothesis same_on_both_devices :
  forall job d g, run_job true job d g = run_job false job d g.

Lemma run_jobs_device (gpu : bool) (jobs : list Job) (d : KMatrix) (g : Rng) :
  run_jobs gpu jobs d g = run_jobs false jobs d g.
Proof using same_on_both_devices.
  destruct gpu; [|reflexivity].
  revert g. induction jobs as [|job jobs IH]; intros g; cbn; [reflexivity|].
  rewrite same_on_both_devices.
  destruct (run_job false job d g) as [x g1]. rewrite IH. reflexivity.
Qed.

Lemma run_blocks_device (gpu : bool) (jobs : list Job) (data : list KMatrix)
  (g : Rng) :
  run_blocks gpu jobs data g = run_blocks false jobs data g.
Proof using same_on_both_devices.
  destruct gpu; [|reflexivity].
  revert g. induction data as [|d data IH]; intros g; cbn; [reflexivity|].
  rewrite (run_jobs_device true). destruct (run_jobs false jobs d g) as [row g1].
  rewrite IH. reflexivity.
Qed.

Lemma while_next_ext {St} (body body' : Burst -> St -> M St)
  (pending : list Burst) (s : St) (g : Rng) :
  (forall b s g, body b s g = body' b s g) ->
  while_next body pending s g = while_next body' pending s g.
Proof.
  intros Hext. revert s g.
  induction pending as [|b pending IH]; intros s g; cbn; [reflexivity|].
  destruct (burst_empty b); [reflexivity|]. rewrite Hext.
  destruct (body' b s g) as [[s1|e] g1]; [apply IH|reflexivity].
Qed.

Lemma for_each_indexed_ext {A St} (body body' : nat -> A -> St -> M St)
  (k : nat) (xs : list A) (s : St) (g : Rng) :
  (forall k x s g, body k x s g = body' k x s g) ->
  for_each_indexed body k xs s g = for_each_indexed body' k xs s g.
Proof.
  intros Hext. revert k s g.
  induction xs as [|x xs IH]; intros k s g; cbn; [reflexivity|].
  unfold bind. rewrite Hext.
  destruct (body' k x s g) as [[s1|e] g1]; [apply IH|reflexivity].
Qed.

Lemma compute_jobs_device (s : Self) (cm : ComputationManager) (g : Rng) :
  compute_jobs s cm g
  = let '(rows, g') := run_blocks false (job_array cm) (data_array cm) g in
    ({| cm_gpu := use_gpu s; job_array := job_array cm;
        data_array := data_array cm; result_rows := rows |}, g').
Proof using same_on_both_devices.
  unfold compute_jobs, compute_data_parallel_jobs.
  cbn [cm_use cm_gpu job_array data_array].
  rewrite (run_blocks_device (use_gpu s)). reflexivity.
Qed.

Lemma sv_burst_device (s s' : Self) (cm : ComputationManager)
  (kernel : Kernel) (b : Burst) (a : SVAcc) (g : Rng) :
  variance_estimation_method s' = variance_estimation_method s ->
  sv_burst s' cm kernel b a g = sv_burst s cm kernel b a g.
Proof using same_on_both_devices.
  intros Hv. unfold sv_burst, bind, lift, draw, ret.
  destruct (compute_kernel cm (merge_samples b) kernel) as [cm1|e];
    [|reflexivity].
  rewrite !compute_jobs_device.
  destruct (run_blocks false (job_array cm1) (data_array cm1) g) as [rows g1].
  unfold result. cbn [result_rows]. rewrite Hv. reflexivity.
Qed.

Lemma sq_burst_device (s s' : Self) (cm : ComputationManager) (b : Burst)
  (a : QAcc) (g : Rng) :
  kernel_selection_mgr s' = kernel_selection_mgr s ->
  sq_burst s' cm b a g = sq_burst s cm b a g.
Proof using same_on_both_devices.
  intros Hset. unfold sq_burst. rewrite Hset.
  destruct (negb (Nat.even (num_blocks b))); [reflexivity|].
  assert (Hloop : for_each_indexed
                    (sq_kernel s' cm (merge_samples b) (num_blocks b)) 0
                    (kernel_selection_mgr s) a g
                  = for_each_indexed
                      (sq_kernel s cm (merge_samples b) (num_blocks b)) 0
                      (kernel_selection_mgr s) a g).
  { apply for_each_indexed_ext.
    intros k kernel a0 g0. unfold sq_kernel, bind, lift, draw, ret.
    destruct (compute_kernel cm (merge_samples b) kernel) as [cm1|e];
      [|reflexivity].
    rewrite !compute_jobs_device.
    destruct (run_blocks false (job_array cm1) (data_array cm1) g0)
      as [rows g1].
    reflexivity. }
  unfold bind. rewrite Hloop. reflexivity.
Qed.

Lemma sn_burst_device (s s' : Self) (cm : ComputationManager)
  (kernel : Kernel) (b : Burst) (a : SNAcc) (g : Rng) :
  num_null_samples s' = num_null_samples s ->
  sn_burst s' cm kernel b a g = sn_burst s cm kernel b a g.
Proof using same_on_both_devices.
  intros Hn. unfold sn_burst, bind, lift, draw.
  destruct (compute_kernel cm (merge_samples b) kernel) as [cm1|e];
    [|reflexivity].
  assert (Hrep : sn_replicates s' cm1 a g = sn_replicates s cm1 a g).
  { unfold sn_replicates, for_index. rewrite Hn.
    generalize (a, g).
    induction (seq 0 (Z.to_nat (num_null_samples s))) as [|j js IH];
      intros st; cbn [fold_left]; [reflexivity|].
    rewrite !compute_jobs_device.
    destruct (run_blocks false (job_array cm1) (data_array cm1) (snd st))
      as [rows g1].
    apply IH. }
  rewrite Hrep. reflexivity.
Qed.

End Device.

(** X22: the device flag reaches the jobs and nothing else: when every job
    computes the same on both devices, no estimator's result depends on
    [use_gpu]. *)
Theorem use_gpu_only_selects_device {F : Type} `{SF : Scalar F}
  `{CF : Collaborators F} (m : CMMD) (gpu : bool) :
  (forall job d g, run_job true job d g = run_job false job d g) ->
  fst (compute_statistic_variance (set_use_gpu m gpu))
  = fst (compute_statistic_variance m)
  /\ fst (compute_statistic_and_Q (set_use_gpu m gpu))
     = fst (compute_statistic_and_Q m)
  /\ fst (sample_null (set_use_gpu m gpu)) = fst (sample_null m).
Proof.
  intros Hdev.
  split; [|split].
  - unfold compute_statistic_variance.
    cbn [set_use_gpu with_self self data_manager kernel_manager sg_rand].
    destruct (kernel_at (kernel_manager m) 0) as [kernel|]; [|reflexivity].
    cbv zeta.
    match goal with
    | |- context [while_next (sv_burst ?s' ?cm' kernel)] =>
        rewrite (while_next_ext (sv_burst s' cm' kernel)
                   (sv_burst (self m) cm' kernel))
          by (intros; apply (sv_burst_device Hdev); reflexivity)
    end.
    unfold create_computation_jobs, create_statistic_job, create_variance_job.
    cbn [statistic_type variance_estimation_method].
    destruct (while_next _ _ _ _) as [[[a|e] rest] g]; reflexivity.
  - unfold compute_statistic_and_Q.
    cbn [set_use_gpu with_self self data_manager kernel_manager sg_rand
         kernel_selection_mgr].
    destruct (_ =? _)%nat; [reflexivity|]. cbv zeta.
    match goal with
    | |- context [while_next (sq_burst ?s' ?cm')] =>
        rewrite (while_next_ext (sq_burst s' cm') (sq_burst (self m) cm'))
          by (intros; apply (sq_burst_device Hdev); reflexivity)
    end.
    unfold create_computation_jobs, create_statistic_job, create_variance_job.
    cbn [statistic_type variance_estimation_method].
    destruct (while_next _ _ _ _) as [[[a|e] rest] g]; reflexivity.
  - unfold sample_null.
    cbn [set_use_gpu with_self self data_manager kernel_manager sg_rand].
    destruct (kernel_at (kernel_manager m) 0) as [kernel|]; [|reflexivity].
    unfold create_statistic_job. cbn [statistic_type num_null_samples].
    cbv zeta.
    destruct (sn_init (num_null_samples (self m))) as [a0|e0]; [|reflexivity].
    match goal with
    | |- context [while_next (sn_burst ?s' ?cm' kernel)] =>
        rewrite (while_next_ext (sn_burst s' cm' kernel)
                   (sn_burst (self m) cm' kernel))
          by (intros; apply (sn_burst_device Hdev); reflexivity)
    end.
    destruct (while_next _ _ _ _) as [[[a|e] rest] g]; reflexivity.
Qed.

Lemma use_gpu_only_selects_device_witness :
  let m := Toy.engine Toy.stream (Toy.Gaussian 1) in
  fst (compute_statistic_variance (set_use_gpu m true))
  = fst (compute_statistic_variance m)
  /\ fst (compute_statistic_and_Q (set_use_gpu m true))
     = fst (compute_statistic_and_Q m)
  /\ fst (sample_null (set_use_gpu m true)) = fst (sample_null m).
Proof.
  cbv zeta.
  apply (use_gpu_only_selects_device
           (Toy.engine Toy.stream (Toy.Gaussian 1)) true).
  intros job d g. reflexivity.
Defined.

(* ================================================================== *)
(** ** Statistic jobs that do not draw random numbers *)

Section PureStatistic.
Context {F : Type} `{SF : Scalar F} `{CF : Collaborators F}.

(** With a first job that is a function of the kernel matrix, the first
    column of the executor's results is that function of the data. *)
Lemma run_blocks_pure_head (gpu : bool) (job : Job) (jobs : list Job)
  (f : KMatrix -> F) (data : list KMatrix) (g : Rng) :
  (forall d g, run_job gpu job d g = (f d, g)) ->
  map (fun row : list F => row !!! 0%nat)
    (fst (run_blocks gpu (job :: jobs) data g))
  = map f data.
Proof.
  intros Hpure. revert g.
  induction data as [|d data IH]; intros g; cbn; [reflexivity|].
  rewrite Hpure. destruct (run_jobs gpu jobs d g) as [xs g1].
  specialize (IH g1).
  destruct (run_blocks gpu (job :: jobs) data g1) as [rows g2].
  cbn in *. rewrite IH. reflexivity.
Qed.

Lemma run_blocks_pure_single (gpu : bool) (job : Job) (f : KMatrix -> F)
  (data : list KMatrix) (g : Rng) :
  (forall d g, run_job gpu job d g = (f d, g)) ->
  run_blocks gpu [job] data g = (map (fun d => [f d]) data, g).
Proof.
  intros Hpure. induction data as [|d data IH]; cbn; [reflexivity|].
  rewrite Hpure, IH. reflexivity.
Qed.

Lemma burst_results_pure_head (gpu : bool) (job : Job) (jobs : list Job)
  (f : KMatrix -> F) (gram : Features -> KMatrix) (bursts : list Burst)
  (g : Rng) :
  (forall d g, run_job gpu job d g = (f d, g)) ->
  job_scalars 0 (fst (burst_results gpu (job :: jobs) gram bursts g))
  = map f (map gram (concat (map merge_samples bursts))).
Proof.
  intros Hpure. rewrite job_scalars_concat.
  pose proof (burst_results_concat gpu (job :: jobs) gram bursts g) as Hc.
  destruct (burst_results gpu (job :: jobs) gram bursts g) as [results g'].
  cbn [fst].
  rewrite <- (run_blocks_pure_head gpu job jobs f _ g Hpure), <- Hc.
  reflexivity.
Qed.

Lemma multi_kernel_results_pure_single (gpu : bool) (job : Job)
  (f : KMatrix -> F) (gram : Kernel -> Features -> KMatrix) (kernel : Kernel)
  (bursts : list Burst) (g : Rng) :
  (forall d g, run_job gpu job d g = (f d, g)) ->
  kernel_scalars 0 (fst (multi_kernel_results gpu job gram [kernel] bursts g))
  = map f (map (gram kernel) (concat (map merge_samples bursts))).
Proof.
  intros Hpure. unfold multi_kernel_results, kernel_scalars.
  induction bursts as [|b bursts IH]; cbn; [reflexivity|].
  rewrite (run_blocks_pure_single gpu job f _ g Hpure).
  destruct (per_burst _ bursts g) as [more g2]. cbn in *.
  rewrite !map_app, IH. f_equal. rewrite !map_map. reflexivity.
Qed.

End PureStatistic.

(** X23: when the statistic job is a function of the kernel matrix (it
    draws no random number), the statistic [compute_statistic] returns does
    not depend on the variance estimation method. *)
Theorem statistic_independent_of_variance_method {F : Type} `{SF : Scalar F}
  `{CF : Collaborators F} (m : CMMD) (kernel : Kernel)
  (gram : Features -> KMatrix) (f : KMatrix -> F)
  (vmethod : EVarianceEstimationMethod) :
  kernel_at (kernel_manager m) 0 = Some kernel ->
  is_custom kernel = false ->
  kernel_computes kernel gram (dm_pending (data_manager m)) ->
  (forall d g,
     run_job (use_gpu (self m))
       (statistic_job (create_computation_jobs (self m) (data_manager m))) d g
     = (f d, g)) ->
  fst (compute_statistic (set_variance_estimation_method m vmethod))
  = fst (compute_statistic m).
Proof.
  intros Hk Hc Hg Hpure.
  set (m' := set_variance_estimation_method m vmethod).
  rewrite !compute_statistic_fst.
  rewrite (compute_statistic_variance_run m kernel gram Hk Hc Hg),
    (compute_statistic_variance_run m' kernel gram Hk Hc Hg).
  cbv zeta. cbn [result_map fst].
  pose proof (sv_steps_statistic (self m) (sv_results m gram) sv_init) as Hs.
  pose proof (sv_steps_statistic (self m') (sv_results m' gram) sv_init) as Hs'.
  cbv zeta in Hs, Hs'.
  assert (Hscalars : job_scalars 0 (sv_results m' gram)
                     = job_scalars 0 (sv_results m gram)).
  { unfold sv_results. cbv zeta.
    unfold create_computation_jobs, create_statistic_job in *.
    cbn [m' set_variance_estimation_method with_self self data_manager
         sg_rand use_gpu statistic_type statistic_job variance_job] in *.
    rewrite !(burst_results_pure_head _ _ _ f) by exact Hpure.
    reflexivity. }
  rewrite Hscalars, <- Hs in Hs'. apply (f_equal fst) in Hs'.
  cbn [fst] in Hs'. rewrite Hs'. reflexivity.
Qed.

Lemma statistic_independent_of_variance_method_witness :
  let m := Toy.engine Toy.stream (Toy.Gaussian 1) in
  fst (compute_statistic (set_variance_estimation_method m VEM_PERMUTATION))
  = fst (compute_statistic m).
Proof.
  cbv zeta.
  apply (statistic_independent_of_variance_method
           (Toy.engine Toy.stream (Toy.Gaussian 1)) (Toy.Gaussian 1)
           (Toy.toy_gram (Toy.Gaussian 1)) (fun d => d) VEM_PERMUTATION).
  - reflexivity.
  - reflexivity.
  - vm_compute. repeat constructor.
  - intros d g. reflexivity.
Defined.

(** X24: the two estimators agree on a single kernel.  With the bound
    kernel as the only kernel of the selection set and a statistic job that
    draws no random number, the statistic of [compute_statistic_variance]
    is the normalisation of the only entry of the statistic vector of
    [compute_statistic_and_Q]. *)
Theorem single_kernel_statistics_agree {F : Type} `{SF : Scalar F}
  `{CF : Collaborators F} (m : CMMD) (kernel : Kernel)
  (gram : Features -> KMatrix) (f : KMatrix -> F) :
  kernel_at (kernel_manager m) 0 = Some kernel ->
  kernel_selection_mgr (self m) = [kernel] ->
  is_custom kernel = false ->
  kernel_computes kernel gram (dm_pending (data_manager m)) ->
  even_bursts (dm_pending (data_manager m)) ->
  (Z.of_nat (length (stream_blocks (dm_pending (data_manager m)))) < index_max)%Z ->
  (forall d g,
     run_job (use_gpu (self m))
       (statistic_job (create_computation_jobs (self m) (data_manager m))) d g
     = (f d, g)) ->
  exists statistic variance raw Q,
    fst (compute_statistic_variance m) = Ok (statistic, variance)
    /\ fst (compute_statistic_and_Q m) = Ok ([raw], Q)
    /\ statistic = normalize_statistic raw.
Proof.
  intros Hk Hset Hc Hg Heven Hlen Hpure.
  assert (Hne : kernel_selection_mgr (self m) <> [])
    by (rewrite Hset; discriminate).
  assert (Hks : kernels_compute (kernel_selection_mgr (self m))
                  (fun _ => gram) (dm_pending (data_manager m))).
  { unfold kernels_compute. rewrite Hset. constructor; [|constructor].
    split; assumption. }
  destruct (compute_statistic_and_Q_ok m (fun _ => gram) Hne Hks Heven Hlen)
    as (vector & Q & Hrun & Hl & Hs & _).
  rewrite Hset in Hl, Hs. cbn [length] in Hl, Hs.
  destruct vector as [|raw [|more vector]]; try discriminate.
  specialize (Hs 0%nat ltac:(lia)). cbn in Hs.
  eexists _, _, raw, Q.
  split; [exact (compute_statistic_variance_ok m kernel gram Hk Hc Hg Hlen)|].
  split; [exact Hrun|].
  f_equal. rewrite Hs. f_equal.
  unfold statistic_scalars, sv_results, mk_results. cbv zeta. rewrite Hset.
  rewrite (burst_results_pure_head _ _ _ f) by exact Hpure.
  rewrite (multi_kernel_results_pure_single _ _ f) by exact Hpure.
  reflexivity.
Qed.

Lemma single_kernel_statistics_agree_witness :
  let m := Toy.engine Toy.stream (Toy.Gaussian 1) in
  exists statistic variance raw Q,
    fst (compute_statistic_variance m) = Ok (statistic, variance)
    /\ fst (compute_statistic_and_Q m) = Ok ([raw], Q)
    /\ statistic = normalize_statistic raw.
Proof.
  cbv zeta.
  apply (single_kernel_statistics_agree
           (Toy.engine Toy.stream (Toy.Gaussian 1)) (Toy.Gaussian 1)
           (Toy.toy_gram (Toy.Gaussian 1)) (fun d => d)).
  - reflexivity.
  - reflexivity.
  - reflexivity.
  - vm_compute. repeat constructor.
  - vm_compute. repeat constructor.
  - vm_compute. reflexivity.
  - intros d g. reflexivity.
Defined.
